(** * ls-merge: the interactive terminal feedback engine

    A shallow embedding of the two terminal components of the repository,
    the keyboard-driven [SelectPrompt] (the vendored select element) and the
    animated [Spinner] of [src/lib/Spinner.js] with its async-action wrapper
    [promise], together with the properties of their state machines.

    JavaScript values are embedded as the inductive type [Js.value]; a
    method that mutates [this] becomes a function from the object's record
    to the mutated record; writes to the terminal stream are appended to an
    event trace carried by the record; a method that may throw runs in a
    small state-and-exception monad in which the mutations made before the
    throw are kept, as they are in JavaScript. *)

From Stdlib Require Import ZArith List String Ascii Bool Lia DecimalString.
Import ListNotations.
Open Scope string_scope.
Open Scope Z_scope.

Set Warnings "-register-all".

(* ===================================================================== *)
(** ** JavaScript values *)
(* ===================================================================== *)

Module Js.

(** The values the two components inspect.  Numbers are the integer-valued
    ones (indices, widths, counts); objects are plain data objects, kept as
    association lists in declaration order. *)
Inductive value : Type :=
| VUndef
| VNull
| VBool (b : bool)
| VNum (n : Z)
| VStr (s : string)
| VObj (props : list (string * value)).

(** [ToBoolean]: what [if (v)], [!v], [v && _] and [v || _] test. *)
Definition truthy (v : value) : bool :=
  match v with
  | VUndef | VNull => false
  | VBool b => b
  | VNum n => negb (n =? 0)
  | VStr s => negb (s =? "")%string
  | VObj _ => true
  end.

(** [v == null]. *)
Definition nullish (v : value) : bool :=
  match v with
  | VUndef | VNull => true
  | _ => false
  end.

(** [typeof v === 'object'] (which holds of [null]). *)
Definition typeof_object (v : value) : bool :=
  match v with
  | VNull | VObj _ => true
  | _ => false
  end.

(** [typeof v === 'string']. *)
Definition typeof_string (v : value) : bool :=
  match v with
  | VStr _ => true
  | _ => false
  end.

Fixpoint lookup (k : string) (props : list (string * value)) : value :=
  match props with
  | [] => VUndef
  | (k', v) :: rest => if (k =? k')%string then v else lookup k rest
  end.

(** [v.k] for the data properties read by this code ([title], [value],
    [selected], [disabled], [message], [text], [symbol], [color]): a
    [TypeError] ([None]) on [undefined] and [null], [undefined] on the other
    primitives, the stored value on an object. *)
Definition get (v : value) (k : string) : option value :=
  match v with
  | VUndef | VNull => None
  | VObj props => Some (lookup k props)
  | _ => Some VUndef
  end.

(** [a && b] and [a || b], with [b] already evaluated (used only where
    evaluating [b] has no effect). *)
Definition and_ (a b : value) : value := if truthy a then b else a.
Definition or_ (a b : value) : value := if truthy a then a else b.

(** [String(v)], also the conversion done by [v + '\n'] and by a template
    literal. *)
Definition to_string (v : value) : string :=
  match v with
  | VUndef => "undefined"
  | VNull => "null"
  | VBool true => "true"
  | VBool false => "false"
  | VNum n => NilZero.string_of_int (Z.to_int n)
  | VStr s => s
  | VObj _ => "[object Object]"
  end.

(** The conversion [Array.prototype.join] applies to an element. *)
Definition join_item (v : value) : string :=
  if nullish v then "" else to_string v.

(** [arr[i]] for a number [i]: [undefined] ([None]) outside the array. *)
Definition index {A : Type} (arr : list A) (i : Z) : option A :=
  if i <? 0 then None else nth_error arr (Z.to_nat i).

(** The error objects the runtime and this code throw. *)
Definition mkError (name msg : string) : value :=
  VObj [("name", VStr name); ("message", VStr msg)].
Definition TypeError (msg : string) : value := mkError "TypeError" msg.
Definition Error (msg : string) : value := mkError "Error" msg.

End Js.

Import Js.

(** Outcome of a call that may throw: the returned value or the thrown
    error object. *)
Inductive completion (A : Type) : Type :=
| Normal (a : A)
| Throw (e : value).
Arguments Normal {A} a.
Arguments Throw {A} e.

(* ===================================================================== *)
(** ** SelectPrompt *)
(* ===================================================================== *)

Module Select.

(** What reaches the outside world: writes to [this.out] and the calls into
    the Prompt base. *)
Inductive event : Type :=
| EHideCursor                       (* out.write(cursor.hide) *)
| EEraseLines (n : Z)               (* out.write(erase.lines(n)) *)
| EOnRender                         (* super.render() *)
| EWrite (s : string)               (* out.write(s) *)
| EBell                             (* this.bell() *)
| EFire (v : value) (aborted : bool)  (* this.fire() *)
| EClose.                           (* this.close() *)

(** The styling helpers imported from [kleur] and [../util]; they only
    shape the text that is written. *)
Record theme : Type := {
  symbol : bool -> bool -> string;      (* style.symbol(done, aborted) *)
  delimiter : bool -> string;           (* style.delimiter(false) *)
  pointer : string;                     (* figures.pointer *)
  bold : string -> string;
  yellow : string -> string;
  gray : string -> string;
  cyan : string -> string;
  bold_gray : string -> string;
  gray_underline : value -> string;
  strikethrough_gray : value -> string;
  cyan_underline : value -> string
}.

(** A normalized entry of [this.values]. *)
Record choice : Type := {
  title : value;
  cvalue : value;
  selected : value;
  disabled : value
}.

(** The constructor's [opts]. *)
Record opts : Type := {
  o_message : string;
  o_hint : option string;
  o_warn : option string;
  o_initial : option Z;
  o_choices : list value
}.

(** The prompt object.  [done], [aborted] and [closed] are unset
    ([undefined], here [false]) until a method assigns them. *)
Record t : Type := {
  msg : string;
  hint : string;
  warn : string;
  cursor : Z;
  values : list choice;
  value_ : value;
  done : bool;
  aborted : bool;
  closed : bool;
  firstRender : bool;
  out : list event
}.

Definition emit (e : event) (p : t) : t :=
  {| msg := msg p; hint := hint p; warn := warn p; cursor := cursor p;
     values := values p; value_ := value_ p; done := done p;
     aborted := aborted p; closed := closed p;
     firstRender := firstRender p; out := out p ++ [e] |}.

Definition set_cursor (n : Z) (p : t) : t :=
  {| msg := msg p; hint := hint p; warn := warn p; cursor := n;
     values := values p; value_ := value_ p; done := done p;
     aborted := aborted p; closed := closed p;
     firstRender := firstRender p; out := out p |}.

Definition set_value (v : value) (p : t) : t :=
  {| msg := msg p; hint := hint p; warn := warn p; cursor := cursor p;
     values := values p; value_ := v; done := done p;
     aborted := aborted p; closed := closed p;
     firstRender := firstRender p; out := out p |}.

Definition set_done (d a : bool) (p : t) : t :=
  {| msg := msg p; hint := hint p; warn := warn p; cursor := cursor p;
     values := values p; value_ := value_ p; done := d;
     aborted := a; closed := closed p;
     firstRender := firstRender p; out := out p |}.

Definition set_closed (p : t) : t :=
  {| msg := msg p; hint := hint p; warn := warn p; cursor := cursor p;
     values := values p; value_ := value_ p; done := done p;
     aborted := aborted p; closed := true;
     firstRender := firstRender p; out := out p |}.

Definition set_rendered (p : t) : t :=
  {| msg := msg p; hint := hint p; warn := warn p; cursor := cursor p;
     values := values p; value_ := value_ p; done := done p;
     aborted := aborted p; closed := closed p;
     firstRender := false; out := out p |}.

(** *** The Prompt base *)

(** Modelled from the spec: the Prompt base class [./prompt] is not among
    the sources.  Its [bell()] is the audible signal. *)
Definition bell (p : t) : t := emit EBell p.

(** Modelled from the spec: [fire()] of the Prompt base, the hook that
    notifies listeners of the current value. *)
Definition fire (p : t) : t := emit (EFire (value_ p) (aborted p)) p.

(** Modelled from the spec: [close()] of the Prompt base releases the input
    listener and closes the prompt; [render] tests the [closed] flag it
    leaves. *)
Definition close (p : t) : t := set_closed (emit EClose p).

(** Modelled from the spec: [render()] of the Prompt base; the first render
    is a one-time event, after it the first-render flag (which [render] of
    the class reads as [this.first]) is down. *)
Definition super_render (p : t) : t := set_rendered (emit EOnRender p).

(** *** Methods of the class *)

(** [(v, i) => ({title: ..., value: ..., selected: ..., disabled: ...})]. *)
Definition normalize (v : value) : completion choice :=
  let sub k := match get v k with Some x => x | None => VUndef end in
  let value_of :=
    if typeof_object v then get v "value" else Some v in
  match value_of with
  | None => Throw (TypeError "Cannot read properties of null")
  | Some val =>
      Normal {| title := and_ v (or_ (or_ (sub "title") (sub "value")) v);
                cvalue := val;
                selected := and_ v (sub "selected");
                disabled := and_ v (sub "disabled") |}
  end.

(** [opts.choices.map(...)]: the first throwing element aborts the map. *)
Fixpoint normalize_all (vs : list value) : completion (list choice) :=
  match vs with
  | [] => Normal []
  | v :: rest =>
      match normalize v with
      | Throw e => Throw e
      | Normal c =>
          match normalize_all rest with
          | Throw e => Throw e
          | Normal cs => Normal (c :: cs)
          end
      end
  end.

(** [get selection()]. *)
Definition selection (p : t) : option choice := index (values p) (cursor p).

Section Rendering.
Variable th : theme.

(** One line of the choice list. *)
Definition choice_line (cur : Z) (i : Z) (v : choice) : string :=
  let here := cur =? i in
  let ttl :=
    if truthy (disabled v)
    then (if here then gray_underline th (title v)
          else strikethrough_gray th (title v))
    else (if here then cyan_underline th (title v)
          else to_string (title v)) in
  let prefix :=
    if truthy (disabled v)
    then (if here then bold_gray th (pointer th) ++ " " else "  ")
    else (if here then cyan th (pointer th) ++ " " else "  ") in
  prefix ++ " " ++ ttl.

Fixpoint choice_lines (cur : Z) (i : Z) (vs : list choice) : list string :=
  match vs with
  | [] => []
  | v :: rest => choice_line cur i v :: choice_lines cur (i + 1) rest
  end.

(** [render()].  It throws when the cursor is not on a choice. *)
Definition render (p : t) : completion unit * t :=
  if closed p then (Normal tt, p)
  else
    let p1 := if firstRender p then emit EHideCursor p
              else emit (EEraseLines (Z.of_nat (List.length (values p)) + 1)) p in
    let p2 := super_render p1 in
    match selection p2 with
    | None => (Throw (TypeError "Cannot read properties of undefined"), p2)
    | Some sel =>
        let tail :=
          if done p2 then join_item (title sel)
          else if truthy (disabled sel) then yellow th (warn p2)
               else gray th (hint p2) in
        let p3 :=
          emit (EWrite (String.concat " "
                  [symbol th (done p2) (aborted p2); bold th (msg p2);
                   delimiter th false; tail])) p2 in
        if negb (done p3)
        then (Normal tt,
              emit (EWrite (String (ascii_of_nat 10) "" ++
                      String.concat (String (ascii_of_nat 10) "")
                        (choice_lines (cursor p3) 0 (values p3)))) p3)
        else (Normal tt, p3)
    end.

(** [moveCursor(n)]. *)
Definition moveCursor (n : Z) (p : t) : completion unit * t :=
  let p1 := set_cursor n p in
  match index (values p1) n with
  | None => (Throw (TypeError "Cannot read properties of undefined"), p1)
  | Some c => (Normal tt, fire (set_value (cvalue c) p1))
  end.

(** Sequencing of two calls: the second runs only if the first returned. *)
Definition andThen (m : t -> completion unit * t)
    (k : t -> completion unit * t) (p : t) : completion unit * t :=
  match m p with
  | (Normal _, p1) => k p1
  | (Throw e, p1) => (Throw e, p1)
  end.

Definition lift (f : t -> t) (p : t) : completion unit * t := (Normal tt, f p).

(** [abort()]. *)
Definition abort : t -> completion unit * t :=
  andThen (lift (fun p => fire (set_done true true p)))
    (andThen render
       (lift (fun p => close (emit (EWrite (String (ascii_of_nat 10) "")) p)))).

(** [submit()]. *)
Definition submit (p : t) : completion unit * t :=
  match selection p with
  | None => (Throw (TypeError "Cannot read properties of undefined"), p)
  | Some sel =>
      if negb (truthy (disabled sel))
      then
        andThen (lift (fun p => fire (set_done true false p)))
          (andThen render
             (lift (fun p =>
                close (emit (EWrite (String (ascii_of_nat 10) "")) p)))) p
      else (Normal tt, bell p)
  end.

(** [first()]. *)
Definition first : t -> completion unit * t :=
  andThen (moveCursor 0) render.

(** [last()]. *)
Definition last (p : t) : completion unit * t :=
  andThen (moveCursor (Z.of_nat (List.length (values p)) - 1)) render p.

(** [reset()]. *)
Definition reset : t -> completion unit * t :=
  andThen (moveCursor 0) (andThen (lift fire) render).

(** [up()]. *)
Definition up (p : t) : completion unit * t :=
  if cursor p =? 0 then (Normal tt, bell p)
  else andThen (moveCursor (cursor p - 1)) render p.

(** [down()]. *)
Definition down (p : t) : completion unit * t :=
  if cursor p =? Z.of_nat (List.length (values p)) - 1 then (Normal tt, bell p)
  else andThen (moveCursor (cursor p + 1)) render p.

(** [next()].  [%] is the remainder of JavaScript, which takes the sign of
    the dividend. *)
Definition next (p : t) : completion unit * t :=
  andThen (moveCursor (Z.rem (cursor p + 1) (Z.of_nat (List.length (values p)))))
    render p.

(** [_(c, key)]: the space bar submits. *)
Definition key_ (c : string) (p : t) : completion unit * t :=
  if (c =? " ")%string then submit p else (Normal tt, p).

(** [new SelectPrompt(opts)]; [opts.initial || 0] is the cursor. *)
Definition new (o : opts) : completion t :=
  let cur := match o_initial o with Some n => n | None => 0 end in
  match normalize_all (o_choices o) with
  | Throw e => Throw e
  | Normal vals =>
      match index (o_choices o) cur with
      | None => Throw (TypeError "Cannot read properties of undefined")
      | Some raw =>
          match get raw "value" with
          | None => Throw (TypeError "Cannot read properties of null")
          | Some v =>
              let p :=
                {| msg := o_message o;
                   hint := match o_hint o with
                           | Some h => if (h =? "")%string
                                       then "- Use arrow-keys. Return to submit."
                                       else h
                           | None => "- Use arrow-keys. Return to submit."
                           end;
                   warn := match o_warn o with
                           | Some w => if (w =? "")%string
                                       then "- This option is disabled"
                                       else w
                           | None => "- This option is disabled"
                           end;
                   cursor := cur;
                   values := vals;
                   value_ := v;
                   done := false; aborted := false; closed := false;
                   firstRender := true;
                   out := [] |} in
              match render p with
              | (Normal _, p') => Normal p'
              | (Throw e, _) => Throw e
              end
          end
      end
  end.

End Rendering.

(** Counting the events of one kind in a trace. *)
Definition is_bell (ev : event) : bool :=
  match ev with EBell => true | _ => false end.
Definition is_fire (ev : event) : bool :=
  match ev with EFire _ _ => true | _ => false end.
Definition is_close (ev : event) : bool :=
  match ev with EClose => true | _ => false end.
Definition count (f : event -> bool) (evs : list event) : nat :=
  List.length (filter f evs).

(** The events by which [render] draws. *)
Definition is_draw (ev : event) : bool :=
  match ev with
  | EHideCursor | EEraseLines _ | EOnRender | EWrite _ => true
  | _ => false
  end.

End Select.

(* ===================================================================== *)
(** ** Spinner *)
(* ===================================================================== *)

Module Spinner.

(** A formatter such as [chalk.cyan]: it wraps a string in a style. *)
Definition painter : Type := string -> string.

(** What is stored in a [color] property: a formatter function or any
    other value (a colour name, as a rule). *)
Inductive color : Type :=
| CFun (f : painter)
| CVal (v : value).

(** An entry of [cli-spinners], or a custom frame set.  [None] is a property
    that is [undefined] or [null]. *)
Record spinner_def : Type := {
  frames : option (list string);
  sp_interval : option Z
}.

(** Calls on the output stream, in order. *)
Inductive event : Type :=
| Write (s : string)                 (* stream.write(s) *)
| MoveCursor (dx dy : Z)             (* stream.moveCursor(dx, dy) *)
| ClearLine                          (* stream.clearLine() *)
| CursorTo (x : Z)                   (* stream.cursorTo(x) *)
| HideCursor                         (* cliCursor.hide(stream) *)
| ShowCursor.                        (* cliCursor.show(stream) *)

(** A writable stream: terminal or not, its width when it has one, and
    what has been done to it. *)
Record stream_t : Type := {
  isTTY : bool;
  columns : option Z;
  output : list event
}.

(** The process and the imported packages ([cli-spinners], [chalk],
    [log-symbols], [strip-ansi], [wcwidth]). *)
Record env : Type := {
  platform_win32 : bool;                        (* process.platform === 'win32' *)
  env_CI : bool;                                (* process.env.CI is set *)
  stderr : stream_t;                            (* process.stderr *)
  cliSpinners : string -> option spinner_def;   (* cliSpinners[name] *)
  cli_line : spinner_def;                       (* cliSpinners.line *)
  cli_dots : spinner_def;                       (* cliSpinners.dots *)
  chalk : string -> option painter;             (* name in chalk, chalk[name] *)
  chalk_cyan : painter;
  chalk_green : painter;
  chalk_red_bold : painter;
  chalk_blue : painter;
  chalk_yellow : painter;
  sym_success : string;                         (* logSymbols.success *)
  sym_error : string;
  sym_warning : string;
  sym_info : string;
  stripAnsi : string -> string;
  wcwidth : string -> Z
}.

(** The [spinner] option: absent, a name, or a frame-set object. *)
Inductive spinner_opt : Type :=
| SpNone
| SpName (name : string)
| SpObject (d : spinner_def).

(** The options object of the constructor; [None] is an absent property. *)
Record options : Type := {
  o_text : option string;
  o_spinner : spinner_opt;
  o_color : option color;
  o_hideCursor : option bool;
  o_interval : option Z;
  o_stream : option stream_t;
  o_isEnabled : option bool
}.

(** The constructor's argument: a bare string, nothing, or options. *)
Inductive ctor_arg : Type :=
| ArgText (s : string)
| ArgUndef
| ArgOptions (o : options).

(** A number used as an array index; [NaN] is what [n % 0] yields. *)
Inductive jsnum : Type :=
| Num (n : Z)
| NaN.

(** The spinner object. *)
Record t : Type := {
  spinner : spinner_def;
  color_ : color;
  hideCursor : bool;
  interval : Z;
  stream : stream_t;
  id : option Z;           (* the timer handle, [null] when not spinning *)
  frameIndex : jsnum;
  isEnabled : bool;
  lastResult : value;
  text : string;
  lineCount : Z;
  linesToClear : Z
}.

Definition emit (e : event) (s : t) : t :=
  {| spinner := spinner s; color_ := color_ s; hideCursor := hideCursor s;
     interval := interval s;
     stream := {| isTTY := isTTY (stream s); columns := columns (stream s);
                  output := output (stream s) ++ [e] |};
     id := id s; frameIndex := frameIndex s; isEnabled := isEnabled s;
     lastResult := lastResult s; text := text s; lineCount := lineCount s;
     linesToClear := linesToClear s |}.

Definition set_id (i : option Z) (s : t) : t :=
  {| spinner := spinner s; color_ := color_ s; hideCursor := hideCursor s;
     interval := interval s; stream := stream s;
     id := i; frameIndex := frameIndex s; isEnabled := isEnabled s;
     lastResult := lastResult s; text := text s; lineCount := lineCount s;
     linesToClear := linesToClear s |}.

Definition set_frameIndex (n : jsnum) (s : t) : t :=
  {| spinner := spinner s; color_ := color_ s; hideCursor := hideCursor s;
     interval := interval s; stream := stream s;
     id := id s; frameIndex := n; isEnabled := isEnabled s;
     lastResult := lastResult s; text := text s; lineCount := lineCount s;
     linesToClear := linesToClear s |}.

Definition set_lastResult (v : value) (s : t) : t :=
  {| spinner := spinner s; color_ := color_ s; hideCursor := hideCursor s;
     interval := interval s; stream := stream s;
     id := id s; frameIndex := frameIndex s; isEnabled := isEnabled s;
     lastResult := v; text := text s; lineCount := lineCount s;
     linesToClear := linesToClear s |}.

Definition set_linesToClear (n : Z) (s : t) : t :=
  {| spinner := spinner s; color_ := color_ s; hideCursor := hideCursor s;
     interval := interval s; stream := stream s;
     id := id s; frameIndex := frameIndex s; isEnabled := isEnabled s;
     lastResult := lastResult s; text := text s; lineCount := lineCount s;
     linesToClear := n |}.

(** *** Measuring text *)

Definition nl : string := String (ascii_of_nat 10) "".

(** [str.split('\n')]. *)
Fixpoint split_lines (str : string) : list string :=
  match str with
  | EmptyString => [EmptyString]
  | String c rest =>
      if Ascii.eqb c (ascii_of_nat 10) then EmptyString :: split_lines rest
      else match split_lines rest with
           | l :: ls => String c l :: ls
           | [] => [String c EmptyString]
           end
  end.

(** [Math.ceil(a / b)] on integers, for a divisor that is not zero.  The
    quotient of two integers of the size of a string length and a terminal
    width is computed exactly enough by the floating-point division for
    its ceiling to be the exact one. *)
Definition ceil_div (a b : Z) : Z := - ((- a) / b).

(** [this.stream.columns || 80]. *)
Definition columns_or_80 (st : stream_t) : Z :=
  match columns st with
  | Some c => if c =? 0 then 80 else c
  | None => 80
  end.

(** The [reduce] of the [text] setter: terminal rows taken by [str] at
    width [cols]. *)
Definition count_rows (e : env) (cols : Z) (str : string) : Z :=
  fold_left (fun count line => count + Z.max 1 (ceil_div (wcwidth e line) cols))
    (split_lines (stripAnsi e str)) 0.

(** [set text(value)]. *)
Definition set_text (e : env) (value : string) (s : t) : t :=
  {| spinner := spinner s; color_ := color_ s; hideCursor := hideCursor s;
     interval := interval s; stream := stream s;
     id := id s; frameIndex := frameIndex s; isEnabled := isEnabled s;
     lastResult := lastResult s; text := value;
     lineCount := count_rows e (columns_or_80 (stream s)) ("--" ++ value);
     linesToClear := linesToClear s |}.

(** [get isSpinning()]. *)
Definition isSpinning (s : t) : bool :=
  match id s with
  | Some _ => true
  | None => false
  end.

(** *** Construction *)

(** [x || y || 100] on the interval numbers. *)
Definition first_nonzero (a b : option Z) : Z :=
  match a with
  | Some x => if negb (x =? 0) then x else
      match b with Some y => if negb (y =? 0) then y else 100 | None => 100 end
  | None =>
      match b with Some y => if negb (y =? 0) then y else 100 | None => 100 end
  end.

(** The frame set chosen by the constructor. *)
Definition resolve_spinner (e : env) (sp : spinner_opt) : spinner_def :=
  match sp with
  | SpObject d => d
  | SpName name =>
      if platform_win32 e then cli_line e
      else match cliSpinners e name with
           | Some d => d
           | None => cli_dots e
           end
  | SpNone =>
      if platform_win32 e then cli_line e else cli_dots e
  end.

Definition no_options : options :=
  {| o_text := None; o_spinner := SpNone; o_color := None;
     o_hideCursor := None; o_interval := None; o_stream := None;
     o_isEnabled := None |}.

(** [new Spinner(options)]. *)
Definition new (e : env) (arg : ctor_arg) : completion t :=
  let o := match arg with
           | ArgText txt =>
               {| o_text := Some txt; o_spinner := SpNone; o_color := None;
                  o_hideCursor := None; o_interval := None; o_stream := None;
                  o_isEnabled := None |}
           | ArgUndef => no_options
           | ArgOptions o => o
           end in
  let sp := resolve_spinner e (o_spinner o) in
  match frames sp with
  | None => Throw (Error "Spinner must define `frames`")
  | Some _ =>
      let st := match o_stream o with Some st => st | None => stderr e end in
      let s0 :=
        {| spinner := sp;
           color_ := match o_color o with
                     | Some (CFun f) => CFun f
                     | Some (CVal v) =>
                         if truthy v then CVal v else CFun (chalk_cyan e)
                     | None => CFun (chalk_cyan e)
                     end;
           hideCursor := match o_hideCursor o with
                         | Some b => b
                         | None => true
                         end;
           interval := first_nonzero (o_interval o) (sp_interval sp);
           stream := st;
           id := None;
           frameIndex := Num 0;
           isEnabled := match o_isEnabled o with
                        | Some b => b
                        | None => isTTY st && negb (env_CI e)
                        end;
           lastResult := VNull;
           text := "";
           lineCount := 0;
           linesToClear := 0 |} in
      Normal
        (set_linesToClear 0
           (set_text e (match o_text o with Some txt => txt | None => "" end)
              s0))
  end.

(** *** Animation *)

(** The callee of [chalk[c](...)] or [c(...)]: a colour that [chalk] knows
    by name, else the colour itself, which must then be a function. *)
Definition callee (e : env) (c : color) : option painter :=
  match c with
  | CFun f => Some f
  | CVal v => chalk e (to_string v)
  end.

(** The formatter applied by [frame()]: [chalk[c]] when [c] names a member
    of [chalk], else [c] itself when it is truthy, which must then be a
    function, else none. *)
Definition frame_painter (e : env) (c : color) : option painter :=
  match c with
  | CFun f => Some f
  | CVal v =>
      match chalk e (to_string v) with
      | Some f => Some f
      | None => if truthy v then None else Some (fun glyph => glyph)
      end
  end.

(** [frame()].  A glyph outside the frame list is [undefined] and prints as
    such. *)
Definition frame (e : env) (s : t) : completion string * t :=
  match frames (spinner s) with
  | None => (Throw (TypeError "Cannot read properties of undefined"), s)
  | Some fs =>
      let glyph :=
        match frameIndex s with
        | Num i => match index fs i with
                   | Some g => g
                   | None => "undefined"
                   end
        | NaN => "undefined"
        end in
      match frame_painter e (color_ s) with
      | None => (Throw (TypeError "this.color is not a function"), s)
      | Some paint =>
          let next :=
            match frameIndex s, fs with
            | Num i, _ :: _ => Num (Z.rem (i + 1) (Z.of_nat (List.length fs)))
            | _, _ => NaN
            end in
          (Normal (paint glyph ++ " " ++ text s), set_frameIndex next s)
      end
  end.

(** The body of the loop of [clear()], from counter [i], [n] more times. *)
Fixpoint clear_loop (i : Z) (n : nat) (s : t) : t :=
  match n with
  | O => s
  | S n' =>
      let s1 := if i >? 0 then emit (MoveCursor 0 (-1)) s else s in
      clear_loop (i + 1) n' (emit (CursorTo 0) (emit ClearLine s1))
  end.

(** [clear()]. *)
Definition clear (s : t) : t :=
  if negb (isEnabled s) || negb (isTTY (stream s)) then s
  else set_linesToClear 0 (clear_loop 0 (Z.to_nat (linesToClear s)) s).

(** [render()]. *)
Definition render (e : env) (s : t) : completion unit * t :=
  let s1 := clear s in
  match frame e s1 with
  | (Throw err, s2) => (Throw err, s2)
  | (Normal fr, s2) =>
      let s3 := emit (Write fr) s2 in
      (Normal tt, set_linesToClear (lineCount s3) s3)
  end.

(** [start(text)]; the argument is [None] when omitted. *)
Definition start (e : env) (txt : option string) (s : t)
  : completion unit * t :=
  let s1 := match txt with
            | Some v => if negb (v =? "")%string then set_text e v s else s
            | None => s
            end in
  if negb (isEnabled s1)
  then (Normal tt, emit (Write ("- " ++ text s1 ++ nl)) s1)
  else if isSpinning s1 then (Normal tt, s1)
  else
    let s2 := if hideCursor s1 then emit HideCursor s1 else s1 in
    match render e s2 with
    | (Throw err, s3) => (Throw err, s3)
    | (Normal _, s3) => (Normal tt, set_id (Some (interval s3)) s3)
    end.

(** [stop()]. *)
Definition stop (s : t) : t :=
  if negb (isEnabled s) then s
  else
    let s1 := clear (set_frameIndex (Num 0) (set_id None s)) in
    if hideCursor s1 then emit ShowCursor s1 else s1.

(** One firing of the interval timer: [render] runs while the timer is
    set. *)
Definition tick (e : env) (s : t) : completion unit * t :=
  if isSpinning s then render e s else (Normal tt, s).

(** [n] firings; an exception in a timer callback is uncaught and ends the
    run. *)
Fixpoint ticks (e : env) (n : nat) (s : t) : completion unit * t :=
  match n with
  | O => (Normal tt, s)
  | S n' =>
      match tick e s with
      | (Throw err, s1) => (Throw err, s1)
      | (Normal _, s1) => ticks e n' s1
      end
  end.

(** *** Terminal states *)

(** The options of [stopAndPersist] that are read: [text], [symbol] and
    [color]; [None] is an absent or [undefined] property, which [_.merge]
    skips. *)
Record popts : Type := {
  p_text : option value;
  p_symbol : option value;
  p_color : option color
}.

Definition no_popts : popts :=
  {| p_text := None; p_symbol := None; p_color := None |}.

Definition defined (v : value) : option value :=
  match v with
  | VUndef => None
  | _ => Some v
  end.

(** The three properties as [_.merge] finds them on a source value: a
    primitive contributes none. *)
Definition popts_of_value (v : value) : popts :=
  match v with
  | VObj props =>
      {| p_text := defined (lookup "text" props);
         p_symbol := defined (lookup "symbol" props);
         p_color := option_map CVal (defined (lookup "color" props)) |}
  | _ => no_popts
  end.

Definition pick {A : Type} (src : option A) (dst : option A) : option A :=
  match src with
  | Some x => Some x
  | None => dst
  end.

(** [_.merge(dst, src)] on these properties: a defined source property
    replaces the destination's. *)
Definition merge (dst src : popts) : popts :=
  {| p_text := pick (p_text src) (p_text dst);
     p_symbol := pick (p_symbol src) (p_symbol dst);
     p_color := pick (p_color src) (p_color dst) |}.

(** U+2008 PUNCTUATION SPACE, in UTF-8. *)
Definition u2008 : string :=
  String (ascii_of_nat 226) (String (ascii_of_nat 128)
    (String (ascii_of_nat 136) "")).

(** The permanent line: [symbol + ' ' + paint(text + '\n')]. *)
Definition persist_line (sym : value) (paint : painter) (txt : value)
  : string :=
  to_string sym ++ u2008 ++ paint (to_string txt ++ nl).

Definition or_default {A : Type} (src : option A) (dflt : A) : A :=
  match src with
  | Some x => x
  | None => dflt
  end.

(** [stopAndPersist(opts)]: the merge into [{text: this.text, symbol:
    ' \u2008', color: COLORS.default}] keeps a default where [opts] defines
    nothing. *)
Definition stopAndPersist (e : env) (o : popts) (s : t)
  : completion unit * t :=
  let s1 := stop s in
  let txt := or_default (p_text o) (VStr (text s1)) in
  let sym := or_default (p_symbol o) (VStr (" " ++ u2008)) in
  let c := or_default (p_color o) (CFun (chalk_cyan e)) in
  match callee e c with
  | Some paint => (Normal tt, emit (Write (persist_line sym paint txt)) s1)
  | None => (Throw (TypeError "opts.color is not a function"), s1)
  end.

(** The argument of [succeed], [fail], [warn] and [info] after the default
    [{}] and the [typeof opts === 'string'] conversion. *)
Definition persist_arg (arg : value) : popts :=
  if typeof_string arg
  then {| p_text := Some arg; p_symbol := None; p_color := None |}
  else popts_of_value arg.

(** [succeed(opts)] on an options object. *)
Definition succeed_opts (e : env) (o : popts) (s : t) : completion unit * t :=
  stopAndPersist e
    (merge {| p_text := None; p_symbol := Some (VStr (sym_success e));
              p_color := Some (CFun (chalk_green e)) |} o) s.

(** [fail(opts)] on an options object. *)
Definition fail_opts (e : env) (o : popts) (s : t) : completion unit * t :=
  stopAndPersist e
    (merge {| p_text := None; p_symbol := Some (VStr (sym_error e));
              p_color := Some (CFun (chalk_red_bold e)) |} o) s.

(** [warn(opts)] on an options object. *)
Definition warn_opts (e : env) (o : popts) (s : t) : completion unit * t :=
  stopAndPersist e
    (merge {| p_text := None; p_symbol := Some (VStr (sym_warning e));
              p_color := Some (CFun (chalk_yellow e)) |} o) s.

(** [info(opts)] on an options object. *)
Definition info_opts (e : env) (o : popts) (s : t) : completion unit * t :=
  stopAndPersist e
    (merge {| p_text := None; p_symbol := Some (VStr (sym_info e));
              p_color := Some (CFun (chalk_blue e)) |} o) s.

(** [succeed(arg)] and [fail(arg)] on a string or a data value. *)
Definition succeed (e : env) (arg : value) : t -> completion unit * t :=
  succeed_opts e (persist_arg arg).
Definition fail (e : env) (arg : value) : t -> completion unit * t :=
  fail_opts e (persist_arg arg).

(** *** The async-action wrapper *)

(** How an asynchronous computation ends. *)
Inductive settle : Type :=
| Resolves (v : value)
| Rejects (err : value)
| Never.

(** A computation in flight: the number of timer firings of the spinner
    that happen before it settles, and how it settles. *)
Record run : Type := {
  elapsed : nat;
  result : settle
}.

(** What can be passed as [action]. *)
Inductive action : Type :=
| APromise (r : run)            (* a Promise, in flight *)
| AAsyncFunction (r : run)      (* an async function; [r] is its call *)
| ATagged (call : option run)   (* another object whose Symbol.toStringTag is
                                   'AsyncFunction'; [None]: not callable *)
| AOther (v : value).           (* any other value *)

Definition action_nullish (a : action) : bool :=
  match a with
  | AOther v => nullish v
  | _ => false
  end.

(** [action[Symbol.toStringTag]]. *)
Definition toStringTag (a : action) : option string :=
  match a with
  | APromise _ => Some "Promise"
  | AAsyncFunction _ => Some "AsyncFunction"
  | ATagged _ => Some "AsyncFunction"
  | AOther _ => None
  end.

(** [action instanceof AsyncFunction]. *)
Definition instanceof_AsyncFunction (a : action) : bool :=
  match a with
  | AAsyncFunction _ => true
  | _ => false
  end.

(** [action instanceof Promise]. *)
Definition instanceof_Promise (a : action) : bool :=
  match a with
  | APromise _ => true
  | _ => false
  end.

(** [isAsyncFunction(func)] of [Utils.js]. *)
Definition isAsyncFunction (a : action) : bool :=
  negb (action_nullish a)
  && ((match toStringTag a with
       | Some tag => (tag =? "AsyncFunction")%string
       | None => false
       end)
      || instanceof_AsyncFunction a).

(** What [await action()] waits for; calling what is not callable throws. *)
Definition call_action (a : action) : run :=
  match a with
  | AAsyncFunction r => r
  | ATagged (Some r) => r
  | _ => {| elapsed := 0;
            result := Rejects (TypeError "action is not a function") |}
  end.

(** [(o != null && String(o)) || ...]: the left operand when it is
    truthy. *)
Definition override (o : value) : option string :=
  if nullish o then None
  else if (to_string o =? "")%string then None
       else Some (to_string o).

(** [spinner.lastResult = await action(); spinner.succeed(... ||
    spinner.lastResult)], from the value awaited. *)
Definition on_awaited (e : env) (success v : value) (s : t)
  : completion unit * t :=
  let s1 := set_lastResult v s in
  match override success with
  | Some m => succeed e (VStr m) s1
  | None => succeed e (lastResult s1) s1
  end.

(** [result => spinner.succeed(... || (spinner.lastResult = result))]. *)
Definition on_fulfilled (e : env) (success v : value) (s : t)
  : completion unit * t :=
  match override success with
  | Some m => succeed e (VStr m) s
  | None => succeed e v (set_lastResult v s)
  end.

(** [err => spinner.fail(... || (spinner.lastResult = err).message)], the
    body of the [catch] block and of the [.catch] callback. *)
Definition on_rejected (e : env) (failure err : value) (s : t)
  : completion unit * t :=
  match override failure with
  | Some m => fail e (VStr m) s
  | None =>
      let s1 := set_lastResult err s in
      match get err "message" with
      | None => (Throw (TypeError "Cannot read properties of undefined"), s1)
      | Some m => fail e m s1
      end
  end.

(** The fate of the promise returned by [promise(...)]. *)
Inductive wrapped : Type :=
| Rejected (err : value) (sp : option t)
    (* rejected with [err]; the spinner, if one was made *)
| Resolved (returned : t) (later : option (completion unit * t))
    (* resolved with the spinner, in state [returned] at that moment;
       [later] is the spinner once the action has settled and its
       continuation has run ([None]: it never settles), with [Throw] for an
       error nobody catches *)
| Pending (sp : t)
    (* never settled: the awaited action never settles *)
| Crashed (err : value) (sp : t).
    (* an uncaught exception in a timer callback during the await *)

(** The continuation chain [action.then(...).catch(...)], run when the
    action settles. *)
Definition continuation (e : env) (success failure : value) (r : run)
    (s : t) : option (completion unit * t) :=
  match result r with
  | Never => None
  | Resolves v =>
      match ticks e (elapsed r) s with
      | (Throw err, s1) => Some (Throw err, s1)
      | (Normal _, s1) =>
          match on_fulfilled e success v s1 with
          | (Normal _, s2) => Some (Normal tt, s2)
          | (Throw err, s2) => Some (on_rejected e failure err s2)
          end
      end
  | Rejects err =>
      match ticks e (elapsed r) s with
      | (Throw err', s1) => Some (Throw err', s1)
      | (Normal _, s1) => Some (on_rejected e failure err s1)
      end
  end.

(** The [try { ... await action() ... } catch (err) { ... }] of the
    async-function branch, up to [return spinner]. *)
Definition awaited (e : env) (success failure : value) (r : run) (s : t)
  : wrapped :=
  match result r with
  | Never => Pending s
  | Resolves v =>
      match ticks e (elapsed r) s with
      | (Throw err, s1) => Crashed err s1
      | (Normal _, s1) =>
          match on_awaited e success v s1 with
          | (Normal _, s2) => Resolved s2 (Some (Normal tt, s2))
          | (Throw err, s2) =>
              match on_rejected e failure err s2 with
              | (Normal _, s3) => Resolved s3 (Some (Normal tt, s3))
              | (Throw err', s3) => Rejected err' (Some s3)
              end
          end
      end
  | Rejects err =>
      match ticks e (elapsed r) s with
      | (Throw err', s1) => Crashed err' s1
      | (Normal _, s1) =>
          match on_rejected e failure err s1 with
          | (Normal _, s2) => Resolved s2 (Some (Normal tt, s2))
          | (Throw err', s2) => Rejected err' (Some s2)
          end
      end
  end.

(** The body of [promise(action, options, {success, failure})]. *)
Definition promise_body (e : env) (a : action) (arg : ctor_arg)
    (success failure : value) : wrapped :=
  if negb (instanceof_Promise a || isAsyncFunction a)
  then Rejected
         (TypeError "Parameter `action` must be a Promise or an async function")
         None
  else
    match new e arg with
    | Throw err => Rejected err None
    | Normal s0 =>
        match start e None s0 with
        | (Throw err, s1) => Rejected err (Some s1)
        | (Normal _, s1) =>
            if isAsyncFunction a
            then awaited e success failure (call_action a) s1
            else
              match a with
              | APromise r =>
                  Resolved s1 (continuation e success failure r s1)
              | _ => Resolved s1 None
              end
        end
    end.

(** [promise] is declared [async]: a call never throws to the caller, it
    returns a promise, and a [throw] in the body rejects that promise. *)
Definition promise (e : env) (a : action) (arg : ctor_arg)
    (success failure : value) : completion wrapped :=
  Normal (promise_body e a arg success failure).

(** *** Operations on a running spinner, and what stands on the screen *)

Inductive op : Type :=
| OpSetText (v : string)
| OpRender
| OpClear
| OpStart (txt : option string)
| OpStop.

(** The spinner after an operation, whether it returned or threw. *)
Definition step (e : env) (o : op) (s : t) : t :=
  match o with
  | OpSetText v => set_text e v s
  | OpRender => snd (render e s)
  | OpClear => clear s
  | OpStart txt => snd (start e txt s)
  | OpStop => stop s
  end.

Definition steps (e : env) (ops : list op) (s : t) : t :=
  fold_left (fun s o => step e o s) ops s.

(** Rows of spinner output standing on a terminal [cols] wide: a write adds
    the rows of what it writes, each [clearLine] erases one. *)
Definition standing_step (e : env) (cols : Z) (n : Z) (ev : event) : Z :=
  match ev with
  | Write str => n + count_rows e cols str
  | ClearLine => Z.max 0 (n - 1)
  | _ => n
  end.

Definition standing_rows (e : env) (cols : Z) (evs : list event) : Z :=
  fold_left (standing_step e cols) evs 0.

(** Number of [clearLine] calls among [evs]. *)
Definition erasure_step (n : Z) (ev : event) : Z :=
  match ev with
  | ClearLine => n + 1
  | _ => n
  end.

Definition erasures (evs : list event) : Z := fold_left erasure_step evs 0.

(** The stream calls made from state [s] to state [s']. *)
Definition issued (s s' : t) : list event :=
  skipn (List.length (output (stream s))) (output (stream s')).

(** The last string written to the stream. *)
Fixpoint last_write (evs : list event) : option string :=
  match evs with
  | [] => None
  | ev :: rest =>
      match last_write rest with
      | Some w => Some w
      | None => match ev with Write w => Some w | _ => None end
      end
  end.

(** The stream calls of the loop of [clear()], and a spinner after some
    stream calls. *)
Fixpoint clear_events (i : Z) (n : nat) : list event :=
  match n with
  | O => []
  | S n' =>
      (if i >? 0 then [MoveCursor 0 (-1)] else [])
        ++ [ClearLine; CursorTo 0] ++ clear_events (i + 1) n'
  end.

Definition emits (evs : list event) (s : t) : t :=
  {| spinner := spinner s; color_ := color_ s; hideCursor := hideCursor s;
     interval := interval s;
     stream := {| isTTY := isTTY (stream s); columns := columns (stream s);
                  output := output (stream s) ++ evs |};
     id := id s; frameIndex := frameIndex s; isEnabled := isEnabled s;
     lastResult := lastResult s; text := text s; lineCount := lineCount s;
     linesToClear := linesToClear s |}.

(** The link between a spinner [s] and the terminal it animates, since its
    state [s0] at construction: the spinner is enabled on a terminal of
    unchanged width, [linesToClear] is the number of its rows that stand on
    the screen, the cached row count is that of the current text, and the
    frame index is inside the frame list. *)
Definition tracks_screen (e : env) (s0 s : t) : Prop :=
  isEnabled s = true /\
  isTTY (stream s) = true /\
  columns (stream s) = columns (stream s0) /\
  spinner s = spinner s0 /\
  color_ s = color_ s0 /\
  lineCount s = count_rows e (columns_or_80 (stream s0)) ("--" ++ text s) /\
  (exists i fs, frameIndex s = Num i /\ frames (spinner s0) = Some fs /\
                0 <= i < Z.of_nat (List.length fs)) /\
  exists evs,
    output (stream s) = (output (stream s0) ++ evs)%list /\
    linesToClear s = standing_rows e (columns_or_80 (stream s0)) evs.

(** *** Notions used to state the properties *)

(** The spinner once the action has settled and every continuation has
    returned. *)
Definition settled (w : wrapped) : option t :=
  match w with
  | Resolved _ (Some (Normal _, s)) => Some s
  | _ => None
  end.

(** The text last persisted on the stream of the spinner in [w]. *)
Definition persisted (w : wrapped) : option string :=
  match settled w with
  | Some s => last_write (output (stream s))
  | None => None
  end.

(** A rejection that the handler can pass on to [fail]: a failure override
    is given, or the reason has a [message] to read that is not an
    object. *)
Definition plain_failure (failure err : value) : Prop :=
  override failure <> None \/
  exists m, get err "message" = Some m /\ forall props, m <> VObj props.

(** [frame()] can run: there are frames and the colour can be applied. *)
Definition can_frame (e : env) (s : t) : Prop :=
  frames (spinner s) <> None /\ frame_painter e (color_ s) <> None.

(** Every glyph of the spinner, once painted and followed by the separator,
    takes on a terminal [cols] wide the rows that the text setter counts for
    its two-column prefix. *)
Definition glyph_fits (e : env) (cols : Z) (s : t) : Prop :=
  exists fs paint,
    frames (spinner s) = Some fs /\ fs <> [] /\
    frame_painter e (color_ s) = Some paint /\
    forall g txt, In g fs ->
      count_rows e cols (paint g ++ " " ++ txt)
      = count_rows e cols ("--" ++ txt).

Definition width (l : string) : Z := Z.of_nat (String.length l).

(** Rows of a text of single-width characters given by its lines, as the
    specification words it: every line counts [ceil((w + 2) / c)]. *)
Definition rows_every_line_prefixed (c : Z) (lines : list string) : Z :=
  fold_right (fun l acc => ceil_div (width l + 2) c + acc) 0 lines.

(** The same with the prefix on the first line only, and at least one row
    for each line. *)
Definition rows_first_line_prefixed (c : Z) (lines : list string) : Z :=
  match lines with
  | [] => 0
  | l1 :: ls =>
      ceil_div (width l1 + 2) c
      + fold_right (fun l acc => Z.max 1 (ceil_div (width l) c) + acc) 0 ls
  end.

End Spinner.

(* ===================================================================== *)
(** ** Concrete surroundings for the examples *)
(* ===================================================================== *)

Module Demo.

Import Spinner.

(** A theme that leaves text unstyled, as [kleur] does when colours are
    off. *)
Definition mono : Select.theme :=
  {| Select.symbol := fun d a => if a then "x" else if d then "v" else "?";
     Select.delimiter := fun _ => ">";
     Select.pointer := ">";
     Select.bold := fun x => x;
     Select.yellow := fun x => x;
     Select.gray := fun x => x;
     Select.cyan := fun x => x;
     Select.bold_gray := fun x => x;
     Select.gray_underline := to_string;
     Select.strikethrough_gray := to_string;
     Select.cyan_underline := to_string |}.

(** The choice list of the scenario of the specification:
    [["a", "b", {title: "c", value: 3, disabled: true}]]. *)
Definition abc : list value :=
  [VStr "a"; VStr "b";
   VObj [("title", VStr "c"); ("value", VNum 3); ("disabled", VBool true)]].

Definition abc_opts : Select.opts :=
  {| Select.o_message := "Pick"; Select.o_hint := None;
     Select.o_warn := None; Select.o_initial := None;
     Select.o_choices := abc |}.

Definition choice_a : Select.choice :=
  {| Select.title := VStr "a"; Select.cvalue := VStr "a";
     Select.selected := VUndef; Select.disabled := VUndef |}.
Definition choice_b : Select.choice :=
  {| Select.title := VStr "b"; Select.cvalue := VStr "b";
     Select.selected := VUndef; Select.disabled := VUndef |}.
Definition choice_c : Select.choice :=
  {| Select.title := VStr "c"; Select.cvalue := VNum 3;
     Select.selected := VUndef; Select.disabled := VBool true |}.

(** A prompt over that list, already drawn once, with the cursor (and the
    value that goes with it) at [cur]. *)
Definition prompt_at (cur : Z) : Select.t :=
  {| Select.msg := "Pick";
     Select.hint := "- Use arrow-keys. Return to submit.";
     Select.warn := "- This option is disabled";
     Select.cursor := cur;
     Select.values := [choice_a; choice_b; choice_c];
     Select.value_ := match Js.index [choice_a; choice_b; choice_c] cur with
                      | Some c => Select.cvalue c
                      | None => VUndef
                      end;
     Select.done := false; Select.aborted := false;
     Select.closed := false; Select.firstRender := false;
     Select.out := [] |}.

(** An interactive terminal [cols] wide, and a pipe. *)
Definition tty (cols : Z) : stream_t :=
  {| isTTY := true; columns := Some cols; output := [] |}.
Definition pipe : stream_t :=
  {| isTTY := false; columns := None; output := [] |}.

(** The [line] frame set of [cli-spinners]. *)
Definition line : spinner_def :=
  {| frames := Some ["-"; "\"; "|"; "/"]; sp_interval := Some 130 |}.

Definition known_colour (name : string) : bool :=
  existsb (String.eqb name) ["cyan"; "green"; "red"; "blue"; "yellow"].

(** A process writing to [st] with colours off ([chalk] then returns its
    argument), ASCII symbols, no escape sequences to strip and one column
    per character. *)
Definition plain (st : stream_t) : env :=
  {| platform_win32 := false;
     env_CI := false;
     stderr := st;
     cliSpinners := fun name =>
                      if (name =? "line")%string then Some line else None;
     cli_line := line;
     cli_dots := line;
     chalk := fun name => if known_colour name then Some (fun x => x)
                          else None;
     chalk_cyan := fun x => x;
     chalk_green := fun x => x;
     chalk_red_bold := fun x => x;
     chalk_blue := fun x => x;
     chalk_yellow := fun x => x;
     sym_success := "[ok]";
     sym_error := "[error]";
     sym_warning := "[warn]";
     sym_info := "[info]";
     stripAnsi := fun x => x;
     wcwidth := fun x => Z.of_nat (String.length x) |}.

(** Options naming only a text, a stream and the [isEnabled] flag. *)
Definition opts_on (st : stream_t) (enabled : option bool) (txt : string)
  : options :=
  {| o_text := Some txt; o_spinner := SpNone; o_color := None;
     o_hideCursor := None; o_interval := None; o_stream := Some st;
     o_isEnabled := enabled |}.

(** Options with a custom frame set. *)
Definition opts_custom (d : spinner_def) : options :=
  {| o_text := None; o_spinner := SpObject d; o_color := None;
     o_hideCursor := None; o_interval := None; o_stream := None;
     o_isEnabled := None |}.

(** The spinner that [new Spinner({stream: st, isEnabled: enabled, text:
    txt})] builds in the process [plain st]. *)
Definition fresh (st : stream_t) (enabled : bool) (txt : string) : t :=
  {| spinner := line; color_ := CFun (fun x => x); hideCursor := true;
     interval := 130; stream := st; id := None; frameIndex := Num 0;
     isEnabled := enabled; lastResult := VNull; text := txt;
     lineCount := count_rows (plain st) (columns_or_80 st) ("--" ++ txt);
     linesToClear := 0 |}.

(** The options of the wrapper in the examples. *)
Definition working : options := opts_on (tty 80) (Some true) "Working".

(** Enabled on a terminal eighty columns wide, and forced on on a pipe. *)
Definition loading : t := fresh (tty 80) true "Loading".
Definition forced : t := fresh pipe true "Loading".

(** A session of a caller: start, change the text, a timer firing, stop,
    start again with another text. *)
Definition session : list op :=
  [OpStart None; OpSetText "Cloning"; OpRender; OpStop;
   OpStart (Some "Copying")].

(** A custom spinner with a glyph four columns wide, on a terminal five
    columns wide. *)
Definition wide_opts : options :=
  {| o_text := Some "ab";
     o_spinner := SpObject {| frames := Some ["[==]"]; sp_interval := None |};
     o_color := None; o_hideCursor := None; o_interval := None;
     o_stream := Some (tty 5); o_isEnabled := None |}.

Definition wide : t :=
  {| spinner := {| frames := Some ["[==]"]; sp_interval := None |};
     color_ := CFun (fun x => x); hideCursor := true;
     interval := 100; stream := tty 5; id := None; frameIndex := Num 0;
     isEnabled := true; lastResult := VNull; text := "ab";
     lineCount := 1; linesToClear := 0 |}.

End Demo.

(* ===================================================================== *)
(** ** Sequences of calls *)
(* ===================================================================== *)

(** Navigation keys of the select prompt, pressed one after the other. *)
Module Keys.

Import Select.

Inductive key : Type :=
| KUp
| KDown
| KNext
| KLast.

Definition press (th : theme) (k : key) : t -> completion unit * t :=
  match k with
  | KUp => up th
  | KDown => down th
  | KNext => next th
  | KLast => last th
  end.

(** The keys in order; a call that throws ends the sequence. *)
Fixpoint presses (th : theme) (ks : list key) (p : t) : completion unit * t :=
  match ks with
  | [] => (Normal tt, p)
  | k :: rest =>
      match press th k p with
      | (Normal _, p1) => presses th rest p1
      | (Throw e, p1) => (Throw e, p1)
      end
  end.

(** The cursor is on a choice. *)
Definition on_choice (p : t) : Prop :=
  0 <= cursor p < Z.of_nat (List.length (values p)).

(** The value shown to the caller is the value of the choice under the
    cursor. *)
Definition in_sync (p : t) : Prop :=
  exists c, selection p = Some c /\ value_ p = cvalue c.

End Keys.

(** Calls on a spinner, the terminal states included. *)
Module Calls.

Import Spinner.

(** [warn(arg)] and [info(arg)] on a string or a data value. *)
Definition warn (e : env) (arg : value) : t -> completion unit * t :=
  warn_opts e (persist_arg arg).
Definition info (e : env) (arg : value) : t -> completion unit * t :=
  info_opts e (persist_arg arg).

Inductive call : Type :=
| Do (o : op)
| Succeed (arg : value)
| Fail (arg : value)
| Warn (arg : value)
| Info (arg : value)
| Persist (o : popts).

(** The spinner after a call, whether it returned or threw. *)
Definition perform (e : env) (c : call) (s : t) : t :=
  match c with
  | Do o => step e o s
  | Succeed arg => snd (succeed e arg s)
  | Fail arg => snd (fail e arg s)
  | Warn arg => snd (warn e arg s)
  | Info arg => snd (info e arg s)
  | Persist o => snd (stopAndPersist e o s)
  end.

Definition performs (e : env) (cs : list call) (s : t) : t :=
  fold_left (fun s c => perform e c s) cs s.

Definition is_write (ev : event) : bool :=
  match ev with
  | Write _ => true
  | _ => false
  end.

(** A timer exists only on an enabled spinner. *)
Definition timer_ok (s : t) : Prop := isEnabled s = true \/ id s = None.


End Calls.

(* ===================================================================== *)
(** ** The tag chooser of the merge script *)
(* ===================================================================== *)

(** The loop of the main script that pages through the tags of the
    repository with a select prompt (the script follows the Spinner class in
    [src/lib/Spinner.js]). *)
Module Pager.

Definition PAGE_SIZE : Z := 10.

Definition PREV : value :=
  VObj [("title", VStr "Previous page"); ("value", VNum (-2))].
Definition NEXT : value :=
  VObj [("title", VStr "Next page"); ("value", VNum (-1))].

(** [['master', 'dev'].concat(stdout.split('\n'))]. *)
Definition tags_of (stdout : string) : list string :=
  (["master"; "dev"] ++ Spinner.split_lines stdout)%list.

(** [{title, value}]. *)
Definition entry (title : string) (idx : Z) : value :=
  VObj [("title", VStr title); ("value", VNum idx)].

(** [tags.map((title, value) => ({title, value}))], from index [i]. *)
Fixpoint entries_from (i : Z) (tags : list string) : list value :=
  match tags with
  | [] => []
  | t :: rest => entry t i :: entries_from (i + 1) rest
  end.

Definition entries (tags : list string) : list value := entries_from 0 tags.

(** [arr.slice(start, end)]: a negative index counts from the end. *)
Definition slice {A : Type} (arr : list A) (first last : Z) : list A :=
  let len := Z.of_nat (List.length arr) in
  let rel k := if k <? 0 then Z.max (len + k) 0 else Z.min k len in
  firstn (Z.to_nat (rel last - rel first)) (skipn (Z.to_nat (rel first)) arr).

(** [endPos] after [if ((endPos = offset + PAGE_SIZE) >= tags.length)
    endPos = tags.length - 1]. *)
Definition end_pos (len offset : Z) : Z :=
  if offset + PAGE_SIZE >=? len then len - 1 else offset + PAGE_SIZE.

(** [pageChoices] as handed to the prompt. *)
Definition page (tags : list string) (offset : Z) : list value :=
  let len := Z.of_nat (List.length tags) in
  let endPos := end_pos len offset in
  let body := slice (entries tags) offset endPos in
  let with_prev := if offset >? 0 then PREV :: body else body in
  if endPos <? len - 1 then (with_prev ++ [NEXT])%list else with_prev.

(** [initial: selected < pageChoices.length ? selected :
    pageChoices.length - 1]. *)
Definition initial (selected : Z) (pageChoices : list value) : Z :=
  if selected <? Z.of_nat (List.length pageChoices) then selected
  else Z.of_nat (List.length pageChoices) - 1.

(** [a === b] on the values compared here; two objects are never the same
    object. *)
Definition strict_eq (a b : value) : bool :=
  match a, b with
  | VUndef, VUndef => true
  | VNull, VNull => true
  | VBool x, VBool y => Bool.eqb x y
  | VNum x, VNum y => x =? y
  | VStr x, VStr y => (x =? y)%string
  | _, _ => false
  end.

(** [c.value] of a page entry. *)
Definition value_of (c : value) : value :=
  match get c "value" with
  | Some v => v
  | None => VUndef
  end.

(** The test of the [while]: [!choice || choice === PREV.value || choice
    === NEXT.value]. *)
Definition continues (choice : value) : bool :=
  negb (truthy choice)
  || strict_eq choice (value_of PREV)
  || strict_eq choice (value_of NEXT).

(** [pageChoices.findIndex(c => c.value === choice)], from index [i]. *)
Fixpoint findIndex_from (i : Z) (choice : value) (cs : list value) : Z :=
  match cs with
  | [] => -1
  | c :: rest =>
      if strict_eq (value_of c) choice then i
      else findIndex_from (i + 1) choice rest
  end.

(** The variables the loop carries from one prompt to the next. *)
Record state : Type := {
  offset : Z;
  selected : Z
}.

Definition start : state := {| offset := 0; selected := 0 |}.

(** The end of the loop body, once the prompt has answered [choice]. *)
Definition turn (tags : list string) (s : state) (choice : value) : state :=
  {| offset := if strict_eq choice (value_of PREV) then offset s - PAGE_SIZE
               else if strict_eq choice (value_of NEXT)
                    then offset s + PAGE_SIZE
                    else offset s;
     selected := findIndex_from 0 choice (page tags (offset s)) |}.

(** The options of the select prompt of one round. *)
Definition select_opts (tags : list string) (s : state) : Select.opts :=
  {| Select.o_message := "Choose a tag/version";
     Select.o_hint := None;
     Select.o_warn := None;
     Select.o_initial := Some (initial (selected s) (page tags (offset s)));
     Select.o_choices := page tags (offset s) |}.

(** What the loop can reach: the offset is a multiple of the page size
    below the last index, and the remembered position is not negative. *)
Definition reachable (tags : list string) (s : state) : Prop :=
  0 <= offset s < Z.of_nat (List.length tags) - 1 /\
  (offset s) mod PAGE_SIZE = 0 /\
  0 <= selected s.

(** [tag.replace(/\+|_plus_/g, 'b')]: [skip] characters of a match are
    still to be dropped. *)
Fixpoint clean_from (skip : nat) (tag : string) : string :=
  match tag with
  | EmptyString => EmptyString
  | String c rest =>
      match skip with
      | S k => clean_from k rest
      | O =>
          if Ascii.eqb c "+" then String "b" (clean_from 0 rest)
          else if String.prefix "_plus_" tag
               then String "b" (clean_from 5 rest)
               else String c (clean_from 0 rest)
      end
  end.

Definition clean_tag (tag : string) : string := clean_from 0 tag.

(** [str] has the character [c]. *)
Fixpoint has_char (c : ascii) (str : string) : bool :=
  match str with
  | EmptyString => false
  | String d rest => Ascii.eqb c d || has_char c rest
  end.

(** Some suffix of [str] starts with [pat]. *)
Fixpoint occurs (pat str : string) : bool :=
  String.prefix pat str
  || match str with
     | EmptyString => false
     | String _ rest => occurs pat rest
     end.

End Pager.

(* ===================================================================== *)
(** ** More concrete surroundings *)
(* ===================================================================== *)

Module Samples.

Import Spinner.

(** Twenty-three tags of a repository, newest first, after the two
    branches. *)
Definition tags : list string :=
  Pager.tags_of
    (String.concat nl
       ["4.1.0+200225"; "4.0.2"; "4.0.1"; "4.0.0"; "3.22.0_plus_200130";
        "3.21.6"; "3.21.5"; "3.21.4"; "3.21.3"; "3.21.2"; "3.21.1";
        "3.21.0"; "3.20.2"; "3.20.1"; "3.20.0"; "3.19.3"; "3.19.2";
        "3.19.1"; "3.19.0"; "3.18.0"; "3.17.18"; "3.17.17"; "3.17.16"]).

(** A spinner in the middle of its animation on a terminal ten columns
    wide, one frame of three rows on screen. *)
Definition spinning : t :=
  {| spinner := Demo.line; color_ := CFun (fun x => x); hideCursor := true;
     interval := 130; stream := Demo.tty 10; id := Some 130;
     frameIndex := Num 2; isEnabled := true; lastResult := VNull;
     text := "Cloning git repository";
     lineCount := 3; linesToClear := 3 |}.

(** A spinner whose colour is a name that [chalk] does not know. *)
Definition miscoloured : t :=
  {| spinner := Demo.line; color_ := CVal (VStr "mauve"); hideCursor := true;
     interval := 130; stream := Demo.tty 80; id := None;
     frameIndex := Num 0; isEnabled := true; lastResult := VNull;
     text := "Loading"; lineCount := 1; linesToClear := 0 |}.

(** Options naming a custom spinner without frames. *)
Definition frameless : options :=
  Demo.opts_custom {| frames := None; sp_interval := Some 80 |}.

(** The choice list of the scenario with the cursor first on the entry of
    index [i], and the prompt with the cursor on its third entry. *)
Definition abc_at (i : Z) : Select.opts :=
  {| Select.o_message := "Pick"; Select.o_hint := None;
     Select.o_warn := None; Select.o_initial := Some i;
     Select.o_choices := Demo.abc |}.

Definition picked : Select.t :=
  match Select.new Demo.mono (abc_at 2) with
  | Normal p => p
  | Throw _ => Demo.prompt_at 2
  end.

(** Options naming a colour that [chalk] does not know; [miscoloured] is
    the spinner built from them. *)
Definition mauve : options :=
  {| o_text := Some "Loading"; o_spinner := SpNone;
     o_color := Some (CVal (VStr "mauve")); o_hideCursor := None;
     o_interval := None; o_stream := Some (Demo.tty 80);
     o_isEnabled := None |}.

(** A caller's sequence of calls on a disabled spinner. *)
Definition calls : list Calls.call :=
  [Calls.Do (OpStart None); Calls.Do OpRender;
   Calls.Do (OpSetText "Copying"); Calls.Warn (VStr "Slow");
   Calls.Succeed (VStr "Copied"); Calls.Do OpStop].


End Samples.

(* ===================================================================== *)
(** ** Array indexing *)
(* ===================================================================== *)

Module JsFacts.

Lemma index_in_range {A : Type} (l : list A) (i : Z) :
  0 <= i < Z.of_nat (List.length l) -> exists x, index l i = Some x.
Proof.
  intros [Hlo Hhi]. unfold index.
  destruct (Z.ltb_spec i 0) as [Hneg|_]; [lia|].
  destruct (nth_error l (Z.to_nat i)) as [x|] eqn:Hnth.
  - exists x. reflexivity.
  - apply nth_error_None in Hnth. lia.
Qed.

End JsFacts.

(* ===================================================================== *)
(** ** Properties of SelectPrompt *)
(* ===================================================================== *)

Module SelectFacts.

Import Select.
Local Open Scope list_scope.

Section WithTheme.
Variable th : theme.

Lemma count_app (f : event -> bool) (l1 l2 : list event) :
  count f (l1 ++ l2) = (count f l1 + count f l2)%nat.
Proof.
  unfold count. rewrite filter_app, length_app. reflexivity.
Qed.

Lemma count_cons (f : event -> bool) (ev : event) (l : list event) :
  count f (ev :: l) = ((if f ev then 1 else 0) + count f l)%nat.
Proof.
  unfold count. simpl. destruct (f ev); reflexivity.
Qed.

Lemma count_draw (f : event -> bool) (evs : list event) :
  (forall ev, is_draw ev = true -> f ev = false) ->
  Forall (fun ev => is_draw ev = true) evs ->
  count f evs = 0%nat.
Proof.
  intros Hf Hall. unfold count.
  induction Hall as [|ev evs Hev _ IH]; simpl.
  - reflexivity.
  - rewrite (Hf ev Hev). exact IH.
Qed.

(** What [render] does on a prompt whose cursor is on a choice: it returns,
    touches nothing but the first-render flag, and only draws. *)
Lemma render_draws (p : t) (sel : choice) :
  selection p = Some sel ->
  exists p' evs,
    render th p = (Normal tt, p') /\
    cursor p' = cursor p /\ values p' = values p /\
    value_ p' = value_ p /\ done p' = done p /\
    aborted p' = aborted p /\ closed p' = closed p /\
    out p' = out p ++ evs /\
    Forall (fun ev => is_draw ev = true) evs.
Proof.
  intros Hsel. unfold render.
  destruct (closed p) eqn:Hc.
  - exists p, []. rewrite app_nil_r. repeat split; auto.
  - destruct (firstRender p) eqn:Hf;
      unfold selection in *; simpl; rewrite Hsel; simpl;
      destruct (done p) eqn:Hd; simpl;
      eexists; eexists; (split; [reflexivity|]); simpl;
      rewrite <- ?app_assoc; simpl;
      repeat split; auto.
Qed.

(** C1. [submit()] on a disabled selection rings the bell once and changes
    nothing else, so [done] keeps its value; on an enabled selection it
    returns with [done] true and [aborted] false, having notified the
    listeners once and closed the prompt once, without a bell. *)
Theorem submit_disabled_bells_enabled_finishes (p : t) (sel : choice) :
  selection p = Some sel ->
  (truthy (disabled sel) = true ->
     submit th p = (Normal tt, emit EBell p) /\
     done (emit EBell p) = done p /\
     out (emit EBell p) = out p ++ [EBell]) /\
  (truthy (disabled sel) = false ->
     exists p' evs,
       submit th p = (Normal tt, p') /\
       done p' = true /\ aborted p' = false /\ closed p' = true /\
       cursor p' = cursor p /\ value_ p' = value_ p /\
       out p' = out p ++ evs /\
       count is_close evs = 1%nat /\
       count is_fire evs = 1%nat /\
       count is_bell evs = 0%nat).
Proof.
  intros Hsel. split; intros Hdis.
  - unfold submit, bell. rewrite Hsel, Hdis. simpl. auto.
  - unfold submit. rewrite Hsel, Hdis. simpl.
    unfold andThen at 1. unfold lift at 1.
    set (p1 := fire (set_done true false p)).
    assert (Hsel1 : selection p1 = Some sel) by exact Hsel.
    destruct (render_draws p1 sel Hsel1)
      as (p2 & evs & Hr & Hcur & Hvals & Hval & Hdone & Hab & Hcl & Hout & Hdraw).
    unfold andThen. rewrite Hr. unfold lift.
    eexists. exists ([EFire (value_ p) false] ++ evs
                     ++ [EWrite (String (ascii_of_nat 10) ""); EClose]).
    split; [reflexivity|].
    unfold close. simpl. rewrite Hdone, Hab, Hcur, Hval, Hout. simpl.
    repeat split; auto.
    + rewrite <- !app_assoc. reflexivity.
    + rewrite count_cons, count_app, (count_draw is_close evs); auto.
      intros [] ?; simpl in *; congruence.
    + rewrite count_cons, count_app, (count_draw is_fire evs); auto.
      intros [] ?; simpl in *; congruence.
    + rewrite count_cons, count_app, (count_draw is_bell evs); auto.
      intros [] ?; simpl in *; congruence.
Qed.

(** C8. With the cursor on one of the choices, [up()] at index 0 and
    [down()] at the last index ring the bell once and leave the prompt as it
    was, while [next()] moves the cursor to [(cursor + 1) mod len], from the
    last index back to 0, without a bell. *)
Theorem up_down_stop_next_wraps (p : t) :
  1 <= Z.of_nat (List.length (values p)) ->
  0 <= cursor p < Z.of_nat (List.length (values p)) ->
  (cursor p = 0 ->
     up th p = (Normal tt, emit EBell p) /\
     cursor (emit EBell p) = cursor p /\
     out (emit EBell p) = out p ++ [EBell]) /\
  (cursor p = Z.of_nat (List.length (values p)) - 1 ->
     down th p = (Normal tt, emit EBell p)) /\
  (exists p' evs,
     next th p = (Normal tt, p') /\
     cursor p' = (cursor p + 1) mod Z.of_nat (List.length (values p)) /\
     (cursor p = Z.of_nat (List.length (values p)) - 1 -> cursor p' = 0) /\
     out p' = out p ++ evs /\
     count is_bell evs = 0%nat).
Proof.
  intros Hlen Hcur. split; [|split].
  - intros H0. unfold up, bell. rewrite H0. simpl. auto.
  - intros Hlast. unfold down, bell. rewrite Hlast, Z.eqb_refl. reflexivity.
  - set (len := Z.of_nat (List.length (values p))) in *.
    set (n := (cursor p + 1) mod len).
    assert (Hrem : Z.rem (cursor p + 1) len = n)
      by (apply Z.rem_mod_nonneg; lia).
    assert (Hn : 0 <= n < len) by (apply Z.mod_pos_bound; lia).
    destruct (JsFacts.index_in_range (values p) n Hn) as [c Hc].
    unfold next, andThen, moveCursor. fold len. rewrite Hrem. simpl.
    rewrite Hc.
    set (p1 := fire (set_value (cvalue c) (set_cursor n p))).
    assert (Hsel1 : selection p1 = Some c) by exact Hc.
    destruct (render_draws p1 c Hsel1)
      as (p2 & evs & Hr & Hcur2 & _ & _ & _ & _ & _ & Hout & Hdraw).
    rewrite Hr. exists p2, ([EFire (cvalue c) (aborted p)] ++ evs).
    split; [reflexivity|]. rewrite Hcur2, Hout. simpl.
    repeat split.
    + intros Hlast. unfold n. rewrite Hlast.
      replace (len - 1 + 1) with len by lia. apply Z.mod_same. lia.
    + rewrite <- app_assoc. reflexivity.
    + rewrite count_cons, (count_draw is_bell evs); auto.
      intros [] ?; simpl in *; congruence.
Qed.

(** For a descriptor that is an object, the value read by the constructor
    is the value of the normalized choice. *)
Lemma object_descriptor_value (props : list (string * value)) :
  get (VObj props) "value" = Some (lookup "value" props) /\
  exists c, normalize (VObj props) = Normal c /\
            cvalue c = lookup "value" props.
Proof.
  split; [reflexivity|]. unfold normalize. simpl.
  eexists. split; reflexivity.
Qed.

End WithTheme.

(** C1, on the choice list of the scenario: the cursor on the disabled
    third entry, and on the second. *)
Lemma submit_disabled_bells_enabled_finishes_witness :
  (submit Demo.mono (Demo.prompt_at 2)
     = (Normal tt, emit EBell (Demo.prompt_at 2))) /\
  (exists p' evs,
     submit Demo.mono (Demo.prompt_at 1) = (Normal tt, p') /\
     done p' = true /\ aborted p' = false /\ closed p' = true /\
     cursor p' = cursor (Demo.prompt_at 1) /\
     value_ p' = value_ (Demo.prompt_at 1) /\
     out p' = out (Demo.prompt_at 1) ++ evs /\
     count is_close evs = 1%nat /\
     count is_fire evs = 1%nat /\
     count is_bell evs = 0%nat).
Proof.
  split.
  - destruct (submit_disabled_bells_enabled_finishes Demo.mono
                (Demo.prompt_at 2) Demo.choice_c eq_refl) as [H _].
    apply H. reflexivity.
  - destruct (submit_disabled_bells_enabled_finishes Demo.mono
                (Demo.prompt_at 1) Demo.choice_b eq_refl) as [_ H].
    apply H. reflexivity.
Defined.

(** C8, on the choice list of the scenario, from the last index. *)
Lemma up_down_stop_next_wraps_witness :
  down Demo.mono (Demo.prompt_at 2)
    = (Normal tt, emit EBell (Demo.prompt_at 2)) /\
  exists p' evs,
    next Demo.mono (Demo.prompt_at 2) = (Normal tt, p') /\
    cursor p' = (cursor (Demo.prompt_at 2) + 1)
                  mod Z.of_nat (List.length (values (Demo.prompt_at 2))) /\
    (cursor (Demo.prompt_at 2)
       = Z.of_nat (List.length (values (Demo.prompt_at 2))) - 1 ->
     cursor p' = 0) /\
    out p' = out (Demo.prompt_at 2) ++ evs /\
    count is_bell evs = 0%nat.
Proof.
  assert (H1 : 1 <= Z.of_nat (List.length (values (Demo.prompt_at 2))))
    by (vm_compute; congruence).
  assert (H2 : 0 <= cursor (Demo.prompt_at 2)
               < Z.of_nat (List.length (values (Demo.prompt_at 2))))
    by (vm_compute; split; congruence).
  destruct (up_down_stop_next_wraps Demo.mono (Demo.prompt_at 2) H1 H2)
    as (_ & Hdown & Hnext).
  split.
  - apply Hdown. reflexivity.
  - exact Hnext.
Defined.

(** C2 (the code departs from it). With the bare scalars ["a"] and ["b"] as
    descriptors and the default cursor, construction succeeds and the
    normalized choice under the cursor has the value ["a"], but the
    constructor reads [.value] on the raw descriptor and leaves [value]
    undefined. *)
Lemma bare_scalar_initial_value_undefined :
  exists p,
    new Demo.mono Demo.abc_opts = Normal p /\
    cursor p = 0 /\
    option_map cvalue (selection p) = Some (VStr "a") /\
    value_ p = VUndef.
Proof.
  eexists. split; [vm_compute; reflexivity|].
  vm_compute. repeat split.
Qed.

(** The scenario of the specification: from the top, [down()] twice reaches
    the disabled entry, where [submit()] only rings; [up()] then [submit()]
    finishes with the value ["b"]. *)
Lemma scenario_abc :
  exists p0 p1 p2 p3 p4 p5,
    new Demo.mono Demo.abc_opts = Normal p0 /\
    down Demo.mono p0 = (Normal tt, p1) /\
    down Demo.mono p1 = (Normal tt, p2) /\ cursor p2 = 2 /\
    submit Demo.mono p2 = (Normal tt, p3) /\ done p3 = false /\
    p3 = emit EBell p2 /\
    up Demo.mono p3 = (Normal tt, p4) /\ cursor p4 = 1 /\
    submit Demo.mono p4 = (Normal tt, p5) /\
    done p5 = true /\ aborted p5 = false /\ value_ p5 = VStr "b".
Proof.
  do 6 eexists.
  repeat (split; [vm_compute; reflexivity|]).
  vm_compute; reflexivity.
Qed.

End SelectFacts.

(* ===================================================================== *)
(** ** Properties of Spinner: construction and text measurement *)
(* ===================================================================== *)

Module SpinnerFacts.

Import Spinner.
Local Open Scope list_scope.

(** *** Construction *)

(** C3 (as the code has it). With a custom frame-set object, construction
    throws the configuration error exactly when [frames] is undefined or
    null; any frame list, the empty one too, is accepted, and construction
    writes nothing to the stream. *)
Theorem new_throws_iff_frames_undefined (e : env) (o : options)
    (d : spinner_def) :
  o_spinner o = SpObject d ->
  (frames d = None ->
     new e (ArgOptions o) = Throw (Error "Spinner must define `frames`")) /\
  (forall fs, frames d = Some fs ->
     exists s, new e (ArgOptions o) = Normal s /\
               spinner s = d /\
               output (stream s)
               = output (or_default (o_stream o) (stderr e))).
Proof.
  intros Hsp. unfold new. simpl. rewrite Hsp. simpl. split.
  - intros Hnone. rewrite Hnone. reflexivity.
  - intros fs Hfs. rewrite Hfs. eexists. split; [reflexivity|].
    simpl. destruct (o_stream o); auto.
Qed.

Lemma new_throws_iff_frames_undefined_witness :
  new (Demo.plain (Demo.tty 80))
      (ArgOptions (Demo.opts_custom {| frames := None; sp_interval := None |}))
    = Throw (Error "Spinner must define `frames`") /\
  exists s,
    new (Demo.plain (Demo.tty 80))
        (ArgOptions (Demo.opts_custom Demo.line)) = Normal s /\
    spinner s = Demo.line /\
    output (stream s)
    = output (or_default (o_stream (Demo.opts_custom Demo.line))
                (stderr (Demo.plain (Demo.tty 80)))).
Proof.
  split.
  - apply (new_throws_iff_frames_undefined (Demo.plain (Demo.tty 80))
             (Demo.opts_custom {| frames := None; sp_interval := None |})
             {| frames := None; sp_interval := None |} eq_refl).
    reflexivity.
  - apply (new_throws_iff_frames_undefined (Demo.plain (Demo.tty 80))
             (Demo.opts_custom Demo.line) Demo.line eq_refl)
      with (fs := ["-"; "\"; "|"; "/"]%string).
    reflexivity.
Defined.

(** C3 (as stated, refuted). A custom spinner whose frame list is empty is
    not rejected: the constructor returns a spinner. *)
Lemma empty_frames_accepted :
  exists s,
    new (Demo.plain (Demo.tty 80))
        (ArgOptions
           (Demo.opts_custom {| frames := Some []; sp_interval := None |}))
    = Normal s /\
    frames (spinner s) = Some [].
Proof.
  eexists. split; [vm_compute; reflexivity|]. reflexivity.
Qed.

(** A named or absent spinner resolves to a [cli-spinners] entry, and the
    same test applies to it. *)
Lemma new_returns_iff_frames (e : env) (arg : ctor_arg) :
  let o := match arg with
           | ArgText txt =>
               {| o_text := Some txt; o_spinner := SpNone; o_color := None;
                  o_hideCursor := None; o_interval := None;
                  o_stream := None; o_isEnabled := None |}
           | ArgUndef => no_options
           | ArgOptions o => o
           end in
  (exists s, new e arg = Normal s)
  <-> frames (resolve_spinner e (o_spinner o)) <> None.
Proof.
  intros o. unfold new. fold o.
  destruct (frames (resolve_spinner e (o_spinner o))) as [fs|]; split.
  - congruence.
  - intros _. eexists. reflexivity.
  - intros [s Hs]. congruence.
  - congruence.
Qed.

(** What the constructor leaves in the object. *)
Lemma new_initial_state (e : env) (arg : ctor_arg) (s : t) :
  new e arg = Normal s ->
  id s = None /\ frameIndex s = Num 0 /\ linesToClear s = 0 /\
  lastResult s = VNull /\
  lineCount s = count_rows e (columns_or_80 (stream s)) ("--" ++ text s) /\
  frames (spinner s) <> None.
Proof.
  unfold new.
  destruct (frames (resolve_spinner e _)) as [fs|] eqn:Hfs; [|discriminate].
  intros H. injection H as <-. simpl. rewrite Hfs.
  repeat split; congruence.
Qed.

(** *** Rows of a text *)

(** [ceil_div a b] is the least integer that, multiplied by [b], reaches
    [a]. *)
Lemma ceil_div_spec (a b : Z) :
  0 < b -> b * (ceil_div a b - 1) < a <= b * ceil_div a b.
Proof.
  intros Hb. unfold ceil_div.
  pose proof (Z.div_mod (- a) b ltac:(lia)) as Hdm.
  pose proof (Z.mod_pos_bound (- a) b Hb) as Hmod.
  nia.
Qed.

Lemma ceil_div_pos (a b : Z) : 0 < a -> 0 < b -> 1 <= ceil_div a b.
Proof.
  intros Ha Hb. pose proof (ceil_div_spec a b Hb) as [_ H]. nia.
Qed.

Lemma split_lines_not_nil (str : string) : split_lines str <> [].
Proof.
  destruct str as [|c rest]; simpl; [discriminate|].
  destruct (Ascii.eqb c (ascii_of_nat 10)); [discriminate|].
  destruct (split_lines rest); discriminate.
Qed.

(** Two characters that are not line feeds stay in front of the first
    line. *)
Lemma split_lines_prefix2 (a b : ascii) (str l1 : string) (ls : list string) :
  Ascii.eqb a (ascii_of_nat 10) = false ->
  Ascii.eqb b (ascii_of_nat 10) = false ->
  split_lines str = l1 :: ls ->
  split_lines (String a (String b str)) = String a (String b l1) :: ls.
Proof.
  intros Ha Hb Hs. simpl. rewrite Ha, Hb, Hs. reflexivity.
Qed.

Lemma fold_left_rows (f : string -> Z) (ls : list string) (acc : Z) :
  fold_left (fun count line => count + f line) ls acc
  = acc + fold_right (fun l r => f l + r) 0 ls.
Proof.
  revert acc. induction ls as [|l ls IH]; intros acc; simpl.
  - lia.
  - rewrite IH. lia.
Qed.

(** C4 (as the code has it). On a stream [c > 0] columns wide, setting a
    text without escape sequences whose characters are one column wide
    caches [ceil((w1 + 2) / c)] rows for the first line, of [w1] characters,
    plus [max(1, ceil(w / c))] rows for each further line of [w] characters:
    the two-column prefix is counted once, on the first line.  For a text of
    a single line this is [ceil((w + 2) / c)]. *)
Theorem text_rows_prefix_on_first_line (e : env) (s : t) (v : string)
    (c : Z) (l1 : string) (ls : list string) :
  columns (stream s) = Some c ->
  0 < c ->
  stripAnsi e ("--" ++ v)%string = ("--" ++ v)%string ->
  (forall l, In l (split_lines ("--" ++ v)%string) -> wcwidth e l = width l) ->
  split_lines v = l1 :: ls ->
  lineCount (set_text e v s) = rows_first_line_prefixed c (l1 :: ls) /\
  (ls = [] -> lineCount (set_text e v s) = ceil_div (width v + 2) c).
Proof.
  intros Hcols Hc Hstrip Hwidth Hsplit.
  assert (Hpre : split_lines ("--" ++ v)%string = ("--" ++ l1)%string :: ls)
    by (apply split_lines_prefix2; auto).
  assert (Hcount : lineCount (set_text e v s)
                   = rows_first_line_prefixed c (l1 :: ls)).
  { unfold set_text. cbn [lineCount].
    unfold count_rows, columns_or_80. rewrite Hcols, Hstrip.
    destruct (Z.eqb_spec c 0) as [->|_]; [lia|].
    rewrite Hpre in *. rewrite fold_left_rows.
    cbn [fold_right rows_first_line_prefixed].
    rewrite (Hwidth _ (or_introl eq_refl)).
    assert (Hw1 : width ("--" ++ l1)%string = width l1 + 2)
      by (unfold width; simpl; lia).
    rewrite Hw1.
    rewrite (Z.max_r 1 (ceil_div (width l1 + 2) c))
      by (apply ceil_div_pos; unfold width; lia).
    assert (Hls : forall l, In l ls -> wcwidth e l = width l)
      by (intros l Hl; apply Hwidth; right; exact Hl).
    rewrite Z.add_0_l. apply Z.add_cancel_l.
    clear - Hls. induction ls as [|l ls IH].
    - reflexivity.
    - cbn [fold_right]. rewrite (Hls l (or_introl eq_refl)), IH; auto.
      intros l' Hl'. apply Hls. right. exact Hl'. }
  split; [exact Hcount|].
  intros ->. rewrite Hcount. simpl.
  assert (Hv : v = l1).
  { clear - Hsplit. revert l1 Hsplit.
    induction v as [|ch v IH]; intros l1 Hsplit; simpl in Hsplit.
    - congruence.
    - destruct (Ascii.eqb ch (ascii_of_nat 10)).
      + injection Hsplit as _ Hnil. exfalso.
        exact (split_lines_not_nil _ Hnil).
      + destruct (split_lines v) as [|l ls] eqn:Hv.
        * exfalso. exact (split_lines_not_nil _ Hv).
        * injection Hsplit as <- ->. f_equal. apply IH. reflexivity. }
  subst v. lia.
Qed.

(** C4, on a terminal four columns wide: a text of two lines, and a text of
    one line. *)
Lemma text_rows_prefix_on_first_line_witness :
  lineCount (set_text (Demo.plain (Demo.tty 4)) ("ab" ++ nl ++ "abcde")%string
               (Demo.fresh (Demo.tty 4) true ""))
  = rows_first_line_prefixed 4 ["ab"; "abcde"]%string /\
  lineCount (set_text (Demo.plain (Demo.tty 4)) "abcde"
               (Demo.fresh (Demo.tty 4) true ""))
  = ceil_div (width "abcde" + 2) 4.
Proof.
  split.
  - exact (proj1 (text_rows_prefix_on_first_line (Demo.plain (Demo.tty 4))
             (Demo.fresh (Demo.tty 4) true "") ("ab" ++ nl ++ "abcde")%string 4
             "ab"%string ["abcde"%string]
             eq_refl ltac:(lia) eq_refl (fun l _ => eq_refl) eq_refl)).
  - exact (proj2 (text_rows_prefix_on_first_line (Demo.plain (Demo.tty 4))
             (Demo.fresh (Demo.tty 4) true "") "abcde"%string 4 "abcde"%string []
             eq_refl ltac:(lia) eq_refl (fun l _ => eq_refl) eq_refl)
             eq_refl).
Defined.

(** C4 (as stated, refuted). On a terminal four columns wide the text
    ["a\nabc"] caches two rows, one for each line, where the formula with
    the prefix on every line gives three. *)
Lemma second_line_has_no_prefix :
  lineCount (set_text (Demo.plain (Demo.tty 4)) ("a" ++ nl ++ "abc")%string
               (Demo.fresh (Demo.tty 4) true "")) = 2 /\
  rows_every_line_prefixed 4 (split_lines ("a" ++ nl ++ "abc")%string) = 3 /\
  lineCount (set_text (Demo.plain (Demo.tty 4)) ("a" ++ nl ++ "abc")%string
               (Demo.fresh (Demo.tty 4) true ""))
  <> rows_every_line_prefixed 4 (split_lines ("a" ++ nl ++ "abc")%string).
Proof.
  repeat split; vm_compute; congruence.
Qed.

(** The demonstration spinners are those the constructor builds. *)
Lemma fresh_is_new (st : stream_t) (enabled : bool) (txt : string) :
  new (Demo.plain st) (ArgOptions (Demo.opts_on st (Some enabled) txt))
  = Normal (Demo.fresh st enabled txt).
Proof.
  reflexivity.
Qed.

Lemma wide_is_new :
  new (Demo.plain (Demo.tty 80)) (ArgOptions Demo.wide_opts)
  = Normal Demo.wide.
Proof.
  vm_compute. reflexivity.
Qed.

End SpinnerFacts.

(* ===================================================================== *)
(** ** Properties of Spinner: clearing and rendering *)
(* ===================================================================== *)

Module ScreenFacts.

Import Spinner.
Local Open Scope list_scope.

(** *** Stream calls *)

Lemma emits_nil (s : t) : emits [] s = s.
Proof.
  destruct s as [sp c h i [tty cols out] tid fi en lr tx lc ltc].
  unfold emits. simpl. rewrite app_nil_r. reflexivity.
Qed.

Lemma emits_emits (a b : list event) (s : t) :
  emits b (emits a s) = emits (a ++ b) s.
Proof.
  unfold emits. simpl. rewrite <- app_assoc. reflexivity.
Qed.

Lemma clear_loop_emits (n : nat) :
  forall (i : Z) (s : t), clear_loop i n s = emits (clear_events i n) s.
Proof.
  induction n as [|n IH]; intros i s; simpl.
  - symmetry. apply emits_nil.
  - rewrite IH. destruct (i >? 0).
    + change (emit (CursorTo 0) (emit ClearLine (emit (MoveCursor 0 (-1)) s)))
        with (emits [CursorTo 0]
                (emits [ClearLine] (emits [MoveCursor 0 (-1)] s))).
      rewrite !emits_emits. reflexivity.
    + change (emit (CursorTo 0) (emit ClearLine s))
        with (emits [CursorTo 0] (emits [ClearLine] s)).
      rewrite !emits_emits. reflexivity.
Qed.

Lemma issued_app (s s' : t) (evs : list event) :
  output (stream s') = output (stream s) ++ evs -> issued s s' = evs.
Proof.
  intros H. unfold issued. rewrite H, skipn_app, skipn_all, Nat.sub_diag.
  reflexivity.
Qed.

Lemma issued_refl (s : t) : issued s s = [].
Proof.
  apply issued_app. rewrite app_nil_r. reflexivity.
Qed.

(** The loop of [clear()] erases one standing row per round. *)
Lemma standing_clear_events (e : env) (cols : Z) (k : nat) :
  forall (i n : Z),
    Z.of_nat k <= n ->
    fold_left (standing_step e cols) (clear_events i k) n = n - Z.of_nat k.
Proof.
  induction k as [|k IH]; intros i n Hn.
  - simpl. lia.
  - cbn [clear_events]. rewrite fold_left_app.
    assert (Hfirst : fold_left (standing_step e cols)
                       (if i >? 0 then [MoveCursor 0 (-1)] else []) n = n)
      by (destruct (i >? 0); reflexivity).
    rewrite Hfirst. cbn [app fold_left standing_step].
    rewrite IH by lia. lia.
Qed.

Lemma erasures_clear_events (k : nat) :
  forall (i a : Z),
    fold_left erasure_step (clear_events i k) a = a + Z.of_nat k.
Proof.
  induction k as [|k IH]; intros i a.
  - simpl. lia.
  - cbn [clear_events]. rewrite fold_left_app.
    assert (Hfirst : fold_left erasure_step
                       (if i >? 0 then [MoveCursor 0 (-1)] else []) a = a)
      by (destruct (i >? 0); reflexivity).
    rewrite Hfirst. cbn [app fold_left erasure_step].
    rewrite IH. lia.
Qed.

Lemma count_rows_nonneg (e : env) (cols : Z) (str : string) :
  0 <= count_rows e cols str.
Proof.
  unfold count_rows. rewrite SpinnerFacts.fold_left_rows.
  induction (split_lines (stripAnsi e str)) as [|l ls IH]; simpl; lia.
Qed.

(** *** Off a terminal *)

(** [clear()] does nothing on a spinner that is disabled or whose stream is
    not a terminal. *)
Lemma clear_off_terminal (s : t) :
  isEnabled s = false \/ isTTY (stream s) = false -> clear s = s.
Proof.
  intros [H|H]; unfold clear; rewrite H; simpl.
  - reflexivity.
  - rewrite orb_true_r. reflexivity.
Qed.

(** [frame()] touches only the frame index. *)
Lemma frame_cases (e : env) (s : t) :
  (exists err, frame e s = (Throw err, s)) \/
  (exists fr n, frame e s = (Normal fr, set_frameIndex n s)).
Proof.
  unfold frame. destruct (frames (spinner s)) as [fs|].
  - destruct (frame_painter e (color_ s)) as [paint|].
    + right. eexists. eexists. reflexivity.
    + left. eexists. reflexivity.
  - left. eexists. reflexivity.
Qed.

(** Off a terminal a forced-on spinner only ever appends frames: the state
    after [render()], returned or thrown. *)
Lemma render_off_terminal (e : env) (s : t) :
  isEnabled s = true -> isTTY (stream s) = false ->
  isEnabled (snd (render e s)) = true /\
  isTTY (stream (snd (render e s))) = false /\
  exists evs,
    output (stream (snd (render e s))) = output (stream s) ++ evs /\
    forall a, fold_left erasure_step evs a = a.
Proof.
  intros Hen Htty. unfold render.
  rewrite (clear_off_terminal s (or_intror Htty)).
  destruct (frame_cases e s) as [[err ->]|(fr & n & ->)]; simpl.
  - repeat split; auto. exists []. rewrite app_nil_r. auto.
  - repeat split; auto. exists [Write fr]. auto.
Qed.

(** C10. When [isEnabled] is forced true on a stream that is not a
    terminal, [clear()] returns the spinner as it is, [linesToClear]
    included, without a stream call; a [render()] whose frame can be drawn
    calls the stream once, to write the frame after what is there; and no
    number of [render()] calls issues a [clearLine]. *)
Theorem forced_on_off_terminal_appends (e : env) (s : t) :
  isEnabled s = true ->
  isTTY (stream s) = false ->
  clear s = s /\
  (forall fr s1, frame e s = (Normal fr, s1) ->
     exists s', render e s = (Normal tt, s') /\
                output (stream s') = output (stream s) ++ [Write fr]) /\
  (forall n, erasures (issued s (steps e (repeat OpRender n) s)) = 0).
Proof.
  intros Hen Htty. split; [|split].
  - apply clear_off_terminal. right. exact Htty.
  - intros fr s1 Hfr. unfold render.
    rewrite (clear_off_terminal s (or_intror Htty)), Hfr.
    eexists. split; [reflexivity|].
    destruct (frame_cases e s) as [[err Herr]|(fr' & n & Hn)];
      rewrite Hfr in *; [discriminate|].
    injection Hn as _ ->. reflexivity.
  - intros n.
    assert (Hgen : forall k s',
              isEnabled s' = true -> isTTY (stream s') = false ->
              forall pre, output (stream s') = output (stream s) ++ pre ->
              (forall a, fold_left erasure_step pre a = a) ->
              exists evs,
                output (stream (steps e (repeat OpRender k) s'))
                = output (stream s) ++ evs /\
                forall a, fold_left erasure_step evs a = a).
    { induction k as [|k IH]; intros s' Hen' Htty' pre Hpre Hnone.
      - exists pre. split; assumption.
      - cbn [repeat steps fold_left step].
        destruct (render_off_terminal e s' Hen' Htty')
          as (Hen2 & Htty2 & evs & Hout & Hevs).
        apply (IH _ Hen2 Htty2 (pre ++ evs)).
        + rewrite Hout, Hpre, app_assoc. reflexivity.
        + intros a. rewrite fold_left_app, Hnone. apply Hevs. }
    destruct (Hgen n s Hen Htty [] ltac:(rewrite app_nil_r; reflexivity)
                ltac:(reflexivity)) as (evs & Hout & Hevs).
    rewrite (issued_app _ _ _ Hout). unfold erasures. apply Hevs.
Qed.

(** *** On a terminal *)

Lemma standing_nonneg (e : env) (cols : Z) (evs : list event) :
  forall n, 0 <= n -> 0 <= fold_left (standing_step e cols) evs n.
Proof.
  induction evs as [|ev evs IH]; intros n Hn; simpl; [exact Hn|].
  apply IH. destruct ev; simpl; try lia.
  pose proof (count_rows_nonneg e cols s). lia.
Qed.

Lemma standing_app (e : env) (cols : Z) (evs evs' : list event) :
  standing_rows e cols (evs ++ evs')
  = fold_left (standing_step e cols) evs' (standing_rows e cols evs).
Proof.
  unfold standing_rows. apply fold_left_app.
Qed.

Section Tracking.

Variable e : env.
Variable s0 : t.
Hypothesis fits : glyph_fits e (columns_or_80 (stream s0)) s0.

Lemma tracks_set_text (v : string) (s : t) :
  tracks_screen e s0 s -> tracks_screen e s0 (set_text e v s).
Proof.
  intros (Hen & Htty & Hcols & Hsp & Hcol & Hlc & Hidx & Hevs).
  unfold tracks_screen, set_text. cbn [isEnabled stream spinner color_
    lineCount text frameIndex linesToClear].
  repeat split; auto.
  unfold columns_or_80. rewrite Hcols. reflexivity.
Qed.

(** [clear()] erases exactly the rows that stand, and none is left. *)
Lemma tracks_clear (s : t) :
  tracks_screen e s0 s ->
  tracks_screen e s0 (clear s) /\
  linesToClear (clear s) = 0 /\
  text (clear s) = text s /\
  lineCount (clear s) = lineCount s /\
  hideCursor (clear s) = hideCursor s /\
  id (clear s) = id s /\
  exists evs,
    output (stream (clear s)) = output (stream s) ++ evs /\
    erasures evs = linesToClear s.
Proof.
  intros (Hen & Htty & Hcols & Hsp & Hcol & Hlc & Hidx & evs & Hout & Hltc).
  assert (Hpos : 0 <= linesToClear s).
  { rewrite Hltc. apply standing_nonneg. lia. }
  unfold clear. rewrite Hen, Htty. cbn [negb orb].
  rewrite clear_loop_emits.
  set (k := Z.to_nat (linesToClear s)).
  assert (Hk : Z.of_nat k = linesToClear s) by (unfold k; lia).
  unfold tracks_screen, set_linesToClear, emits.
  cbn [isEnabled stream spinner color_ lineCount text frameIndex
       linesToClear isTTY columns output hideCursor id].
  repeat split; auto.
  - exists (evs ++ clear_events 0 k). split.
    + rewrite Hout, app_assoc. reflexivity.
    + rewrite standing_app, standing_clear_events; lia.
  - exists (clear_events 0 k). split; [reflexivity|].
    unfold erasures. rewrite erasures_clear_events. lia.
Qed.

(** [frame()] on a tracked spinner paints a glyph of the frame list and
    moves the index on, inside the list. *)
Lemma frame_tracked (s : t) :
  tracks_screen e s0 s ->
  exists g paint i fs,
    frames (spinner s0) = Some fs /\ In g fs /\
    frame_painter e (color_ s0) = Some paint /\
    0 <= i < Z.of_nat (List.length fs) /\
    frame e s
    = (Normal (paint g ++ " " ++ text s)%string, set_frameIndex (Num i) s).
Proof.
  intros (Hen & Htty & Hcols & Hsp & Hcol & Hlc & Hidx & Hevs).
  destruct Hidx as (i & fs & Hi & Hfs & Hrange).
  destruct fits as (fs' & paint & Hfs' & Hne & Hpaint & _).
  rewrite Hfs in Hfs'. injection Hfs' as <-.
  destruct (JsFacts.index_in_range fs i Hrange) as [g Hg].
  assert (Hin : In g fs).
  { unfold index in Hg. destruct (i <? 0); [discriminate|].
    eapply nth_error_In. exact Hg. }
  exists g, paint, (Z.rem (i + 1) (Z.of_nat (List.length fs))), fs.
  repeat split; auto.
  - rewrite Z.rem_mod_nonneg by lia. apply Z.mod_pos_bound. lia.
  - rewrite Z.rem_mod_nonneg by lia. apply Z.mod_pos_bound. lia.
  - unfold frame. rewrite Hsp, Hfs, Hi, Hg, Hcol, Hpaint.
    destruct fs as [|f fs]; [simpl in Hrange; lia|]. reflexivity.
Qed.

(** [render()] clears what stands, writes one frame and records its
    rows. *)
Lemma tracks_render (s : t) :
  tracks_screen e s0 s ->
  exists fr s',
    render e s = (Normal tt, s') /\
    tracks_screen e s0 s' /\
    output (stream s') = output (stream (clear s)) ++ [Write fr] /\
    linesToClear s' = count_rows e (columns_or_80 (stream s0)) fr /\
    linesToClear s' = lineCount s /\
    hideCursor s' = hideCursor s /\ id s' = id s.
Proof.
  intros Htr.
  destruct (tracks_clear s Htr)
    as (Htr1 & Hz & Htx & Hlc1 & Hhc & Hid & _).
  destruct (frame_tracked (clear s) Htr1)
    as (g & paint & i & fs & Hfs & Hin & Hpaint & Hrange & Hframe).
  destruct Htr1
    as (Hen & Htty & Hcols & Hsp & Hcol & Hlc & _ & evs & Hout & Hltc).
  assert (Hrows : count_rows e (columns_or_80 (stream s0))
                    (paint g ++ " " ++ text (clear s))%string
                  = lineCount (clear s)).
  { destruct fits as (fs' & paint' & Hfs' & _ & Hpaint' & Hfit).
    rewrite Hfs in Hfs'. injection Hfs' as <-.
    rewrite Hpaint in Hpaint'. injection Hpaint' as <-.
    rewrite (Hfit g (text (clear s)) Hin). symmetry. exact Hlc. }
  unfold render. rewrite Hframe.
  eexists. eexists. split; [reflexivity|].
  unfold tracks_screen, set_linesToClear, emit, set_frameIndex.
  cbn [isEnabled stream spinner color_ lineCount text frameIndex
       linesToClear isTTY columns output hideCursor id].
  repeat split; auto; try congruence.
  - exists i, fs. auto.
  - exists (evs ++ [Write (paint g ++ " " ++ text (clear s))%string]).
    split.
    + rewrite Hout, app_assoc. reflexivity.
    + rewrite standing_app, <- Hltc, Hz. cbn [fold_left standing_step].
      rewrite Hrows. lia.
Qed.

Lemma tracks_quiet (ev : event) (s : t) :
  (forall n, standing_step e (columns_or_80 (stream s0)) n ev = n) ->
  tracks_screen e s0 s -> tracks_screen e s0 (emit ev s).
Proof.
  intros Hev (Hen & Htty & Hcols & Hsp & Hcol & Hlc & Hidx & evs & Hout & Hltc).
  unfold tracks_screen, emit.
  cbn [isEnabled stream spinner color_ lineCount text frameIndex
       linesToClear isTTY columns output].
  repeat split; auto.
  exists (evs ++ [ev]). split.
  - rewrite Hout, app_assoc. reflexivity.
  - rewrite standing_app. cbn [fold_left]. rewrite Hev. exact Hltc.
Qed.

Lemma tracks_set_id (i : option Z) (s : t) :
  tracks_screen e s0 s -> tracks_screen e s0 (set_id i s).
Proof.
  intros H. exact H.
Qed.

Lemma tracks_start (txt : option string) (s : t) :
  tracks_screen e s0 s -> tracks_screen e s0 (snd (start e txt s)).
Proof.
  intros Htr. unfold start.
  set (s1 := match txt with
             | Some v => if negb (v =? "")%string then set_text e v s else s
             | None => s
             end).
  assert (Htr1 : tracks_screen e s0 s1).
  { unfold s1. destruct txt as [v|]; [|exact Htr].
    destruct (negb (v =? "")%string); [|exact Htr].
    apply tracks_set_text. exact Htr. }
  assert (Hen : isEnabled s1 = true) by apply Htr1.
  rewrite Hen. cbn [negb].
  destruct (isSpinning s1); [exact Htr1|].
  set (s2 := if hideCursor s1 then emit HideCursor s1 else s1).
  assert (Htr2 : tracks_screen e s0 s2).
  { unfold s2. destruct (hideCursor s1); [|exact Htr1].
    apply tracks_quiet; [reflexivity|exact Htr1]. }
  destruct (tracks_render s2 Htr2) as (fr & s3 & Hr & Htr3 & _).
  rewrite Hr. cbn [snd]. apply tracks_set_id. exact Htr3.
Qed.

Lemma tracks_stop (s : t) :
  tracks_screen e s0 s -> tracks_screen e s0 (stop s).
Proof.
  intros Htr. unfold stop.
  assert (Hen : isEnabled s = true) by apply Htr.
  rewrite Hen. cbn [negb].
  assert (Htr1 : tracks_screen e s0 (set_frameIndex (Num 0) (set_id None s))).
  { destruct Htr
      as (Hen' & Htty & Hcols & Hsp & Hcol & Hlc & Hidx & Hevs).
    destruct Hidx as (i & fs & Hi & Hfs & Hrange).
    unfold tracks_screen, set_frameIndex, set_id.
    cbn [isEnabled stream spinner color_ lineCount text frameIndex
         linesToClear isTTY columns output].
    repeat split; auto.
    exists 0, fs. repeat split; auto; lia. }
  destruct (tracks_clear _ Htr1) as (Htr2 & _).
  destruct (hideCursor (clear (set_frameIndex (Num 0) (set_id None s))));
    [|exact Htr2].
  apply tracks_quiet; [reflexivity|exact Htr2].
Qed.

Lemma tracks_step (o : op) (s : t) :
  tracks_screen e s0 s -> tracks_screen e s0 (step e o s).
Proof.
  intros Htr. destruct o as [v| | |txt|]; cbn [step].
  - apply tracks_set_text. exact Htr.
  - destruct (tracks_render s Htr) as (fr & s' & Hr & Htr' & _).
    rewrite Hr. exact Htr'.
  - apply tracks_clear. exact Htr.
  - apply tracks_start. exact Htr.
  - apply tracks_stop. exact Htr.
Qed.

Lemma tracks_steps (ops : list op) :
  forall s, tracks_screen e s0 s -> tracks_screen e s0 (steps e ops s).
Proof.
  induction ops as [|o ops IH]; intros s Htr; cbn [steps fold_left].
  - exact Htr.
  - apply IH. apply tracks_step. exact Htr.
Qed.

End Tracking.

(** A spinner fresh from the constructor, enabled on a terminal, tracks the
    screen. *)
Lemma tracks_new (e : env) (arg : ctor_arg) (s0 : t) :
  new e arg = Normal s0 ->
  isEnabled s0 = true ->
  isTTY (stream s0) = true ->
  glyph_fits e (columns_or_80 (stream s0)) s0 ->
  tracks_screen e s0 s0.
Proof.
  intros Hnew Hen Htty (fs & paint & Hfs & Hne & _).
  destruct (SpinnerFacts.new_initial_state e arg s0 Hnew)
    as (_ & Hfi & Hltc & _ & Hlc & _).
  unfold tracks_screen. repeat split; auto.
  - exists 0, fs. repeat split; auto; try lia.
    destruct fs; [congruence|simpl; lia].
  - exists []. rewrite app_nil_r. split; [reflexivity|exact Hltc].
Qed.

(** C9 (as the code has it). For a spinner enabled on an interactive
    terminal whose painted glyphs take the two columns that the text setter
    allows for them: after construction and after any sequence of text
    updates, renders, clears, starts and stops, [linesToClear] is the number
    of rows of the spinner standing on the screen, none when nothing is
    drawn; [clear()] issues exactly that many [clearLine] calls and leaves
    none standing; and [render()] first clears with the count left by the
    previous render, then writes one frame and sets [linesToClear] to the
    rows of that frame. *)
Theorem linesToClear_matches_screen (e : env) (arg : ctor_arg) (s0 : t)
    (ops : list op) :
  new e arg = Normal s0 ->
  isEnabled s0 = true ->
  isTTY (stream s0) = true ->
  glyph_fits e (columns_or_80 (stream s0)) s0 ->
  let cols := columns_or_80 (stream s0) in
  let s := steps e ops s0 in
  linesToClear s = standing_rows e cols (issued s0 s) /\
  erasures (issued s (clear s)) = linesToClear s /\
  standing_rows e cols (issued s0 (clear s)) = 0 /\
  linesToClear (clear s) = 0 /\
  exists fr s',
    render e s = (Normal tt, s') /\
    issued (clear s) s' = [Write fr] /\
    linesToClear s' = count_rows e cols fr /\
    linesToClear s' = standing_rows e cols (issued s0 s').
Proof.
  intros Hnew Hen Htty Hfit cols s.
  assert (Htr : tracks_screen e s0 s).
  { apply tracks_steps; [exact Hfit|].
    apply (tracks_new e arg); assumption. }
  destruct (tracks_clear e s0 s Htr)
    as (Htrc & Hz & _ & _ & _ & _ & cevs & Hcout & Hcer).
  destruct (tracks_render e s0 Hfit s Htr)
    as (fr & s' & Hr & Htr' & Hout' & Hrows & _).
  assert (Hread : forall x, tracks_screen e s0 x ->
            linesToClear x = standing_rows e cols (issued s0 x)).
  { intros x (_ & _ & _ & _ & _ & _ & _ & evs & Hout & Hltc).
    rewrite (issued_app _ _ _ Hout). exact Hltc. }
  repeat split.
  - apply Hread. exact Htr.
  - rewrite (issued_app _ _ _ Hcout). exact Hcer.
  - rewrite <- (Hread _ Htrc). exact Hz.
  - exact Hz.
  - exists fr, s'. repeat split.
    + exact Hr.
    + apply issued_app. exact Hout'.
    + exact Hrows.
    + apply Hread. exact Htr'.
Qed.

(** *** The demonstration process *)

(** Where nothing is stripped and every character is one column wide, two
    characters in front of a text count as its two-column prefix. *)
Lemma count_rows_prefix2 (e : env) (cols : Z) (a b : ascii) (txt : string) :
  (forall x, stripAnsi e x = x) ->
  (forall x, wcwidth e x = width x) ->
  Ascii.eqb a (ascii_of_nat 10) = false ->
  Ascii.eqb b (ascii_of_nat 10) = false ->
  count_rows e cols (String a (String b txt))
  = count_rows e cols ("--" ++ txt)%string.
Proof.
  intros Hstrip Hwidth Ha Hb. unfold count_rows. rewrite !Hstrip.
  destruct (split_lines txt) as [|l ls] eqn:Hsplit.
  - exfalso. exact (SpinnerFacts.split_lines_not_nil _ Hsplit).
  - rewrite (SpinnerFacts.split_lines_prefix2 a b txt l ls Ha Hb Hsplit).
    change ("--" ++ txt)%string with (String "-" (String "-" txt)).
    rewrite (SpinnerFacts.split_lines_prefix2 "-" "-" txt l ls
               eq_refl eq_refl Hsplit).
    cbn [fold_left]. rewrite !Hwidth. reflexivity.
Qed.

(** The glyphs of the [line] spinner, unpainted, fit the prefix. *)
Lemma plain_glyph_fits (st : stream_t) (cols : Z) (s : t) :
  spinner s = Demo.line ->
  color_ s = CFun (fun x => x) ->
  glyph_fits (Demo.plain st) cols s.
Proof.
  intros Hsp Hcol. exists ["-"; "\"; "|"; "/"]%string, (fun x => x).
  rewrite Hsp, Hcol. repeat split; [discriminate|].
  intros g txt Hin.
  assert (Hg : exists a, g = String a EmptyString /\
                         Ascii.eqb a (ascii_of_nat 10) = false).
  { simpl in Hin. destruct Hin as [<-|[<-|[<-|[<-|[]]]]];
      eexists; split; reflexivity. }
  destruct Hg as (a & -> & Ha).
  change (String a "" ++ " " ++ txt)%string with (String a (String " " txt)).
  apply count_rows_prefix2; auto.
Qed.

(** C9, on a terminal eighty columns wide, along a session of start, text
    change, timer firing, stop and restart. *)
Lemma linesToClear_matches_screen_witness :
  linesToClear (steps (Demo.plain (Demo.tty 80)) Demo.session Demo.loading)
  = standing_rows (Demo.plain (Demo.tty 80)) 80
      (issued Demo.loading
         (steps (Demo.plain (Demo.tty 80)) Demo.session Demo.loading)) /\
  erasures
    (issued (steps (Demo.plain (Demo.tty 80)) Demo.session Demo.loading)
       (clear (steps (Demo.plain (Demo.tty 80)) Demo.session Demo.loading)))
  = linesToClear (steps (Demo.plain (Demo.tty 80)) Demo.session Demo.loading)
  /\
  standing_rows (Demo.plain (Demo.tty 80)) 80
    (issued Demo.loading
       (clear (steps (Demo.plain (Demo.tty 80)) Demo.session Demo.loading)))
  = 0 /\
  linesToClear
    (clear (steps (Demo.plain (Demo.tty 80)) Demo.session Demo.loading)) = 0
  /\
  exists fr s',
    render (Demo.plain (Demo.tty 80))
      (steps (Demo.plain (Demo.tty 80)) Demo.session Demo.loading)
    = (Normal tt, s') /\
    issued
      (clear (steps (Demo.plain (Demo.tty 80)) Demo.session Demo.loading)) s'
    = [Write fr] /\
    linesToClear s' = count_rows (Demo.plain (Demo.tty 80)) 80 fr /\
    linesToClear s'
    = standing_rows (Demo.plain (Demo.tty 80)) 80 (issued Demo.loading s').
Proof.
  exact (linesToClear_matches_screen (Demo.plain (Demo.tty 80))
           (ArgOptions (Demo.opts_on (Demo.tty 80) (Some true) "Loading"))
           Demo.loading Demo.session eq_refl eq_refl eq_refl
           (plain_glyph_fits (Demo.tty 80) 80 Demo.loading
              eq_refl eq_refl)).
Defined.

(** C9 (as stated, refuted). With [isEnabled] forced on a pipe, after
    [start()] and one timer firing two frames stand in the stream while
    [linesToClear] is 1, and [clear()] erases no row; and on a terminal five
    columns wide a glyph four columns wide makes the frame ["[==] ab"] take
    two rows while [linesToClear] is 1. *)
Lemma linesToClear_misses_screen :
  (new (Demo.plain Demo.pipe)
     (ArgOptions (Demo.opts_on Demo.pipe (Some true) "Loading"))
   = Normal Demo.forced /\
   linesToClear (steps (Demo.plain Demo.pipe) [OpStart None; OpRender]
                   Demo.forced) = 1 /\
   standing_rows (Demo.plain Demo.pipe) 80
     (issued Demo.forced
        (steps (Demo.plain Demo.pipe) [OpStart None; OpRender] Demo.forced))
   = 2 /\
   erasures
     (issued
        (steps (Demo.plain Demo.pipe) [OpStart None; OpRender] Demo.forced)
        (clear
           (steps (Demo.plain Demo.pipe) [OpStart None; OpRender]
              Demo.forced)))
   = 0) /\
  (new (Demo.plain (Demo.tty 80)) (ArgOptions Demo.wide_opts)
   = Normal Demo.wide /\
   issued Demo.wide (steps (Demo.plain (Demo.tty 80)) [OpStart None] Demo.wide)
   = [HideCursor; Write "[==] ab"] /\
   linesToClear (steps (Demo.plain (Demo.tty 80)) [OpStart None] Demo.wide)
   = 1 /\
   standing_rows (Demo.plain (Demo.tty 80)) 5
     (issued Demo.wide
        (steps (Demo.plain (Demo.tty 80)) [OpStart None] Demo.wide))
   = 2).
Proof.
  repeat split; vm_compute; congruence.
Qed.

(** C10, on a pipe with [isEnabled] forced. *)
Lemma forced_on_off_terminal_appends_witness :
  clear Demo.forced = Demo.forced /\
  (forall fr s1, frame (Demo.plain Demo.pipe) Demo.forced = (Normal fr, s1) ->
     exists s', render (Demo.plain Demo.pipe) Demo.forced = (Normal tt, s') /\
                output (stream s')
                = output (stream Demo.forced) ++ [Write fr]) /\
  (forall n,
     erasures
       (issued Demo.forced
          (steps (Demo.plain Demo.pipe) (repeat OpRender n) Demo.forced))
     = 0).
Proof.
  exact (forced_on_off_terminal_appends (Demo.plain Demo.pipe) Demo.forced
           eq_refl eq_refl).
Defined.

(** On that pipe three renders leave three frames, one after the other. *)
Lemma three_frames_on_a_pipe :
  output (stream (steps (Demo.plain Demo.pipe) (repeat OpRender 3)
                    Demo.forced))
  = [Write "- Loading"; Write "\ Loading"; Write "| Loading"]%string.
Proof.
  vm_compute. reflexivity.
Qed.

End ScreenFacts.

(* ===================================================================== *)
(** ** Properties of the async-action wrapper *)
(* ===================================================================== *)

Module WrapperFacts.

Import Spinner.
Local Open Scope list_scope.

(** *** What the methods keep *)

Lemma last_write_snoc (evs : list event) (w : string) :
  last_write (evs ++ [Write w]) = Some w.
Proof.
  induction evs as [|ev evs IH]; simpl.
  - reflexivity.
  - rewrite IH. reflexivity.
Qed.

Lemma clear_keeps (s : t) :
  spinner (clear s) = spinner s /\ color_ (clear s) = color_ s /\
  id (clear s) = id s /\ lastResult (clear s) = lastResult s /\
  text (clear s) = text s.
Proof.
  unfold clear.
  destruct (negb (isEnabled s) || negb (isTTY (stream s))).
  - repeat split.
  - rewrite ScreenFacts.clear_loop_emits. repeat split.
Qed.

Lemma stop_keeps (s : t) :
  lastResult (stop s) = lastResult s /\ text (stop s) = text s.
Proof.
  unfold stop. destruct (negb (isEnabled s)); [split; reflexivity|].
  destruct (clear_keeps (set_frameIndex (Num 0) (set_id None s)))
    as (_ & _ & _ & Hlr & Htx).
  destruct (hideCursor _); simpl; rewrite ?Hlr, ?Htx; split; reflexivity.
Qed.

(** [render()] returns exactly when [frame()] can run, and then keeps what
    [frame()] depends on. *)
Lemma render_can_frame (e : env) (s : t) :
  can_frame e s ->
  exists s', render e s = (Normal tt, s') /\
             spinner s' = spinner s /\ color_ s' = color_ s /\
             id s' = id s /\ lastResult s' = lastResult s /\
             text s' = text s.
Proof.
  intros [Hfs Hpaint].
  destruct (clear_keeps s) as (Hsp & Hcol & Hid & Hlr & Htx).
  unfold render, frame. rewrite Hsp, Hcol.
  destruct (frames (spinner s)) as [fs|]; [|congruence].
  destruct (frame_painter e (color_ s)) as [paint|]; [|congruence].
  eexists. split; [reflexivity|]. simpl. auto.
Qed.

Lemma render_returned (e : env) (s s' : t) :
  render e s = (Normal tt, s') ->
  can_frame e s' /\ id s' = id s /\ lastResult s' = lastResult s /\
  text s' = text s.
Proof.
  destruct (clear_keeps s) as (Hsp & Hcol & Hid & Hlr & Htx).
  unfold render, frame, can_frame. rewrite Hsp, Hcol.
  destruct (frames (spinner s)) as [fs|] eqn:Hfs; [|discriminate].
  destruct (frame_painter e (color_ s)) as [paint|] eqn:Hp; [|discriminate].
  intros H. injection H as <-. simpl.
  rewrite Hsp, Hcol, Hfs, Hp. repeat split; auto; discriminate.
Qed.

(** The timer cannot fail on a spinner that is idle or whose frame can be
    drawn, and it leaves the result and the text alone. *)
Lemma ticks_return (e : env) (n : nat) :
  forall s,
    id s = None \/ can_frame e s ->
    exists s', ticks e n s = (Normal tt, s') /\
               lastResult s' = lastResult s /\ text s' = text s.
Proof.
  induction n as [|n IH]; intros s Hs; cbn [ticks].
  - exists s. auto.
  - unfold tick, isSpinning. destruct (id s) as [h|] eqn:Hid.
    + destruct Hs as [Hs|Hs]; [discriminate|].
      destruct (render_can_frame e s Hs)
        as (s1 & Hr & Hsp & Hcol & _ & Hlr & Htx).
      rewrite Hr.
      destruct (IH s1) as (s2 & Ht & Hlr2 & Htx2).
      { right. destruct Hs as [Hf Hp]. split; congruence. }
      exists s2. rewrite Ht. repeat split; congruence.
    + destruct (IH s (or_introl Hid)) as (s2 & Ht & Hlr2 & Htx2).
      exists s2. auto.
Qed.

(** A started spinner is one on which the timer cannot fail. *)
Lemma start_returned (e : env) (arg : ctor_arg) (s0 s1 : t) :
  new e arg = Normal s0 ->
  start e None s0 = (Normal tt, s1) ->
  (id s1 = None \/ can_frame e s1) /\
  lastResult s1 = VNull /\ text s1 = text s0.
Proof.
  intros Hnew.
  destruct (SpinnerFacts.new_initial_state e arg s0 Hnew)
    as (Hid & _ & _ & Hlr & _ & _).
  unfold start, isSpinning. rewrite Hid.
  destruct (negb (isEnabled s0)).
  - intros H. injection H as <-. simpl. auto.
  - set (s2 := if hideCursor s0 then emit HideCursor s0 else s0).
    assert (Hs2 : lastResult s2 = lastResult s0 /\ text s2 = text s0)
      by (unfold s2; destruct (hideCursor s0); split; reflexivity).
    destruct (render e s2) as [[[]|err] s3] eqn:Hr; [|discriminate].
    intros H. injection H as <-.
    destruct (render_returned e s2 s3 Hr) as (Hcf & _ & Hlr3 & Htx3).
    simpl. destruct Hs2 as [Hlr2 Htx2]. repeat split; try congruence.
    right. exact Hcf.
Qed.

(** *** What is persisted *)

(** [succeed] and [fail] with a string stop the spinner and write the line
    made of their symbol and that string. *)
Lemma succeed_string (e : env) (v : string) (s : t) :
  succeed e (VStr v) s
  = (Normal tt,
     emit (Write (persist_line (VStr (sym_success e)) (chalk_green e)
                    (VStr v))) (stop s)).
Proof.
  reflexivity.
Qed.

Lemma fail_string (e : env) (v : string) (s : t) :
  fail e (VStr v) s
  = (Normal tt,
     emit (Write (persist_line (VStr (sym_error e)) (chalk_red_bold e)
                    (VStr v))) (stop s)).
Proof.
  reflexivity.
Qed.

(** With a value that is not a string and not an object they write the
    current text of the spinner. *)
Lemma succeed_primitive (e : env) (v : value) (s : t) :
  typeof_string v = false ->
  (forall props, v <> VObj props) ->
  succeed e v s
  = (Normal tt,
     emit (Write (persist_line (VStr (sym_success e)) (chalk_green e)
                    (VStr (text (stop s))))) (stop s)).
Proof.
  intros Hstr Hobj. destruct v; try reflexivity; try discriminate.
  exfalso. exact (Hobj props eq_refl).
Qed.

Lemma fail_primitive (e : env) (v : value) (s : t) :
  typeof_string v = false ->
  (forall props, v <> VObj props) ->
  fail e v s
  = (Normal tt,
     emit (Write (persist_line (VStr (sym_error e)) (chalk_red_bold e)
                    (VStr (text (stop s))))) (stop s)).
Proof.
  intros Hstr Hobj. destruct v; try reflexivity; try discriminate.
  exfalso. exact (Hobj props eq_refl).
Qed.

Lemma override_string (m : string) :
  m <> ""%string -> override (VStr m) = Some m.
Proof.
  intros Hm. unfold override. simpl.
  destruct (String.eqb_spec m ""); [contradiction|reflexivity].
Qed.

Lemma override_nullish (o : value) : nullish o = true -> override o = None.
Proof.
  intros H. unfold override. rewrite H. reflexivity.
Qed.

(** *** The two branches *)

Section Started.

Variable e : env.
Variables (arg : ctor_arg) (success failure : value) (s0 s1 : t).
Hypothesis constructed : new e arg = Normal s0.
Hypothesis started : start e None s0 = (Normal tt, s1).

Lemma promise_body_async (r : run) :
  promise_body e (AAsyncFunction r) arg success failure
  = awaited e success failure r s1.
Proof.
  unfold promise_body. simpl. rewrite constructed, started. reflexivity.
Qed.

Lemma promise_body_inflight (r : run) :
  promise_body e (APromise r) arg success failure
  = Resolved s1 (continuation e success failure r s1).
Proof.
  unfold promise_body. simpl. rewrite constructed, started. reflexivity.
Qed.

Lemma timer_returns (n : nat) :
  exists s2, ticks e n s1 = (Normal tt, s2) /\
             lastResult s2 = VNull /\ text s2 = text s0.
Proof.
  destruct (start_returned e arg s0 s1 constructed started)
    as (Hs1 & Hlr & Htx).
  destruct (ticks_return e n s1 Hs1) as (s2 & Ht & Hlr2 & Htx2).
  exists s2. repeat split; congruence.
Qed.

(** What both branches persist when the action resolves and [succeed] is
    given the string [m]. *)
Lemma resolved_line (a : action) (r : run) (v : value) (m : string) :
  a = APromise r \/ a = AAsyncFunction r ->
  result r = Resolves v ->
  override success = Some m \/ (override success = None /\ v = VStr m) ->
  persisted (promise_body e a arg success failure)
  = Some (persist_line (VStr (sym_success e)) (chalk_green e) (VStr m)).
Proof.
  intros Ha Hres Hm.
  destruct (timer_returns (elapsed r)) as (s2 & Ht & _).
  destruct Ha as [-> | ->].
  - rewrite promise_body_inflight. unfold persisted, settled, continuation.
    rewrite Hres, Ht. unfold on_fulfilled.
    destruct Hm as [-> | [-> ->]]; rewrite succeed_string;
      cbn [emit stream output]; apply last_write_snoc.
  - rewrite promise_body_async. unfold persisted, settled, awaited.
    rewrite Hres, Ht. unfold on_awaited.
    destruct Hm as [-> | [-> ->]]; cbn [set_lastResult lastResult];
      rewrite succeed_string;
      cbn [emit stream output]; apply last_write_snoc.
Qed.

(** What both branches persist when the action rejects and [fail] is given
    the string [m]. *)
Lemma rejected_line (a : action) (r : run) (err : value) (m : string) :
  a = APromise r \/ a = AAsyncFunction r ->
  result r = Rejects err ->
  override failure = Some m \/
  (override failure = None /\ get err "message" = Some (VStr m)) ->
  persisted (promise_body e a arg success failure)
  = Some (persist_line (VStr (sym_error e)) (chalk_red_bold e) (VStr m)).
Proof.
  intros Ha Hres Hm.
  destruct (timer_returns (elapsed r)) as (s2 & Ht & _).
  destruct Ha as [-> | ->].
  - rewrite promise_body_inflight. unfold persisted, settled, continuation.
    rewrite Hres, Ht. unfold on_rejected.
    destruct Hm as [-> | [-> ->]]; rewrite fail_string;
      cbn [emit stream output]; apply last_write_snoc.
  - rewrite promise_body_async. unfold persisted, settled, awaited.
    rewrite Hres, Ht. unfold on_rejected.
    destruct Hm as [-> | [-> ->]]; rewrite fail_string;
      cbn [emit stream output]; apply last_write_snoc.
Qed.

(** A failure that [fail] can take is persisted, and the promise of the
    wrapper resolves with the spinner. *)
Lemma rejected_resolves (a : action) (r : run) (err : value) :
  a = APromise r \/ a = AAsyncFunction r ->
  result r = Rejects err ->
  plain_failure failure err ->
  exists s s' txt,
    promise_body e a arg success failure
    = Resolved s (Some (Normal tt, s')) /\
    last_write (output (stream s'))
    = Some (persist_line (VStr (sym_error e)) (chalk_red_bold e) txt).
Proof.
  intros Ha Hres Hplain.
  destruct (timer_returns (elapsed r)) as (s2 & Ht & _).
  assert (Hrej : exists s' txt,
            on_rejected e failure err s2 = (Normal tt, s') /\
            last_write (output (stream s'))
            = Some (persist_line (VStr (sym_error e)) (chalk_red_bold e) txt)).
  { unfold on_rejected.
    destruct (override failure) as [m|] eqn:Hov.
    - rewrite fail_string. eexists. eexists. split; [reflexivity|].
      cbn [emit stream output]. apply last_write_snoc.
    - destruct Hplain as [Hne | (m & Hget & Hobj)]; [congruence|].
      rewrite Hget. destruct (typeof_string m) eqn:Hstr.
      + destruct m; try discriminate. rewrite fail_string.
        eexists. eexists. split; [reflexivity|].
        cbn [emit stream output]. apply last_write_snoc.
      + rewrite (fail_primitive e m _ Hstr Hobj).
        eexists. eexists. split; [reflexivity|].
        cbn [emit stream output]. apply last_write_snoc. }
  destruct Hrej as (s' & txt & Hrej & Hlast).
  destruct Ha as [-> | ->].
  - rewrite promise_body_inflight. unfold continuation.
    rewrite Hres, Ht, Hrej. exists s1, s', txt. split; auto.
  - rewrite promise_body_async. unfold awaited.
    rewrite Hres, Ht, Hrej. exists s', s', txt. split; auto.
Qed.

(** The in-flight branch returns the spinner as [start()] left it. *)
Lemma inflight_returns_started (r : run) :
  exists later,
    promise_body e (APromise r) arg success failure = Resolved s1 later /\
    lastResult s1 = VNull.
Proof.
  rewrite promise_body_inflight. eexists. split; [reflexivity|].
  apply (start_returned e arg s0 s1 constructed started).
Qed.

(** The async-function branch returns it with the value awaited. *)
Lemma awaited_result_recorded (r : run) (v : value) :
  result r = Resolves v ->
  (forall props, v <> VObj props) ->
  exists s later,
    promise_body e (AAsyncFunction r) arg success failure = Resolved s later /\
    lastResult s = v.
Proof.
  intros Hres Hobj. rewrite promise_body_async. unfold awaited.
  destruct (timer_returns (elapsed r)) as (s2 & Ht & _).
  rewrite Hres, Ht. unfold on_awaited.
  destruct (override success) as [m|].
  - rewrite succeed_string. eexists. eexists. split; [reflexivity|].
    cbn [emit lastResult]. rewrite (proj1 (stop_keeps _)). reflexivity.
  - cbn [set_lastResult lastResult].
    destruct (typeof_string v) eqn:Hstr.
    + destruct v; try discriminate. rewrite succeed_string.
      eexists. eexists. split; [reflexivity|].
      cbn [emit lastResult]. rewrite (proj1 (stop_keeps _)). reflexivity.
    + rewrite (succeed_primitive e v _ Hstr Hobj).
      eexists. eexists. split; [reflexivity|].
      cbn [emit lastResult]. rewrite (proj1 (stop_keeps _)). reflexivity.
Qed.

End Started.

(** *** The claims on the wrapper *)

(** C5 (as the code has it). Once the spinner is constructed and started,
    for an in-flight Promise and for an async function alike: an action
    that resolves with a string, without a success override, persists a
    success line with that string; an action that rejects with an error
    whose message is a string, without a failure override, persists a
    failure line with that message; and an override that is a string other
    than the empty one is persisted as it is, whatever the action resolved
    or rejected with. *)
Theorem persisted_line_text (e : env) (a : action) (arg : ctor_arg)
    (success failure : value) (s0 s1 : t) (r : run) :
  new e arg = Normal s0 ->
  start e None s0 = (Normal tt, s1) ->
  a = APromise r \/ a = AAsyncFunction r ->
  (forall v, result r = Resolves (VStr v) -> nullish success = true ->
     persisted (promise_body e a arg success failure)
     = Some (persist_line (VStr (sym_success e)) (chalk_green e) (VStr v))) /\
  (forall v m, result r = Resolves v -> success = VStr m -> m <> ""%string ->
     persisted (promise_body e a arg success failure)
     = Some (persist_line (VStr (sym_success e)) (chalk_green e) (VStr m))) /\
  (forall err m, result r = Rejects err -> nullish failure = true ->
     get err "message" = Some (VStr m) ->
     persisted (promise_body e a arg success failure)
     = Some (persist_line (VStr (sym_error e)) (chalk_red_bold e) (VStr m))) /\
  (forall err m, result r = Rejects err -> failure = VStr m ->
     m <> ""%string ->
     persisted (promise_body e a arg success failure)
     = Some (persist_line (VStr (sym_error e)) (chalk_red_bold e) (VStr m))).
Proof.
  intros Hnew Hstart Ha. repeat split.
  - intros v Hres Hnull.
    apply (resolved_line e arg success failure s0 s1 Hnew Hstart a r
             (VStr v) v Ha Hres).
    right. split; [apply override_nullish; exact Hnull|reflexivity].
  - intros v m Hres -> Hm.
    apply (resolved_line e arg (VStr m) failure s0 s1 Hnew Hstart a r
             v m Ha Hres).
    left. apply override_string. exact Hm.
  - intros err m Hres Hnull Hmsg.
    apply (rejected_line e arg success failure s0 s1 Hnew Hstart a r
             err m Ha Hres).
    right. split; [apply override_nullish; exact Hnull|exact Hmsg].
  - intros err m Hres -> Hm.
    apply (rejected_line e arg success (VStr m) s0 s1 Hnew Hstart a r
             err m Ha Hres).
    left. apply override_string. exact Hm.
Qed.

(** C5, for an async function that resolves with ["cloned"] after two timer
    firings, and for one that rejects while a failure override is given. *)
Lemma persisted_line_text_witness :
  persisted
    (promise_body (Demo.plain (Demo.tty 80))
       (AAsyncFunction {| elapsed := 2; result := Resolves (VStr "cloned") |})
       (ArgOptions Demo.working) VUndef VUndef)
  = Some (persist_line (VStr "[ok]") (fun x => x) (VStr "cloned")) /\
  persisted
    (promise_body (Demo.plain (Demo.tty 80))
       (AAsyncFunction
          {| elapsed := 2; result := Rejects (Error "no network") |})
       (ArgOptions Demo.working) VUndef (VStr "Clone failed"))
  = Some (persist_line (VStr "[error]") (fun x => x) (VStr "Clone failed")).
Proof.
  split.
  - apply (persisted_line_text (Demo.plain (Demo.tty 80))
             (AAsyncFunction
                {| elapsed := 2; result := Resolves (VStr "cloned") |})
             (ArgOptions Demo.working) VUndef VUndef
             (Demo.fresh (Demo.tty 80) true "Working")
             (snd (start (Demo.plain (Demo.tty 80)) None
                     (Demo.fresh (Demo.tty 80) true "Working")))
             {| elapsed := 2; result := Resolves (VStr "cloned") |}
             eq_refl eq_refl (or_intror eq_refl)); reflexivity.
  - apply (persisted_line_text (Demo.plain (Demo.tty 80))
             (AAsyncFunction
                {| elapsed := 2; result := Rejects (Error "no network") |})
             (ArgOptions Demo.working) VUndef (VStr "Clone failed")
             (Demo.fresh (Demo.tty 80) true "Working")
             (snd (start (Demo.plain (Demo.tty 80)) None
                     (Demo.fresh (Demo.tty 80) true "Working")))
             {| elapsed := 2; result := Rejects (Error "no network") |}
             eq_refl eq_refl (or_intror eq_refl))
      with (err := Error "no network"); [reflexivity|reflexivity|].
    discriminate.
Defined.

(** C5 (as stated, refuted). An async function that resolves with the
    number 42, without overrides, persists the text of the spinner and not
    ["42"]; and with the empty string as success override the line carries
    what the action resolved with, not the override. *)
Lemma result_not_stringified :
  (persisted
     (promise_body (Demo.plain (Demo.tty 80))
        (AAsyncFunction {| elapsed := 2; result := Resolves (VNum 42) |})
        (ArgOptions Demo.working) VUndef VUndef)
   = Some (persist_line (VStr "[ok]") (fun x => x) (VStr "Working")) /\
   persisted
     (promise_body (Demo.plain (Demo.tty 80))
        (AAsyncFunction {| elapsed := 2; result := Resolves (VNum 42) |})
        (ArgOptions Demo.working) VUndef VUndef)
   <> Some (persist_line (VStr "[ok]") (fun x => x)
              (VStr (to_string (VNum 42))))) /\
  (persisted
     (promise_body (Demo.plain (Demo.tty 80))
        (AAsyncFunction {| elapsed := 2; result := Resolves (VStr "done") |})
        (ArgOptions Demo.working) (VStr "") VUndef)
   = Some (persist_line (VStr "[ok]") (fun x => x) (VStr "done")) /\
   persisted
     (promise_body (Demo.plain (Demo.tty 80))
        (AAsyncFunction {| elapsed := 2; result := Resolves (VStr "done") |})
        (ArgOptions Demo.working) (VStr "") VUndef)
   <> Some (persist_line (VStr "[ok]") (fun x => x) (VStr ""))).
Proof.
  repeat split; vm_compute; congruence.
Qed.

(** C6 (as the code has it). Once the spinner is constructed and started, a
    rejection of the action whose handling needs no more than a failure
    override, or than a message that is not an object on a reason that is
    not null or undefined, is persisted as a failure line, and the promise
    of the wrapper resolves with the spinner.  For an argument that is not a
    Promise and that [isAsyncFunction] refuses, the call returns a promise
    already rejected with the [TypeError], before any spinner is made. *)
Theorem failure_persisted_misuse_rejected (e : env) (a : action)
    (arg : ctor_arg) (success failure : value) :
  (forall s0 s1 r err,
     new e arg = Normal s0 ->
     start e None s0 = (Normal tt, s1) ->
     a = APromise r \/ a = AAsyncFunction r ->
     result r = Rejects err ->
     plain_failure failure err ->
     exists s s' txt,
       promise e a arg success failure
       = Normal (Resolved s (Some (Normal tt, s'))) /\
       last_write (output (stream s'))
       = Some (persist_line (VStr (sym_error e)) (chalk_red_bold e) txt)) /\
  (instanceof_Promise a = false ->
   isAsyncFunction a = false ->
   promise e a arg success failure
   = Normal
       (Rejected
          (TypeError
             "Parameter `action` must be a Promise or an async function")
          None)).
Proof.
  split.
  - intros s0 s1 r err Hnew Hstart Ha Hres Hplain.
    destruct (rejected_resolves e arg success failure s0 s1 Hnew Hstart
                a r err Ha Hres Hplain) as (s & s' & txt & Hbody & Hlast).
    exists s, s', txt. unfold promise. rewrite Hbody. auto.
  - intros Hp Hf. unfold promise, promise_body. rewrite Hp, Hf. reflexivity.
Qed.

(** C6, for an in-flight Promise that rejects with an [Error], and for the
    number 5 passed as the action. *)
Lemma failure_persisted_misuse_rejected_witness :
  (exists s s' txt,
     promise (Demo.plain (Demo.tty 80))
       (APromise {| elapsed := 1; result := Rejects (Error "no network") |})
       (ArgOptions Demo.working) VUndef VUndef
     = Normal (Resolved s (Some (Normal tt, s'))) /\
     last_write (output (stream s'))
     = Some (persist_line (VStr "[error]") (fun x => x) txt)) /\
  promise (Demo.plain (Demo.tty 80)) (AOther (VNum 5))
    (ArgOptions Demo.working) VUndef VUndef
  = Normal
      (Rejected
         (TypeError
            "Parameter `action` must be a Promise or an async function")
         None).
Proof.
  split.
  - apply (proj1 (failure_persisted_misuse_rejected
                    (Demo.plain (Demo.tty 80))
                    (APromise {| elapsed := 1;
                                 result := Rejects (Error "no network") |})
                    (ArgOptions Demo.working) VUndef VUndef)
             (Demo.fresh (Demo.tty 80) true "Working")
             (snd (start (Demo.plain (Demo.tty 80)) None
                     (Demo.fresh (Demo.tty 80) true "Working")))
             {| elapsed := 1; result := Rejects (Error "no network") |}
             (Error "no network") eq_refl eq_refl (or_introl eq_refl)
             eq_refl).
    right. exists (VStr "no network"). split; [reflexivity|discriminate].
  - apply (proj2 (failure_persisted_misuse_rejected
                    (Demo.plain (Demo.tty 80)) (AOther (VNum 5))
                    (ArgOptions Demo.working) VUndef VUndef));
      reflexivity.
Defined.

(** C6 (as stated, refuted). An async function that rejects with
    [undefined], without a failure override, makes the handler read
    [.message] on [undefined]: the promise of the wrapper is rejected with
    that [TypeError], no failure line is written and the spinner keeps
    spinning.  And the number 5 as
    the action does not make the call throw: it returns a rejected
    promise. *)
Lemma undefined_rejection_propagates :
  (exists s,
     promise (Demo.plain (Demo.tty 80))
       (AAsyncFunction {| elapsed := 1; result := Rejects VUndef |})
       (ArgOptions Demo.working) VUndef VUndef
     = Normal
         (Rejected (TypeError "Cannot read properties of undefined")
            (Some s)) /\
     last_write (output (stream s)) = Some ("\ Working")%string /\
     isSpinning s = true) /\
  (forall err,
     promise (Demo.plain (Demo.tty 80)) (AOther (VNum 5))
       (ArgOptions Demo.working) VUndef VUndef
     <> Throw err).
Proof.
  split.
  - eexists. split; [vm_compute; reflexivity|]. split; reflexivity.
  - intros err. discriminate.
Qed.

(** C7 (the code departs from it). A Promise in flight that resolves with
    ["done"] after three timer firings: the promise of the wrapper resolves
    with a spinner that is still spinning and whose [lastResult] is still
    null; ["done"] is recorded only when the continuation runs.  The same
    computation passed as an async function is awaited, and the spinner
    returned has the result. *)
Lemma inflight_promise_returned_before_result :
  (exists s s',
     promise (Demo.plain (Demo.tty 80))
       (APromise {| elapsed := 3; result := Resolves (VStr "done") |})
       (ArgOptions Demo.working) VUndef VUndef
     = Normal (Resolved s (Some (Normal tt, s'))) /\
     lastResult s = VNull /\ isSpinning s = true /\
     lastResult s' = VStr "done" /\ isSpinning s' = false) /\
  (exists s later,
     promise (Demo.plain (Demo.tty 80))
       (AAsyncFunction {| elapsed := 3; result := Resolves (VStr "done") |})
       (ArgOptions Demo.working) VUndef VUndef
     = Normal (Resolved s later) /\
     lastResult s = VStr "done" /\ isSpinning s = false).
Proof.
  split.
  - eexists. eexists. split; [vm_compute; reflexivity|].
    repeat split.
  - eexists. eexists. split; [vm_compute; reflexivity|].
    repeat split.
Qed.

(** With an override the result or the error is not recorded at all by the
    continuations of an in-flight Promise, nor by the [catch] block of the
    other branch. *)
Lemma override_skips_lastResult :
  (exists s s',
     promise (Demo.plain (Demo.tty 80))
       (APromise {| elapsed := 3; result := Resolves (VStr "done") |})
       (ArgOptions Demo.working) (VStr "Cloned") VUndef
     = Normal (Resolved s (Some (Normal tt, s'))) /\
     lastResult s' = VNull) /\
  (exists s later,
     promise (Demo.plain (Demo.tty 80))
       (AAsyncFunction
          {| elapsed := 3; result := Rejects (Error "no network") |})
       (ArgOptions Demo.working) VUndef (VStr "Clone failed")
     = Normal (Resolved s later) /\
     lastResult s = VNull).
Proof.
  split.
  - eexists. eexists. split; [vm_compute; reflexivity|]. reflexivity.
  - eexists. eexists. split; [vm_compute; reflexivity|]. reflexivity.
Qed.

End WrapperFacts.

(* ===================================================================== *)
(** ** Further properties of SelectPrompt *)
(* ===================================================================== *)

Module SelectMore.

Import Select Keys.
Local Open Scope list_scope.

(** *** Normalization *)

Lemma normalize_throws_iff (v : value) :
  (exists e, normalize v = Throw e) <-> v = VNull.
Proof.
  split.
  - intros [e He]. destruct v; simpl in He; try discriminate. reflexivity.
  - intros ->. eexists. reflexivity.
Qed.

Lemma normalize_all_returns (vs : list value) :
  ~ In VNull vs ->
  exists cs, normalize_all vs = Normal cs /\
             List.length cs = List.length vs /\
             forall i v, nth_error vs i = Some v ->
               exists c, nth_error cs i = Some c /\ normalize v = Normal c.
Proof.
  induction vs as [|v vs IH]; intros Hnot.
  - exists []. repeat split. intros [|i] v H; discriminate.
  - destruct IH as (cs & Hcs & Hlen & Hnth).
    { intros H. apply Hnot. right. exact H. }
    destruct (normalize v) as [c|e] eqn:Hv.
    + exists (c :: cs). simpl. rewrite Hv, Hcs. repeat split.
      * simpl. congruence.
      * intros [|i] w Hw; simpl in *.
        -- injection Hw as <-. exists c. auto.
        -- apply Hnth. exact Hw.
    + exfalso. apply Hnot. left.
      apply (proj1 (normalize_throws_iff v)). exists e. exact Hv.
Qed.

Lemma normalize_all_throws (vs : list value) :
  In VNull vs -> exists e, normalize_all vs = Throw e.
Proof.
  induction vs as [|v vs IH]; intros Hin; [contradiction|].
  simpl. destruct (normalize v) as [c|e] eqn:Hv.
  - destruct Hin as [->|Hin]; [discriminate|].
    destruct (IH Hin) as [e ->]. eexists. reflexivity.
  - eexists. reflexivity.
Qed.

Lemma index_length {A : Type} (l : list A) (i : Z) (x : A) :
  index l i = Some x -> 0 <= i < Z.of_nat (List.length l).
Proof.
  unfold index. destruct (Z.ltb_spec i 0) as [Hneg|Hpos]; [discriminate|].
  intros Hnth. assert (Hlt : (Z.to_nat i < List.length l)%nat).
  { apply nth_error_Some. congruence. }
  lia.
Qed.

Section WithTheme.
Variable th : theme.

(** *** Construction *)

(** With no [null] among the descriptors and an object under the initial
    cursor, the constructor returns a prompt showing the value of that
    object. *)
Lemma new_on_object (o : opts) (props : list (string * value)) :
  ~ In VNull (o_choices o) ->
  index (o_choices o) (match o_initial o with Some n => n | None => 0 end)
  = Some (VObj props) ->
  exists p,
    new th o = Normal p /\
    cursor p = match o_initial o with Some n => n | None => 0 end /\
    value_ p = lookup "value" props.
Proof.
  intros Hnot Hraw. unfold new.
  set (cur := match o_initial o with Some n => n | None => 0 end) in *.
  destruct (normalize_all_returns _ Hnot) as (vals & Hall & Hlen & Hnth).
  rewrite Hall, Hraw. cbn [get].
  pose proof (index_length _ _ _ Hraw) as Hrange.
  rewrite <- Hlen in Hrange.
  destruct (JsFacts.index_in_range vals cur Hrange) as [c Hc].
  match goal with
  | |- exists p, match render th ?q with _ => _ end = _ /\ _ =>
      destruct (SelectFacts.render_draws th q c Hc)
        as (p' & evs & Hr & Hcur & _ & Hval & _)
  end.
  rewrite Hr. exists p'. split; [reflexivity|]. split; assumption.
Qed.

(** The constructor returns exactly when no descriptor is [null] and the
    descriptor under the initial cursor exists and is not [undefined]: a
    list that is empty or shorter than the initial index makes it throw. *)
Theorem new_returns_iff (o : opts) :
  (exists p, new th o = Normal p) <->
  (~ In VNull (o_choices o) /\
   exists raw,
     index (o_choices o) (match o_initial o with Some n => n | None => 0 end)
     = Some raw /\
     nullish raw = false).
Proof.
  unfold new. set (cur := match o_initial o with Some n => n | None => 0 end).
  split.
  - intros [p Hp].
    destruct (normalize_all (o_choices o)) as [vals|e] eqn:Hall;
      [|discriminate].
    split.
    + intros Hin. destruct (normalize_all_throws _ Hin) as [e He].
      congruence.
    + destruct (index (o_choices o) cur) as [raw|]; [|discriminate].
      exists raw. split; [reflexivity|].
      destruct raw; try reflexivity; discriminate.
  - intros (Hnot & raw & Hraw & Hnull).
    destruct (normalize_all_returns _ Hnot) as (vals & Hall & Hlen & Hnth).
    rewrite Hall, Hraw.
    destruct (get raw "value") as [v|] eqn:Hget;
      [|destruct raw; discriminate].
    pose proof (index_length _ _ _ Hraw) as Hrange.
    rewrite <- Hlen in Hrange.
    destruct (JsFacts.index_in_range vals cur Hrange) as [c Hc].
    match goal with
    | |- exists p, match render th ?q with _ => _ end = _ =>
        destruct (SelectFacts.render_draws th q c Hc) as (p' & evs & Hr & _)
    end.
    rewrite Hr. exists p'. reflexivity.
Qed.

(** A prompt that the constructor returns is open, has one choice for each
    descriptor and its cursor on one of them; when the descriptor under the
    cursor is an object, the value shown is the value of the normalized
    choice. *)
Theorem new_state (o : opts) (p : t) :
  new th o = Normal p ->
  cursor p = match o_initial o with Some n => n | None => 0 end /\
  List.length (values p) = List.length (o_choices o) /\
  on_choice p /\
  done p = false /\ aborted p = false /\ closed p = false /\
  (forall props,
     index (o_choices o) (cursor p) = Some (VObj props) ->
     in_sync p /\ value_ p = lookup "value" props).
Proof.
  unfold new. set (cur := match o_initial o with Some n => n | None => 0 end).
  destruct (normalize_all (o_choices o)) as [vals|e] eqn:Hall;
    [|discriminate].
  assert (Hnot : ~ In VNull (o_choices o)).
  { intros Hin. destruct (normalize_all_throws _ Hin) as [e He]. congruence. }
  destruct (normalize_all_returns _ Hnot) as (vals' & Hall' & Hlen & Hnth).
  rewrite Hall in Hall'. injection Hall' as <-.
  destruct (index (o_choices o) cur) as [raw|] eqn:Hraw; [|discriminate].
  destruct (get raw "value") as [v|] eqn:Hget; [|discriminate].
  pose proof (index_length _ _ _ Hraw) as Hrange.
  assert (Hrange' : 0 <= cur < Z.of_nat (List.length vals)) by lia.
  destruct (JsFacts.index_in_range vals cur Hrange') as [c Hc].
  match goal with
  | |- match render th ?q with _ => _ end = _ -> _ =>
      destruct (SelectFacts.render_draws th q c Hc)
        as (p' & evs & Hr & Hcur & Hvals & Hval & Hdone & Hab & Hcl & _)
  end.
  rewrite Hr. intros H. injection H as <-.
  simpl in Hcur, Hvals, Hval, Hdone, Hab, Hcl.
  assert (Hon : on_choice p').
  { unfold on_choice. rewrite Hcur, Hvals. exact Hrange'. }
  rewrite Hcur.
  split; [reflexivity|]. split; [congruence|]. split; [exact Hon|].
  split; [exact Hdone|]. split; [exact Hab|]. split; [exact Hcl|].
  intros props Hprops. rewrite Hprops in Hraw. injection Hraw as <-.
  simpl in Hget. injection Hget as <-.
  split; [|exact Hval].
  exists c. unfold selection. rewrite Hcur, Hvals. split; [exact Hc|].
  rewrite Hval.
  unfold index in Hprops, Hc. destruct (cur <? 0); [discriminate|].
  destruct (Hnth _ _ Hprops) as (c' & Hc' & Hnorm).
  rewrite Hc in Hc'. injection Hc' as <-.
  simpl in Hnorm. injection Hnorm as <-. reflexivity.
Qed.

(** *** Moving and leaving *)

(** A move to an index of the list: the cursor and the value follow, the
    listeners hear the new value, the prompt is drawn again. *)
Lemma move_render (n : Z) (c : choice) (p : t) :
  index (values p) n = Some c ->
  exists p' evs,
    andThen (moveCursor n) (render th) p = (Normal tt, p') /\
    cursor p' = n /\ values p' = values p /\ value_ p' = cvalue c /\
    done p' = done p /\ aborted p' = aborted p /\ closed p' = closed p /\
    out p' = out p ++ EFire (cvalue c) (aborted p) :: evs /\
    Forall (fun ev => is_draw ev = true) evs.
Proof.
  intros Hc. unfold andThen, moveCursor. simpl. rewrite Hc.
  set (p1 := fire (set_value (cvalue c) (set_cursor n p))).
  assert (Hsel : selection p1 = Some c) by exact Hc.
  destruct (SelectFacts.render_draws th p1 c Hsel)
    as (p2 & evs & Hr & Hcur & Hvals & Hval & Hdone & Hab & Hcl & Hout & Hdraw).
  rewrite Hr. exists p2, evs. split; [reflexivity|].
  rewrite Hcur, Hvals, Hval, Hdone, Hab, Hcl, Hout. simpl.
  rewrite <- app_assoc. repeat split; auto.
Qed.

Lemma no_bell_in_draws (evs : list event) :
  Forall (fun ev => is_draw ev = true) evs -> count is_bell evs = 0%nat.
Proof.
  intros H. apply SelectFacts.count_draw; [|exact H].
  intros [] ?; simpl in *; congruence.
Qed.

(** Away from the two ends [up()] and [down()] move the cursor by one: the
    value becomes that of the choice reached, the listeners are told once,
    and there is no bell. *)
Theorem up_down_move_inside (p : t) :
  on_choice p ->
  (cursor p <> 0 ->
   exists p' evs c,
     up th p = (Normal tt, p') /\
     cursor p' = cursor p - 1 /\
     selection p' = Some c /\ value_ p' = cvalue c /\
     out p' = out p ++ EFire (cvalue c) (aborted p) :: evs /\
     count is_bell evs = 0%nat /\ count is_fire evs = 0%nat) /\
  (cursor p <> Z.of_nat (List.length (values p)) - 1 ->
   exists p' evs c,
     down th p = (Normal tt, p') /\
     cursor p' = cursor p + 1 /\
     selection p' = Some c /\ value_ p' = cvalue c /\
     out p' = out p ++ EFire (cvalue c) (aborted p) :: evs /\
     count is_bell evs = 0%nat /\ count is_fire evs = 0%nat).
Proof.
  intros Hon. unfold on_choice in Hon. split; intros Hne.
  - destruct (JsFacts.index_in_range (values p) (cursor p - 1)) as [c Hc];
      [lia|].
    destruct (move_render _ c p Hc)
      as (p' & evs & Hm & Hcur & Hvals & Hval & _ & _ & _ & Hout & Hdraw).
    exists p', evs, c. unfold up.
    destruct (Z.eqb_spec (cursor p) 0); [contradiction|].
    repeat split; auto.
    + unfold selection. rewrite Hcur, Hvals. exact Hc.
    + apply no_bell_in_draws. exact Hdraw.
    + apply SelectFacts.count_draw; [|exact Hdraw].
      intros [] ?; simpl in *; congruence.
  - destruct (JsFacts.index_in_range (values p) (cursor p + 1)) as [c Hc];
      [lia|].
    destruct (move_render _ c p Hc)
      as (p' & evs & Hm & Hcur & Hvals & Hval & _ & _ & _ & Hout & Hdraw).
    exists p', evs, c. unfold down.
    destruct (Z.eqb_spec (cursor p) (Z.of_nat (List.length (values p)) - 1));
      [contradiction|].
    repeat split; auto.
    + unfold selection. rewrite Hcur, Hvals. exact Hc.
    + apply no_bell_in_draws. exact Hdraw.
    + apply SelectFacts.count_draw; [|exact Hdraw].
      intros [] ?; simpl in *; congruence.
Qed.

(** One navigation key keeps the cursor on a choice. *)
Lemma press_on_choice (k : key) (p : t) :
  on_choice p ->
  exists p',
    press th k p = (Normal tt, p') /\
    on_choice p' /\ values p' = values p /\
    done p' = done p /\ aborted p' = aborted p /\ closed p' = closed p /\
    (in_sync p -> in_sync p') /\
    (cursor p' <> cursor p -> in_sync p').
Proof.
  intros Hon. unfold on_choice in Hon.
  assert (Hbell : exists p',
            (Normal tt, bell p) = (Normal tt, p') /\
            on_choice p' /\ values p' = values p /\
            done p' = done p /\ aborted p' = aborted p /\
            closed p' = closed p /\
            (in_sync p -> in_sync p') /\
            (cursor p' <> cursor p -> in_sync p')).
  { exists (bell p). split; [reflexivity|]. split; [exact Hon|].
    do 4 (split; [reflexivity|]). split; [intros H; exact H|].
    intros H. exfalso. apply H. reflexivity. }
  assert (Hmove : forall n,
            0 <= n < Z.of_nat (List.length (values p)) ->
            exists p',
              andThen (moveCursor n) (render th) p = (Normal tt, p') /\
              on_choice p' /\ values p' = values p /\
              done p' = done p /\ aborted p' = aborted p /\
              closed p' = closed p /\
              (in_sync p -> in_sync p') /\
              (cursor p' <> cursor p -> in_sync p')).
  { intros n Hn.
    destruct (JsFacts.index_in_range (values p) n Hn) as [c Hc].
    destruct (move_render n c p Hc)
      as (p' & evs & Hm & Hcur & Hvals & Hval & Hd & Ha & Hcl & _).
    assert (Hsync : in_sync p').
    { exists c. unfold selection. rewrite Hcur, Hvals. auto. }
    exists p'. split; [exact Hm|]. split.
    { unfold on_choice. rewrite Hcur, Hvals. exact Hn. }
    do 4 (split; [assumption|]). split; intros _; exact Hsync. }
  destruct k; cbn [press].
  - unfold up. destruct (Z.eqb_spec (cursor p) 0); [exact Hbell|].
    apply Hmove. lia.
  - unfold down.
    destruct (Z.eqb_spec (cursor p) (Z.of_nat (List.length (values p)) - 1));
      [exact Hbell|].
    apply Hmove. lia.
  - unfold next. apply Hmove.
    rewrite Z.rem_mod_nonneg by lia. apply Z.mod_pos_bound. lia.
  - unfold last. apply Hmove. lia.
Qed.

(** Whatever the sequence of [up()], [down()], [next()] and [last()], from
    a cursor on a choice every call returns, the cursor stays on a choice,
    the list and the terminal flags are untouched, and a value that was the
    one under the cursor still is. *)
Theorem presses_stay_on_choice (ks : list key) (p : t) :
  on_choice p ->
  exists p',
    presses th ks p = (Normal tt, p') /\
    on_choice p' /\ values p' = values p /\
    done p' = done p /\ aborted p' = aborted p /\ closed p' = closed p /\
    (in_sync p -> in_sync p').
Proof.
  revert p. induction ks as [|k ks IH]; intros p Hon.
  - exists p. split; [reflexivity|]. split; [exact Hon|].
    do 4 (split; [reflexivity|]). intros H; exact H.
  - destruct (press_on_choice k p Hon)
      as (p1 & Hk & Hon1 & Hv1 & Hd1 & Ha1 & Hc1 & Hs1 & _).
    destruct (IH p1 Hon1) as (p2 & Hks & Hon2 & Hv2 & Hd2 & Ha2 & Hc2 & Hs2).
    exists p2. cbn [presses]. rewrite Hk.
    split; [exact Hks|]. split; [exact Hon2|].
    do 4 (split; [congruence|]). auto.
Qed.

(** [abort()] ends the prompt whether the choice under the cursor is
    disabled or not: [done] and [aborted] are set, the listeners are told
    once, with the aborted flag, and the prompt is closed once, without a
    bell; the cursor and the value stay. *)
Theorem abort_finishes (p : t) (sel : choice) :
  selection p = Some sel ->
  exists p' evs,
    abort th p = (Normal tt, p') /\
    done p' = true /\ aborted p' = true /\ closed p' = true /\
    cursor p' = cursor p /\ value_ p' = value_ p /\
    out p' = out p ++ EFire (value_ p) true :: evs /\
    count is_close evs = 1%nat /\
    count is_fire evs = 0%nat /\
    count is_bell evs = 0%nat.
Proof.
  intros Hsel. unfold abort.
  unfold andThen at 1. unfold lift at 1.
  set (p1 := fire (set_done true true p)).
  assert (Hsel1 : selection p1 = Some sel) by exact Hsel.
  destruct (SelectFacts.render_draws th p1 sel Hsel1)
    as (p2 & evs & Hr & Hcur & Hvals & Hval & Hdone & Hab & Hcl & Hout & Hdraw).
  unfold andThen. rewrite Hr. unfold lift.
  eexists. exists (evs ++ [EWrite (String (ascii_of_nat 10) ""); EClose]).
  split; [reflexivity|].
  unfold close. simpl. rewrite Hdone, Hab, Hcur, Hval, Hout. simpl.
  repeat split; auto.
  - rewrite <- !app_assoc. reflexivity.
  - rewrite SelectFacts.count_app, (SelectFacts.count_draw is_close evs);
      auto.
    intros [] ?; simpl in *; congruence.
  - rewrite SelectFacts.count_app, (SelectFacts.count_draw is_fire evs);
      auto.
    intros [] ?; simpl in *; congruence.
  - rewrite SelectFacts.count_app, (SelectFacts.count_draw is_bell evs);
      auto.
    intros [] ?; simpl in *; congruence.
Qed.

End WithTheme.

End SelectMore.

(* ===================================================================== *)
(** ** Further properties of Spinner *)
(* ===================================================================== *)

Module SpinnerMore.

Import Spinner Calls.
Local Open Scope list_scope.

(** *** Stream calls of the methods *)

Lemma erasures_from (evs : list event) :
  forall a, fold_left erasure_step evs a = a + erasures evs.
Proof.
  unfold erasures. induction evs as [|ev evs IH]; intros a; simpl.
  - lia.
  - rewrite (IH (erasure_step a ev)), (IH (erasure_step 0 ev)).
    generalize (fold_left erasure_step evs 0). intros r.
    destruct ev; cbn [erasure_step]; lia.
Qed.

Lemma erasures_app (evs evs' : list event) :
  erasures (evs ++ evs') = erasures evs + erasures evs'.
Proof.
  unfold erasures at 1. rewrite fold_left_app. apply erasures_from.
Qed.

Lemma clear_events_no_write (k : nat) :
  forall i, Forall (fun ev => is_write ev = false) (clear_events i k).
Proof.
  induction k as [|k IH]; intros i; simpl.
  - constructor.
  - apply Forall_app. split.
    + destruct (i >? 0); repeat constructor.
    + repeat constructor. apply IH.
Qed.

(** [clear()] returns the spinner itself, or the spinner after the calls of
    its loop with [linesToClear] back to 0. *)
Lemma clear_shape (s : t) :
  (isEnabled s && isTTY (stream s) = false /\ clear s = s) \/
  (isEnabled s && isTTY (stream s) = true /\
   clear s
   = set_linesToClear 0
       (emits (clear_events 0 (Z.to_nat (linesToClear s))) s)).
Proof.
  unfold clear. destruct (isEnabled s), (isTTY (stream s)); simpl; auto.
  right. rewrite ScreenFacts.clear_loop_emits. auto.
Qed.

(** *** Starting *)

(** [start(text)] on a disabled spinner writes the one static line, with
    the text just given if there is one, and nothing else happens: no timer,
    no cursor call, and [stop()] then has nothing to do. *)
Theorem start_disabled_static_line (e : env) (txt : option string) (s : t) :
  isEnabled s = false ->
  exists s',
    start e txt s = (Normal tt, s') /\
    text s' = match txt with
              | Some v => if (v =? "")%string then text s else v
              | None => text s
              end /\
    issued s s' = [Write ("- " ++ text s' ++ nl)%string] /\
    id s' = id s /\
    linesToClear s' = linesToClear s /\
    stop s' = s'.
Proof.
  intros Hen. unfold start.
  set (s1 := match txt with
             | Some v => if negb (v =? "")%string then set_text e v s else s
             | None => s
             end).
  assert (H1 : isEnabled s1 = false /\ stream s1 = stream s /\
               id s1 = id s /\ linesToClear s1 = linesToClear s /\
               text s1 = match txt with
                         | Some v => if (v =? "")%string then text s else v
                         | None => text s
                         end).
  { unfold s1. destruct txt as [v|]; [|auto].
    destruct (v =? "")%string; simpl; auto. }
  destruct H1 as (Hen1 & Hst1 & Hid1 & Hltc1 & Htx1).
  rewrite Hen1. cbn [negb]. eexists. split; [reflexivity|].
  split; [exact Htx1|]. split.
  { apply ScreenFacts.issued_app. cbn [emit stream output text].
    rewrite Hst1. reflexivity. }
  split; [exact Hid1|]. split; [exact Hltc1|].
  unfold stop. cbn [isEnabled emit]. rewrite Hen1. reflexivity.
Qed.

(** [start(text)] on a spinner that is already spinning only takes the new
    text: no stream call, the timer and the frame index stay. *)
Theorem start_while_spinning (e : env) (txt : option string) (s : t) :
  isEnabled s = true ->
  isSpinning s = true ->
  exists s',
    start e txt s = (Normal tt, s') /\
    text s' = match txt with
              | Some v => if (v =? "")%string then text s else v
              | None => text s
              end /\
    issued s s' = [] /\
    id s' = id s /\ frameIndex s' = frameIndex s /\
    linesToClear s' = linesToClear s.
Proof.
  intros Hen Hspin. unfold start.
  set (s1 := match txt with
             | Some v => if negb (v =? "")%string then set_text e v s else s
             | None => s
             end).
  assert (H1 : isEnabled s1 = true /\ isSpinning s1 = true /\
               stream s1 = stream s /\ id s1 = id s /\
               frameIndex s1 = frameIndex s /\
               linesToClear s1 = linesToClear s /\
               text s1 = match txt with
                         | Some v => if (v =? "")%string then text s else v
                         | None => text s
                         end).
  { unfold s1. destruct txt as [v|]; [|repeat split; auto].
    destruct (v =? "")%string; simpl; repeat split; auto. }
  destruct H1 as (Hen1 & Hsp1 & Hst1 & Hid1 & Hfi1 & Hltc1 & Htx1).
  rewrite Hen1, Hsp1. cbn [negb]. exists s1.
  repeat split; try assumption.
  unfold issued. rewrite Hst1. apply skipn_all.
Qed.

(** *** Stopping *)

Lemma stop_on_terminal (x : t) :
  isEnabled x = true ->
  isTTY (stream x) = true ->
  exists evs,
    output (stream (stop x)) = output (stream x) ++ evs /\
    erasures evs = Z.max 0 (linesToClear x) /\
    Forall (fun ev => is_write ev = false) evs /\
    isEnabled (stop x) = true /\ isTTY (stream (stop x)) = true /\
    id (stop x) = None /\ frameIndex (stop x) = Num 0 /\
    linesToClear (stop x) = 0 /\ text (stop x) = text x.
Proof.
  intros Hen Htty. unfold stop. rewrite Hen. cbn [negb].
  set (x1 := set_frameIndex (Num 0) (set_id None x)).
  destruct (clear_shape x1) as [[Hoff _]|[_ Hclear]].
  { unfold x1 in Hoff. simpl in Hoff. rewrite Hen, Htty in Hoff.
    discriminate. }
  rewrite Hclear. unfold x1.
  cbn [set_linesToClear emits set_frameIndex set_id hideCursor
       linesToClear].
  set (k := Z.to_nat (linesToClear x)).
  assert (Hk : erasures (clear_events 0 k) = Z.max 0 (linesToClear x)).
  { unfold erasures. rewrite ScreenFacts.erasures_clear_events.
    unfold k. lia. }
  destruct (hideCursor x).
  - exists (clear_events 0 k ++ [ShowCursor]).
    simpl. rewrite <- app_assoc. repeat split; auto.
    + rewrite erasures_app, Hk. unfold erasures. simpl. lia.
    + apply Forall_app. split; [apply clear_events_no_write|].
      repeat constructor.
  - exists (clear_events 0 k).
    simpl. repeat split; auto. apply clear_events_no_write.
Qed.

(** [stop()] on an enabled spinner on a terminal erases as many rows as
    [linesToClear] counts, writes nothing, forgets the timer and rewinds the
    frames; stopping again erases nothing. *)
Theorem stop_erases_and_resets (s : t) :
  isEnabled s = true ->
  isTTY (stream s) = true ->
  erasures (issued s (stop s)) = Z.max 0 (linesToClear s) /\
  Forall (fun ev => is_write ev = false) (issued s (stop s)) /\
  id (stop s) = None /\
  frameIndex (stop s) = Num 0 /\
  linesToClear (stop s) = 0 /\
  text (stop s) = text s /\
  erasures (issued (stop s) (stop (stop s))) = 0.
Proof.
  intros Hen Htty.
  destruct (stop_on_terminal s Hen Htty)
    as (evs & Hout & Her & Hnw & Hen' & Htty' & Hid & Hfi & Hltc & Htx).
  destruct (stop_on_terminal (stop s) Hen' Htty') as (evs2 & Hout2 & Her2 & _).
  rewrite (ScreenFacts.issued_app _ _ _ Hout).
  rewrite (ScreenFacts.issued_app _ _ _ Hout2).
  rewrite Her2, Hltc. repeat split; auto.
Qed.

(** *** The frames *)

(** While the timer runs on a spinner with frames and a usable colour,
    every firing draws the next frame of the list and starts over after the
    last: after [n] firings from index [i] the index is [(i + n) mod len],
    and the frame last written is the glyph before it. *)
Theorem ticks_cycle_frames (e : env) (fs : list string) (paint : painter)
    (n : nat) :
  forall (s : t) (i : Z),
    frames (spinner s) = Some fs ->
    frame_painter e (color_ s) = Some paint ->
    isSpinning s = true ->
    frameIndex s = Num i ->
    0 <= i < Z.of_nat (List.length fs) ->
    exists s',
      ticks e n s = (Normal tt, s') /\
      frameIndex s' = Num ((i + Z.of_nat n) mod Z.of_nat (List.length fs)) /\
      text s' = text s /\
      (n <> O ->
       exists g,
         index fs ((i + Z.of_nat n - 1) mod Z.of_nat (List.length fs))
         = Some g /\
         last_write (output (stream s'))
         = Some (paint g ++ " " ++ text s)%string).
Proof.
  induction n as [|n IH]; intros s i Hfs Hpaint Hspin Hi Hrange.
  - exists s. split; [reflexivity|]. split.
    + rewrite Z.add_0_r, Z.mod_small by lia. exact Hi.
    + split; [reflexivity|]. intros H. contradiction.
  - cbn [ticks]. unfold tick. rewrite Hspin.
    destruct (WrapperFacts.clear_keeps s) as (Hsp & Hcol & Hid & _ & Htx).
    destruct (JsFacts.index_in_range fs i Hrange) as [g Hg].
    assert (Hclear : exists c, clear s = c /\ spinner c = spinner s /\
                     color_ c = color_ s /\ id c = id s /\
                     text c = text s /\ frameIndex c = frameIndex s).
    { exists (clear s). repeat split; auto.
      destruct (clear_shape s) as [[_ ->]|[_ ->]]; reflexivity. }
    destruct Hclear as (c & Hc & Hsp' & Hcol' & Hid' & Htx' & Hfi').
    assert (Hframe : frame e c
                     = (Normal (paint g ++ " " ++ text s)%string,
                        set_frameIndex
                          (Num ((i + 1) mod Z.of_nat (List.length fs))) c)).
    { unfold frame. rewrite Hsp', Hfs, Hfi', Hi, Hg, Hcol', Hpaint, Htx'.
      destruct fs as [|f fs']; [simpl in Hrange; lia|].
      rewrite Z.rem_mod_nonneg by lia. reflexivity. }
    unfold render. rewrite Hc, Hframe.
    set (s1 := set_linesToClear _ _).
    assert (Hrange1 : 0 <= (i + 1) mod Z.of_nat (List.length fs)
                      < Z.of_nat (List.length fs))
      by (apply Z.mod_pos_bound; lia).
    destruct (IH s1 ((i + 1) mod Z.of_nat (List.length fs)))
      as (s' & Ht & Hfi2 & Htx2 & Hlast); try assumption.
    { unfold s1. simpl. congruence. }
    { unfold s1. simpl. congruence. }
    { unfold s1, isSpinning in *. simpl. rewrite Hid'. exact Hspin. }
    { reflexivity. }
    exists s'. split; [exact Ht|].
    assert (Htext1 : text s1 = text s) by (unfold s1; simpl; exact Htx').
    split; [|split].
    + rewrite Hfi2. f_equal.
      rewrite Zplus_mod_idemp_l. f_equal. lia.
    + congruence.
    + intros _. destruct n as [|n'].
      * exists g. split.
        -- replace (i + Z.of_nat 1 - 1) with i by lia.
           rewrite Z.mod_small by lia. exact Hg.
        -- cbn [ticks] in Ht. injection Ht as <-.
           unfold s1. cbn [set_linesToClear emit stream output].
           apply WrapperFacts.last_write_snoc.
      * destruct (Hlast ltac:(discriminate)) as (g' & Hg' & Hw).
        exists g'. split.
        -- rewrite <- Hg'. f_equal. symmetry.
           replace ((i + 1) mod Z.of_nat (List.length fs)
                    + Z.of_nat (S n') - 1)
             with ((i + 1) mod Z.of_nat (List.length fs)
                   + (Z.of_nat (S n') - 1)) by lia.
           rewrite Zplus_mod_idemp_l. f_equal. lia.
        -- rewrite Hw, Htext1. reflexivity.
Qed.

(** *** A colour that cannot be applied *)

Lemma start_unusable_colour (e : env) (s : t) (v : value) :
  color_ s = CVal v ->
  chalk e (to_string v) = None ->
  truthy v = true ->
  frames (spinner s) <> None ->
  isEnabled s = true ->
  isSpinning s = false ->
  exists err s',
    start e None s = (Throw err, s') /\
    isSpinning s' = false /\
    Forall (fun ev => is_write ev = false) (issued s s') /\
    (hideCursor s = true -> exists evs, issued s s' = HideCursor :: evs).
Proof.
  intros Hcol Hchalk Htruthy Hfs Hen Hspin.
  unfold start. rewrite Hen, Hspin. cbn [negb].
  set (s2 := if hideCursor s then emit HideCursor s else s).
  assert (H2 : color_ s2 = CVal v /\ spinner s2 = spinner s /\
               id s2 = id s /\
               exists pre, output (stream s2) = output (stream s) ++ pre /\
                           Forall (fun ev => is_write ev = false) pre /\
                           (hideCursor s = true -> pre = [HideCursor])).
  { unfold s2. destruct (hideCursor s); simpl.
    - repeat split; auto. exists [HideCursor]. repeat split; auto.
    - repeat split; auto. exists []. rewrite app_nil_r.
      repeat split; auto. discriminate. }
  destruct H2 as (Hcol2 & Hsp2 & Hid2 & pre & Hpre & Hprew & Hhide).
  destruct (WrapperFacts.clear_keeps s2) as (Hsp3 & Hcol3 & Hid3 & _ & _).
  assert (Hframe : exists err, frame e (clear s2) = (Throw err, clear s2)).
  { unfold frame. rewrite Hsp3, Hsp2, Hcol3, Hcol2.
    destruct (frames (spinner s)); [|congruence].
    cbn [frame_painter]. rewrite Hchalk, Htruthy. eexists. reflexivity. }
  destruct Hframe as (err & Hframe).
  unfold render. rewrite Hframe. exists err, (clear s2).
  split; [reflexivity|].
  assert (Hout : exists evs,
            output (stream (clear s2)) = output (stream s2) ++ evs /\
            Forall (fun ev => is_write ev = false) evs).
  { destruct (clear_shape s2) as [[_ ->]|[_ ->]].
    - exists []. rewrite app_nil_r. auto.
    - eexists. split; [reflexivity|]. apply clear_events_no_write. }
  destruct Hout as (evs & Hout & Hevs).
  assert (Hall : output (stream (clear s2))
                 = output (stream s) ++ (pre ++ evs))
    by (rewrite Hout, Hpre, app_assoc; reflexivity).
  rewrite (ScreenFacts.issued_app _ _ _ Hall).
  split; [|split].
  - unfold isSpinning in *. rewrite Hid3, Hid2. exact Hspin.
  - apply Forall_app. auto.
  - intros Hh. rewrite (Hhide Hh). exists evs. reflexivity.
Qed.

(** With a colour that is neither a function nor a name [chalk] knows,
    [start()] throws out of its first render: by then the cursor is hidden
    if it was to be, what stood on the screen is erased, nothing is written
    and no timer is set. *)
Theorem start_throws_on_unusable_colour (e : env) (s : t) (v : value) :
  color_ s = CVal v ->
  chalk e (to_string v) = None ->
  truthy v = true ->
  frames (spinner s) <> None ->
  isEnabled s = true ->
  isSpinning s = false ->
  exists err s',
    start e None s = (Throw err, s') /\
    isSpinning s' = false /\
    Forall (fun ev => is_write ev = false) (issued s s') /\
    (hideCursor s = true -> exists evs, issued s s' = HideCursor :: evs).
Proof.
  apply start_unusable_colour.
Qed.

(** *** Rows *)

(** Whatever the text and the width of the terminal, the text setter
    counts at least one row for every line of the text, so at least one. *)
Theorem lineCount_at_least_lines (e : env) (v : string) (s : t) :
  Z.of_nat (List.length (split_lines (stripAnsi e ("--" ++ v)%string)))
  <= lineCount (set_text e v s) /\
  1 <= lineCount (set_text e v s).
Proof.
  unfold set_text. cbn [lineCount]. unfold count_rows.
  rewrite SpinnerFacts.fold_left_rows.
  pose proof (SpinnerFacts.split_lines_not_nil
                (stripAnsi e ("--" ++ v)%string)) as Hne.
  set (ls := split_lines (stripAnsi e ("--" ++ v)%string)) in *.
  assert (Hsum : Z.of_nat (List.length ls)
                 <= fold_right
                      (fun l r =>
                         Z.max 1
                           (ceil_div (wcwidth e l)
                              (columns_or_80 (stream s))) + r) 0 ls).
  { clear Hne. induction ls as [|l ls IH].
    - simpl. lia.
    - cbn [fold_right List.length]. lia. }
  split; [lia|].
  destruct ls as [|l ls]; [congruence|]. cbn [List.length] in Hsum. lia.
Qed.

(** *** A disabled spinner *)

Lemma persist_shape (e : env) (o : popts) (s : t) :
  (exists err, stopAndPersist e o s = (Throw err, stop s)) \/
  (exists w, stopAndPersist e o s = (Normal tt, emit (Write w) (stop s))).
Proof.
  unfold stopAndPersist.
  destruct (callee e (or_default (p_color o) (CFun (chalk_cyan e)))).
  - right. eexists. reflexivity.
  - left. eexists. reflexivity.
Qed.

Lemma perform_disabled (e : env) (c : call) (s : t) :
  isEnabled s = false ->
  isEnabled (perform e c s) = false /\
  id (perform e c s) = id s /\
  exists evs,
    output (stream (perform e c s)) = output (stream s) ++ evs /\
    Forall (fun ev => is_write ev = true) evs.
Proof.
  intros Hen.
  assert (Hsame : forall x, x = s ->
            isEnabled x = false /\ id x = id s /\
            exists evs, output (stream x) = output (stream s) ++ evs /\
                        Forall (fun ev => is_write ev = true) evs).
  { intros x ->. repeat split; auto. exists []. rewrite app_nil_r. auto. }
  assert (Hwrite : forall w x, x = emit (Write w) s ->
            isEnabled x = false /\ id x = id s /\
            exists evs, output (stream x) = output (stream s) ++ evs /\
                        Forall (fun ev => is_write ev = true) evs).
  { intros w x ->. repeat split; auto. exists [Write w]. auto. }
  assert (Hstop : stop s = s) by (unfold stop; rewrite Hen; reflexivity).
  assert (Hpersist : forall o,
            isEnabled (snd (stopAndPersist e o s)) = false /\
            id (snd (stopAndPersist e o s)) = id s /\
            exists evs,
              output (stream (snd (stopAndPersist e o s)))
              = output (stream s) ++ evs /\
              Forall (fun ev => is_write ev = true) evs).
  { intros o. destruct (persist_shape e o s) as [[err ->]|[w ->]];
      rewrite Hstop; cbn [snd].
    - apply Hsame. reflexivity.
    - apply (Hwrite w). reflexivity. }
  destruct c as [o|arg|arg|arg|arg|o]; cbn [perform];
    try apply Hpersist.
  destruct o as [v| | |txt|]; cbn [step].
  - repeat split; auto. exists []. rewrite app_nil_r. auto.
  - unfold render.
    rewrite (ScreenFacts.clear_off_terminal s (or_introl Hen)).
    destruct (ScreenFacts.frame_cases e s) as [[err ->]|(fr & n & ->)];
      cbn [snd].
    + apply Hsame. reflexivity.
    + repeat split; auto. exists [Write fr]. auto.
  - apply Hsame. apply ScreenFacts.clear_off_terminal. left. exact Hen.
  - unfold start.
    set (s1 := match txt with
               | Some v => if negb (v =? "")%string then set_text e v s
                           else s
               | None => s
               end).
    assert (H1 : isEnabled s1 = false /\ stream s1 = stream s /\
                 id s1 = id s).
    { unfold s1. destruct txt as [v|]; [|auto].
      destruct (negb (v =? "")%string); simpl; auto. }
    destruct H1 as (Hen1 & Hst1 & Hid1). rewrite Hen1. cbn [negb snd].
    repeat split; auto. eexists. cbn [emit stream output].
    rewrite Hst1. split; [reflexivity|]. auto.
  - apply Hsame. exact Hstop.
Qed.

(** A disabled spinner only ever writes: whatever is called on it, text
    changes, renders, clears, starts, stops and the terminal states, no
    timer appears and the stream gets no cursor or erase call. *)
Theorem disabled_only_writes (e : env) (cs : list call) (s : t) :
  isEnabled s = false ->
  isEnabled (performs e cs s) = false /\
  id (performs e cs s) = id s /\
  Forall (fun ev => is_write ev = true) (issued s (performs e cs s)).
Proof.
  intros Hen.
  assert (Hgen : forall x pre,
            isEnabled x = false -> id x = id s ->
            output (stream x) = output (stream s) ++ pre ->
            Forall (fun ev => is_write ev = true) pre ->
            isEnabled (performs e cs x) = false /\
            id (performs e cs x) = id s /\
            exists evs,
              output (stream (performs e cs x)) = output (stream s) ++ evs /\
              Forall (fun ev => is_write ev = true) evs).
  { induction cs as [|c cs IH]; intros x pre Hx Hid Hout Hpre.
    - cbn [performs fold_left]. repeat split; auto. exists pre. auto.
    - cbn [performs fold_left].
      destruct (perform_disabled e c x Hx) as (Hx' & Hid' & evs & Hout' & Hev).
      apply (IH _ (pre ++ evs)); auto.
      + congruence.
      + rewrite Hout', Hout, app_assoc. reflexivity.
      + apply Forall_app. auto. }
  destruct (Hgen s [] Hen eq_refl ltac:(rewrite app_nil_r; reflexivity)
              ltac:(constructor)) as (H1 & H2 & evs & Hout & Hevs).
  rewrite (ScreenFacts.issued_app _ _ _ Hout). auto.
Qed.

(** The spinner of the merge script, made without options, under a
    continuous-integration run or with a standard error that is not a
    terminal: [start(text)] then [succeed(message)] leave exactly two lines,
    the static one and the persisted one. *)
Theorem plain_run_two_lines (e : env) (s0 : t) (txt m : string) :
  env_CI e = true \/ isTTY (stderr e) = false ->
  new e ArgUndef = Normal s0 ->
  txt <> ""%string ->
  issued s0 (performs e [Do (OpStart (Some txt)); Succeed (VStr m)] s0)
  = [Write ("- " ++ txt ++ nl)%string;
     Write (persist_line (VStr (sym_success e)) (chalk_green e) (VStr m))].
Proof.
  intros Hoff Hnew Htxt.
  assert (Hen : isEnabled s0 = false).
  { unfold new in Hnew. simpl in Hnew.
    destruct (frames _); [|discriminate]. injection Hnew as <-. simpl.
    destruct Hoff as [-> | ->]; [apply andb_false_r|reflexivity]. }
  assert (Hstart : start e (Some txt) s0
                   = (Normal tt,
                      emit (Write ("- " ++ txt ++ nl)%string)
                        (set_text e txt s0))).
  { unfold start. destruct (String.eqb_spec txt ""); [contradiction|].
    cbn [negb]. cbn [set_text isEnabled text]. rewrite Hen. reflexivity. }
  cbn [performs fold_left perform step]. rewrite Hstart. cbn [snd].
  rewrite WrapperFacts.succeed_string. cbn [snd].
  unfold stop. cbn [emit set_text isEnabled]. rewrite Hen. cbn [negb].
  apply ScreenFacts.issued_app. cbn [emit stream output].
  rewrite <- app_assoc. reflexivity.
Qed.

(** *** The terminal states *)

(** A line that [stopAndPersist] has written is not erased afterwards:
    neither [clear()] nor the next [render()] issues a [clearLine]. *)
Theorem persisted_line_not_erased (e : env) (o : popts) (s s' : t) :
  stopAndPersist e o s = (Normal tt, s') ->
  (exists w, output (stream s') = output (stream (stop s)) ++ [Write w]) /\
  erasures (issued s' (clear s')) = 0 /\
  erasures (issued s' (snd (render e s'))) = 0.
Proof.
  intros Hp.
  destruct (persist_shape e o s) as [[err Herr]|[w Hw]]; [congruence|].
  rewrite Hw in Hp. injection Hp as <-.
  assert (Hclear : clear (emit (Write w) (stop s)) = emit (Write w) (stop s)
                   \/ clear (emit (Write w) (stop s))
                      = set_linesToClear 0
                          (emits [] (emit (Write w) (stop s)))).
  { destruct (clear_shape (emit (Write w) (stop s)))
      as [[_ Hc]|[Hon Hc]]; [left; exact Hc|right].
    rewrite Hc. cbn [emit linesToClear isEnabled stream isTTY] in *.
    apply andb_prop in Hon. destruct Hon as [Hen Htty].
    assert (Hen0 : isEnabled s = true).
    { unfold stop in Hen. destruct (isEnabled s) eqn:Hs; [reflexivity|].
      simpl in Hen. congruence. }
    assert (Htty0 : isTTY (stream s) = true).
    { unfold stop in Htty. rewrite Hen0 in Htty. cbn [negb] in Htty.
      destruct (clear_shape (set_frameIndex (Num 0) (set_id None s)))
        as [[_ Hc']|[_ Hc']]; rewrite Hc' in Htty;
        destruct (hideCursor _); simpl in Htty; exact Htty. }
    destruct (stop_on_terminal s Hen0 Htty0)
      as (_ & _ & _ & _ & _ & _ & _ & _ & Hltc & _).
    rewrite Hltc. reflexivity. }
  assert (Hcout : output (stream (clear (emit (Write w) (stop s))))
                  = output (stream (emit (Write w) (stop s))) ++ []).
  { destruct Hclear as [-> | ->]; simpl; rewrite !app_nil_r; reflexivity. }
  split; [exists w; reflexivity|]. split.
  - rewrite (ScreenFacts.issued_app _ _ _ Hcout). reflexivity.
  - unfold render.
    destruct (ScreenFacts.frame_cases e (clear (emit (Write w) (stop s))))
      as [[err ->]|(fr & n & ->)]; cbn [snd].
    + rewrite (ScreenFacts.issued_app _ _ _ Hcout). reflexivity.
    + assert (Hout : output (stream
                       (set_linesToClear
                          (lineCount
                             (emit (Write fr)
                                (set_frameIndex n
                                   (clear (emit (Write w) (stop s))))))
                          (emit (Write fr)
                             (set_frameIndex n
                                (clear (emit (Write w) (stop s)))))))
                     = output (stream (emit (Write w) (stop s)))
                       ++ [Write fr]).
      { cbn [set_linesToClear emit set_frameIndex stream output].
        rewrite Hcout, app_nil_r. reflexivity. }
      rewrite (ScreenFacts.issued_app _ _ _ Hout). reflexivity.
Qed.

(** Each of [succeed], [fail], [warn] and [info], called with a string,
    stops the spinner and writes the line made of its own symbol, its own
    colour and that string; called without argument it writes the current
    text; none of these calls throws. *)
Theorem terminal_methods_with_string (e : env) (s : t) :
  (forall v,
     succeed e (VStr v) s
     = (Normal tt,
        emit (Write (persist_line (VStr (sym_success e)) (chalk_green e)
                       (VStr v))) (stop s)) /\
     fail e (VStr v) s
     = (Normal tt,
        emit (Write (persist_line (VStr (sym_error e)) (chalk_red_bold e)
                       (VStr v))) (stop s)) /\
     warn e (VStr v) s
     = (Normal tt,
        emit (Write (persist_line (VStr (sym_warning e)) (chalk_yellow e)
                       (VStr v))) (stop s)) /\
     info e (VStr v) s
     = (Normal tt,
        emit (Write (persist_line (VStr (sym_info e)) (chalk_blue e)
                       (VStr v))) (stop s))) /\
  text (stop s) = text s /\
  succeed e VUndef s
  = (Normal tt,
     emit (Write (persist_line (VStr (sym_success e)) (chalk_green e)
                    (VStr (text s)))) (stop s)) /\
  fail e VUndef s
  = (Normal tt,
     emit (Write (persist_line (VStr (sym_error e)) (chalk_red_bold e)
                    (VStr (text s)))) (stop s)) /\
  warn e VUndef s
  = (Normal tt,
     emit (Write (persist_line (VStr (sym_warning e)) (chalk_yellow e)
                    (VStr (text s)))) (stop s)) /\
  info e VUndef s
  = (Normal tt,
     emit (Write (persist_line (VStr (sym_info e)) (chalk_blue e)
                    (VStr (text s)))) (stop s)).
Proof.
  pose proof (proj2 (WrapperFacts.stop_keeps s)) as Htx.
  split; [intros v; repeat split|].
  split; [exact Htx|].
  unfold succeed, fail, warn, info, succeed_opts, fail_opts, warn_opts,
    info_opts, stopAndPersist. simpl. rewrite Htx. repeat split.
Qed.

(** An options object whose [color] is a value that is neither a function
    nor a name [chalk] knows makes [succeed] throw after it has stopped the
    spinner: the animation is gone and no line is written. *)
Theorem succeed_unknown_colour_throws (e : env)
    (props : list (string * value)) (s : t) :
  lookup "color" props <> VUndef ->
  chalk e (to_string (lookup "color" props)) = None ->
  exists err,
    succeed e (VObj props) s = (Throw err, stop s) /\
    issued (stop s) (snd (succeed e (VObj props) s)) = [].
Proof.
  intros Hdef Hchalk.
  unfold succeed, succeed_opts, stopAndPersist, persist_arg.
  cbn [typeof_string popts_of_value merge p_color p_text p_symbol pick].
  destruct (lookup "color" props) eqn:Hc; try congruence;
    cbn [defined option_map pick or_default callee];
    rewrite Hchalk; eexists; (split; [reflexivity|]);
    cbn [snd]; apply ScreenFacts.issued_refl.
Qed.


End SpinnerMore.

(* ===================================================================== *)
(** ** Further properties of the async-action wrapper *)
(* ===================================================================== *)

Module WrapperMore.

Import Spinner Calls.
Local Open Scope list_scope.

Lemma render_keeps_timer (e : env) (s : t) :
  isEnabled (snd (render e s)) = isEnabled s /\
  id (snd (render e s)) = id s.
Proof.
  unfold render.
  assert (Hc : isEnabled (clear s) = isEnabled s /\ id (clear s) = id s).
  { destruct (SpinnerMore.clear_shape s) as [[_ ->]|[_ ->]]; auto. }
  destruct (ScreenFacts.frame_cases e (clear s)) as [[err ->]|(fr & n & ->)];
    simpl; exact Hc.
Qed.


Lemma start_keeps_timer (e : env) (s : t) :
  timer_ok s -> timer_ok (snd (start e None s)).
Proof.
  intros Hs. unfold start.
  destruct (isEnabled s) eqn:Hen; cbn [negb].
  - destruct (isSpinning s); [exact Hs|].
    set (s2 := if hideCursor s then emit HideCursor s else s).
    assert (Hen2 : isEnabled s2 = true)
      by (unfold s2; destruct (hideCursor s); exact Hen).
    destruct (render_keeps_timer e s2) as [Hen3 _].
    destruct (render e s2) as [[[]|err] s3]; cbn [snd] in *;
      left; simpl; congruence.
  - cbn [snd]. destruct Hs as [Hs|Hs]; [congruence|]. right. exact Hs.
Qed.

Lemma stop_clears_timer (s : t) :
  timer_ok s -> id (stop s) = None /\ isEnabled (stop s) = isEnabled s.
Proof.
  intros Hs. unfold stop. destruct (isEnabled s) eqn:Hen; cbn [negb].
  - destruct (SpinnerMore.clear_shape
                (set_frameIndex (Num 0) (set_id None s))) as [[_ ->]|[_ ->]];
      destruct (hideCursor _); simpl; auto.
  - destruct Hs as [Hs|Hs]; [congruence|]. auto.
Qed.





(** A spinner that cannot be constructed rejects the wrapper with the
    error of the constructor, and one that cannot draw its first frame
    rejects it out of [start()], whatever the action: the spinner, if there
    is one, is not spinning. *)
Theorem wrapper_rejects_misconfiguration (e : env) (a : action)
    (arg : ctor_arg) (success failure : value) :
  instanceof_Promise a || isAsyncFunction a = true ->
  (forall err,
     new e arg = Throw err ->
     promise e a arg success failure = Normal (Rejected err None)) /\
  (forall s0 v,
     new e arg = Normal s0 ->
     color_ s0 = CVal v ->
     chalk e (to_string v) = None ->
     truthy v = true ->
     isEnabled s0 = true ->
     exists err s1,
       promise e a arg success failure = Normal (Rejected err (Some s1)) /\
       isSpinning s1 = false /\
       Forall (fun ev => is_write ev = false) (issued s0 s1)).
Proof.
  intros Hvalid. unfold promise, promise_body. rewrite Hvalid. cbn [negb].
  split.
  - intros err ->. reflexivity.
  - intros s0 v Hnew Hcol Hchalk Htruthy Hen. rewrite Hnew.
    destruct (SpinnerFacts.new_initial_state e arg s0 Hnew)
      as (Hid & _ & _ & _ & _ & Hfs).
    assert (Hspin : isSpinning s0 = false)
      by (unfold isSpinning; rewrite Hid; reflexivity).
    destruct (SpinnerMore.start_unusable_colour e s0 v Hcol Hchalk Htruthy
                Hfs Hen Hspin) as (err & s1 & Hstart & Hs1 & Hnw & _).
    rewrite Hstart. exists err, s1. auto.
Qed.

(** An object that only carries the tag ['AsyncFunction'] passes the guard
    of the wrapper although it cannot be called: the failed call is caught
    like a failure of the action and persisted as a failure line, and the
    promise of the wrapper resolves. *)
Theorem tagged_object_reported_as_failure (e : env) (arg : ctor_arg)
    (success failure : value) (s0 s1 : t) :
  new e arg = Normal s0 ->
  start e None s0 = (Normal tt, s1) ->
  isAsyncFunction (ATagged None) = true /\
  exists s txt,
    promise e (ATagged None) arg success failure
    = Normal (Resolved s (Some (Normal tt, s))) /\
    last_write (output (stream s))
    = Some (persist_line (VStr (sym_error e)) (chalk_red_bold e) txt) /\
    isSpinning s = false.
Proof.
  intros Hnew Hstart. split; [reflexivity|].
  unfold promise, promise_body. cbn [instanceof_Promise orb negb].
  replace (isAsyncFunction (ATagged None)) with true by reflexivity.
  cbn [negb]. rewrite Hnew, Hstart.
  unfold awaited, call_action. cbn [result elapsed ticks].
  assert (H1 : timer_ok s1).
  { pose proof (start_keeps_timer e s0) as H. rewrite Hstart in H.
    apply H. right. apply (SpinnerFacts.new_initial_state e arg s0 Hnew). }
  unfold on_rejected. destruct (override failure) as [m|].
  - rewrite WrapperFacts.fail_string. eexists. eexists.
    split; [reflexivity|]. split.
    + cbn [emit stream output]. apply WrapperFacts.last_write_snoc.
    + unfold isSpinning. cbn [emit id].
      rewrite (proj1 (stop_clears_timer s1 H1)). reflexivity.
  - cbn [get TypeError mkError lookup String.eqb Ascii.eqb Bool.eqb].
    simpl lookup. rewrite WrapperFacts.fail_string. eexists. eexists.
    split; [reflexivity|]. split.
    + cbn [emit stream output]. apply WrapperFacts.last_write_snoc.
    + unfold isSpinning. cbn [emit id].
      rewrite (proj1 (stop_clears_timer (set_lastResult _ s1) H1)).
      reflexivity.
Qed.

End WrapperMore.

(* ===================================================================== *)
(** ** Properties of the tag chooser *)
(* ===================================================================== *)

Module PagerFacts.

Import Pager.
Local Open Scope list_scope.

(** *** Entries and slices *)

Lemma nth_entries_from (tags : list string) :
  forall (k : Z) (j : nat),
    nth_error (entries_from k tags) j
    = option_map (fun t => entry t (k + Z.of_nat j)) (nth_error tags j).
Proof.
  induction tags as [|t tags IH]; intros k j.
  - destruct j; reflexivity.
  - destruct j as [|j]; cbn [entries_from nth_error option_map].
    + rewrite Z.add_0_r. reflexivity.
    + rewrite IH. destruct (nth_error tags j); cbn [option_map]; [|reflexivity].
      do 2 f_equal. lia.
Qed.

Lemma length_entries_from (tags : list string) :
  forall k, List.length (entries_from k tags) = List.length tags.
Proof.
  induction tags as [|t tags IH]; intros k; simpl; [reflexivity|].
  rewrite IH. reflexivity.
Qed.

(** For bounds inside the array, [slice] holds the elements from the first
    bound up to the last, excluded. *)
Lemma nth_slice {A : Type} (arr : list A) (first last : Z) (j : nat) :
  0 <= first -> 0 <= last ->
  nth_error (slice arr first last) j
  = if (Z.of_nat j <? Z.min last (Z.of_nat (List.length arr))
                      - Z.min first (Z.of_nat (List.length arr)))
    then nth_error arr (Z.to_nat first + j)
    else None.
Proof.
  intros Hf Hl. unfold slice.
  destruct (Z.ltb_spec first 0); [lia|]. destruct (Z.ltb_spec last 0); [lia|].
  set (len := Z.of_nat (List.length arr)).
  rewrite nth_error_firstn, nth_error_skipn.
  destruct (Nat.ltb_spec j (Z.to_nat (Z.min last len - Z.min first len)));
    destruct (Z.ltb_spec (Z.of_nat j) (Z.min last len - Z.min first len));
    try lia; [|reflexivity].
  f_equal. unfold len in *. lia.
Qed.

Lemma length_slice {A : Type} (arr : list A) (first last : Z) :
  0 <= first -> 0 <= last ->
  Z.of_nat (List.length (slice arr first last))
  = Z.max 0 (Z.min last (Z.of_nat (List.length arr))
             - Z.min first (Z.of_nat (List.length arr))).
Proof.
  intros Hf Hl. unfold slice.
  destruct (Z.ltb_spec first 0); [lia|]. destruct (Z.ltb_spec last 0); [lia|].
  rewrite length_firstn, length_skipn. lia.
Qed.

Lemma entry_inj (t t' : string) (i i' : Z) :
  entry t i = entry t' i' -> t = t' /\ i = i'.
Proof.
  unfold entry. intros H. injection H as -> ->. auto.
Qed.

(** The tag entries of a page. *)
Lemma in_body (tags : list string) (offset : Z) (title : string) (i : Z) :
  0 <= offset ->
  let len := Z.of_nat (List.length tags) in
  In (entry title i) (slice (entries tags) offset (end_pos len offset)) <->
  (0 <= i /\ nth_error tags (Z.to_nat i) = Some title /\
   offset <= i < offset + PAGE_SIZE /\ i < len - 1).
Proof.
  intros Hoff len. unfold PAGE_SIZE.
  destruct (Z.eq_dec len 0) as [Hz|Hnz].
  { assert (Hnil : tags = []) by (destruct tags; [reflexivity|simpl in *; lia]).
    subst tags. unfold slice, entries. cbn [entries_from].
    rewrite skipn_nil, firstn_nil. split; [intros []|].
    intros (_ & H & _). destruct (Z.to_nat i); discriminate. }
  assert (Hlen : 1 <= len) by lia.
  assert (Hend : 0 <= end_pos len offset).
  { unfold end_pos, PAGE_SIZE. destruct (offset + 10 >=? len); lia. }
  assert (Hend' : end_pos len offset = Z.min (offset + 10) (len - 1)).
  { unfold end_pos, PAGE_SIZE.
    destruct (Z.geb_spec (offset + 10) len); lia. }
  split.
  - intros Hin. apply In_nth_error in Hin. destruct Hin as [j Hj].
    rewrite (nth_slice _ _ _ j Hoff Hend) in Hj.
    unfold entries in Hj. rewrite length_entries_from in Hj. fold len in Hj.
    destruct (Z.ltb_spec (Z.of_nat j)
                (Z.min (end_pos len offset) len - Z.min offset len));
      [|discriminate].
    rewrite nth_entries_from in Hj.
    destruct (nth_error tags (Z.to_nat offset + j)) as [t|] eqn:Ht;
      [|discriminate].
    cbn [option_map] in Hj.
    assert (Hj' : entry t (0 + Z.of_nat (Z.to_nat offset + j))
                  = entry title i) by congruence.
    apply entry_inj in Hj'. destruct Hj' as [-> Hi].
    assert (Hieq : i = offset + Z.of_nat j) by lia.
    subst i. split; [lia|]. split.
    + rewrite <- Ht. f_equal. lia.
    + lia.
  - intros (Hi & Hnth & Hrange & Hlast).
    set (j := Z.to_nat (i - offset)).
    apply (nth_error_In _ j).
    rewrite (nth_slice _ _ _ j Hoff Hend).
    unfold entries. rewrite length_entries_from. fold len.
    destruct (Z.ltb_spec (Z.of_nat j)
                (Z.min (end_pos len offset) len - Z.min offset len));
      [|unfold j in *; lia].
    rewrite nth_entries_from.
    replace (Z.to_nat offset + j)%nat with (Z.to_nat i) by (unfold j; lia).
    rewrite Hnth. cbn [option_map]. do 2 f_equal. unfold j. lia.
Qed.

(** What a page is made of. *)
Lemma page_shape (tags : list string) (offset : Z) :
  let len := Z.of_nat (List.length tags) in
  page tags offset
  = (if offset >? 0 then [PREV] else [])
    ++ slice (entries tags) offset (end_pos len offset)
    ++ (if end_pos len offset <? len - 1 then [NEXT] else []).
Proof.
  intros len. unfold page. fold len.
  destruct (offset >? 0), (end_pos len offset <? len - 1);
    cbn [app]; rewrite ?app_nil_r; reflexivity.
Qed.

(** The members of a page: the entry of going back when there is a page
    before, tag entries, the entry of going on when tags are left. *)
Lemma in_page (tags : list string) (offset : Z) (c : value) :
  0 <= offset ->
  let len := Z.of_nat (List.length tags) in
  In c (page tags offset) <->
  ((c = PREV /\ 0 < offset) \/
   (c = NEXT /\ offset + PAGE_SIZE < len - 1) \/
   (exists title i,
      c = entry title i /\ 0 <= i /\
      nth_error tags (Z.to_nat i) = Some title /\
      offset <= i < offset + PAGE_SIZE /\ i < len - 1)).
Proof.
  intros Hoff len. rewrite page_shape. fold len.
  rewrite !in_app_iff.
  assert (Hnext : (end_pos len offset <? len - 1) = true
                  <-> offset + PAGE_SIZE < len - 1).
  { unfold end_pos, PAGE_SIZE.
    destruct (Z.geb_spec (offset + 10) len);
      destruct (Z.ltb_spec (len - 1) (len - 1));
      destruct (Z.ltb_spec (offset + 10) (len - 1)); split; intros;
      try lia; try discriminate; reflexivity. }
  assert (Hbody : In c (slice (entries tags) offset (end_pos len offset)) <->
                  exists title i,
                    c = entry title i /\ 0 <= i /\
                    nth_error tags (Z.to_nat i) = Some title /\
                    offset <= i < offset + PAGE_SIZE /\ i < len - 1).
  { split.
    - intros Hin. destruct (In_nth_error _ _ Hin) as [j Hj].
      assert (Hc : exists title i, c = entry title i).
      { assert (Hsub : forall l n (x : value),
                  nth_error (firstn n l) j = Some x -> In x l).
        { intros l n x Hx. rewrite nth_error_firstn in Hx.
          destruct (j <? n)%nat; [|discriminate].
          eapply nth_error_In. exact Hx. }
        unfold slice in Hj. apply Hsub in Hj.
        assert (Hin2 : In c (entries tags)).
        { destruct (In_nth_error _ _ Hj) as [k Hk].
          rewrite nth_error_skipn in Hk. eapply nth_error_In. exact Hk. }
        destruct (In_nth_error _ _ Hin2) as [k Hk].
        unfold entries in Hk. rewrite nth_entries_from in Hk.
        destruct (nth_error tags k) as [t|]; [|discriminate].
        injection Hk as <-. eexists. eexists. reflexivity. }
      destruct Hc as (title & i & ->). exists title, i.
      split; [reflexivity|]. apply (in_body tags offset title i Hoff).
      exact Hin.
    - intros (title & i & -> & H). apply (in_body tags offset title i Hoff).
      exact H. }
  rewrite Hbody. split.
  - intros [Hp|[Hb|Hn]].
    + destruct (Z.gtb_spec offset 0); [|contradiction].
      destruct Hp as [<-|[]]. left. split; [reflexivity|lia].
    + right. right. exact Hb.
    + destruct (end_pos len offset <? len - 1) eqn:He; [|contradiction].
      destruct Hn as [<-|[]]. right. left.
      split; [reflexivity|]. apply Hnext. reflexivity.
  - intros [[-> Hp]|[[-> Hn]|Hb]].
    + left. destruct (Z.gtb_spec offset 0); [left; reflexivity|lia].
    + right. right. rewrite (proj2 Hnext Hn). left. reflexivity.
    + right. left. exact Hb.
Qed.

(** *** Pages *)

(** A page offers exactly the tags from its offset on, ten at most, and
    never the last element of the tag list; with the two entries for turning
    pages it has twelve entries at most. *)
Theorem page_offers_tags_before_last (tags : list string) (offset : Z)
    (title : string) (i : Z) :
  0 <= offset ->
  0 <= i ->
  (In (entry title i) (page tags offset) <->
   (nth_error tags (Z.to_nat i) = Some title /\
    offset <= i < offset + PAGE_SIZE /\
    i < Z.of_nat (List.length tags) - 1)) /\
  ~ In (entry title (Z.of_nat (List.length tags) - 1)) (page tags offset) /\
  Z.of_nat (List.length (page tags offset)) <= PAGE_SIZE + 2.
Proof.
  intros Hoff Hi. set (len := Z.of_nat (List.length tags)).
  assert (Hentry : forall t k,
            0 <= k ->
            (In (entry t k) (page tags offset) <->
             (nth_error tags (Z.to_nat k) = Some t /\
              offset <= k < offset + PAGE_SIZE /\ k < len - 1))).
  { intros t k Hk. rewrite (in_page tags offset (entry t k) Hoff). fold len.
    split.
    - intros [[Hp _]|[[Hn _]|(t' & k' & He & _ & H)]].
      + unfold PREV in Hp. apply (entry_inj t _ k _) in Hp. lia.
      + unfold NEXT in Hn. apply (entry_inj t _ k _) in Hn. lia.
      + apply entry_inj in He. destruct He as [-> ->]. exact H.
    - intros H. right. right. exists t, k. auto. }
  split; [apply Hentry; exact Hi|]. split.
  - intros Hin. assert (Hnn : 0 <= len) by (unfold len; lia).
    destruct (Z_lt_le_dec (len - 1) 0) as [Hneg|Hpos].
    + rewrite (in_page tags offset _ Hoff) in Hin. fold len in Hin.
      unfold PAGE_SIZE in Hin.
      destruct Hin as [[Hp _]|[[_ Hn]|(t' & k' & He & Hk & _ & _ & Hl)]].
      * unfold PREV in Hp. apply (entry_inj title _ _ _) in Hp. lia.
      * lia.
      * apply entry_inj in He. lia.
    + apply (Hentry title (len - 1) Hpos) in Hin. lia.
  - rewrite page_shape. fold len. rewrite !length_app, !Nat2Z.inj_add.
    assert (Hend : 0 <= end_pos len offset \/ len = 0).
    { unfold end_pos, PAGE_SIZE. destruct (offset + 10 >=? len); lia. }
    assert (Hbody : Z.of_nat (List.length
                       (slice (entries tags) offset (end_pos len offset)))
                    <= PAGE_SIZE).
    { destruct Hend as [Hend|Hz].
      - rewrite (length_slice _ _ _ Hoff Hend).
        unfold entries. rewrite length_entries_from. fold len.
        unfold end_pos, PAGE_SIZE.
        destruct (Z.geb_spec (offset + 10) len); lia.
      - assert (Hnil : tags = [])
          by (destruct tags; [reflexivity|unfold len in Hz; simpl in Hz; lia]).
        subst tags. unfold slice, entries. cbn [entries_from].
        rewrite skipn_nil, firstn_nil. simpl. unfold PAGE_SIZE. lia. }
    destruct (offset >? 0), (end_pos len offset <? len - 1);
      cbn [List.length]; unfold PAGE_SIZE in *; lia.
Qed.

(** The answer to a page ends the loop exactly when it is a tag other than
    the first one: the entries for turning pages go on, and so does the
    entry of index 0, whose value is falsy; when the loop ends the answer is
    an index of the tag list. *)
Theorem loop_ends_on_a_tag_but_the_first (tags : list string) (offset : Z)
    (c : value) :
  0 <= offset ->
  In c (page tags offset) ->
  (continues (value_of c) = false <->
   exists title i,
     c = entry title i /\ 1 <= i /\
     nth_error tags (Z.to_nat i) = Some title).
Proof.
  intros Hoff Hin.
  apply (in_page tags offset c Hoff) in Hin.
  destruct Hin as [[-> _]|[[-> _]|(title & i & -> & Hi & Hnth & _)]].
  - split; [discriminate|].
    intros (t & k & He & Hk & _). unfold PREV in He.
    apply entry_inj in He. lia.
  - split; [discriminate|].
    intros (t & k & He & Hk & _). unfold NEXT in He.
    apply entry_inj in He. lia.
  - unfold continues. cbn.
    destruct (Z.eqb_spec i 0) as [->|Hnz]; cbn.
    + split; [discriminate|].
      intros (t & k & He & Hk & _). apply entry_inj in He. lia.
    + destruct (Z.eqb_spec i (-2)); [lia|].
      destruct (Z.eqb_spec i (-1)); [lia|]. cbn.
      split; [|reflexivity]. intros _. exists title, i.
      repeat split; auto; lia.
Qed.

Lemma findIndex_found (choice : value) (cs : list value) :
  forall k c,
    In c cs -> strict_eq (value_of c) choice = true ->
    k <= findIndex_from k choice cs.
Proof.
  induction cs as [|d cs IH]; intros k c Hin Heq; [contradiction|].
  cbn [findIndex_from]. destruct (strict_eq (value_of d) choice) eqn:Hd.
  - lia.
  - destruct Hin as [->|Hin]; [congruence|].
    pose proof (IH (k + 1) c Hin Heq). lia.
Qed.

(** Every element of a page is an object with a number as value. *)
Lemma page_entries_are_objects (tags : list string) (offset : Z) (c : value) :
  0 <= offset ->
  In c (page tags offset) ->
  exists props n, c = VObj props /\ value_of c = VNum n.
Proof.
  intros Hoff Hin. apply (in_page tags offset c Hoff) in Hin.
  destruct Hin as [[-> _]|[[-> _]|(title & i & -> & _)]];
    eexists; eexists; split; reflexivity.
Qed.

Section WithTheme.
Variable th : Select.theme.

(** From the first page, whatever entries are answered, the loop stays on
    pages that exist: offsets are multiples of the page size below the last
    index, so every page has a tag to show, the initial cursor is on an
    entry of the page, and the select prompt built for it comes up with that
    entry as its value. *)
Theorem pages_turn_safely (tags : list string) :
  2 <= Z.of_nat (List.length tags) ->
  reachable tags start /\
  (forall s c,
     reachable tags s ->
     In c (page tags (offset s)) ->
     reachable tags (turn tags s (value_of c))) /\
  (forall s,
     reachable tags s ->
     exists p c,
       Select.new th (select_opts tags s) = Normal p /\
       Select.cursor p = initial (selected s) (page tags (offset s)) /\
       index (page tags (offset s)) (Select.cursor p) = Some c /\
       Select.value_ p = value_of c).
Proof.
  intros Hlen. set (len := Z.of_nat (List.length tags)) in *.
  split; [|split].
  - unfold reachable, start, PAGE_SIZE. cbn [offset selected].
    fold len. repeat split; try lia.
  - intros s c (Hoff & Hmod & Hsel) Hin. unfold reachable, turn.
    cbn [offset selected]. fold len in Hoff |- *.
    destruct (page_entries_are_objects tags (offset s) c (proj1 Hoff) Hin)
      as (props & n & _ & Hn).
    assert (Hfound : 0 <= findIndex_from 0 (value_of c) (page tags (offset s))).
    { apply (findIndex_found _ _ 0 c Hin). rewrite Hn. cbn.
      apply Z.eqb_refl. }
    apply (in_page tags (offset s) c (proj1 Hoff)) in Hin. fold len in Hin.
    unfold PAGE_SIZE in *.
    destruct Hin as [[-> Hp]|[[-> Hnx]|(title & i & -> & Hi & _)]].
    + cbn. assert (Hq : offset s = 10 * (offset s / 10))
        by (pose proof (Z.div_mod (offset s) 10 ltac:(lia)); lia).
      repeat split; try lia; try exact Hfound.
      rewrite Hq. replace (10 * (offset s / 10) - 10)
        with ((offset s / 10 - 1) * 10) by lia.
      apply Z.mod_mul. lia.
    + cbn. repeat split; try lia; try exact Hfound.
      replace (offset s + 10) with (offset s + 1 * 10) by lia.
      rewrite Z.mod_add by lia. exact Hmod.
    + change (value_of (entry title i)) with (VNum i) in *.
      change (value_of PREV) with (VNum (-2)).
      change (value_of NEXT) with (VNum (-1)).
      cbn [strict_eq].
      destruct (Z.eqb_spec i (-2)); [lia|].
      destruct (Z.eqb_spec i (-1)); [lia|].
      repeat split; try lia; exact Hfound.
  - intros s (Hoff & Hmod & Hsel). fold len in Hoff.
    set (pg := page tags (offset s)).
    assert (Hfirst : exists title,
              In (entry title (offset s)) pg).
    { destruct (nth_error tags (Z.to_nat (offset s))) as [title|] eqn:Ht.
      - exists title. apply (in_page tags (offset s) _ (proj1 Hoff)).
        right. right. exists title, (offset s). fold len. unfold PAGE_SIZE.
        repeat split; auto; lia.
      - apply nth_error_None in Ht. unfold len in Hoff. lia. }
    destruct Hfirst as (title & Hfirst).
    assert (Hpos : 1 <= Z.of_nat (List.length pg)).
    { destruct pg; [contradiction|]. cbn [List.length]. lia. }
    set (ini := initial (selected s) pg).
    assert (Hini : 0 <= ini < Z.of_nat (List.length pg)).
    { unfold ini, initial.
      destruct (Z.ltb_spec (selected s) (Z.of_nat (List.length pg))); lia. }
    destruct (JsFacts.index_in_range pg ini Hini) as [c Hc].
    assert (Hcin : In c pg).
    { unfold index in Hc. destruct (ini <? 0); [discriminate|].
      eapply nth_error_In. exact Hc. }
    destruct (page_entries_are_objects tags (offset s) c (proj1 Hoff) Hcin)
      as (props & n & -> & Hn).
    assert (Hnot : ~ In VNull pg).
    { intros Hnull.
      destruct (page_entries_are_objects tags (offset s) VNull
                  (proj1 Hoff) Hnull) as (p' & n' & Hp' & _).
      discriminate. }
    destruct (SelectMore.new_on_object th (select_opts tags s) props
                Hnot Hc) as (p & Hp & Hcur & Hval).
    exists p, (VObj props). repeat split; auto.
    rewrite Hcur. exact Hc.
Qed.

End WithTheme.

(** *** The name of the tag *)

Lemma clean_from_no_plus (tag : string) :
  forall skip, has_char "+" (clean_from skip tag) = false.
Proof.
  induction tag as [|c rest IH]; intros skip; [destruct skip; reflexivity|].
  cbn [clean_from]. destruct skip as [|k]; [|apply IH].
  destruct (Ascii.eqb c "+") eqn:Hc.
  - cbn [has_char]. rewrite IH. reflexivity.
  - destruct (String.prefix "_plus_" (String c rest)).
    + cbn [has_char]. rewrite IH. reflexivity.
    + cbn [has_char]. rewrite IH, Ascii.eqb_sym, Hc. reflexivity.
Qed.

Lemma clean_from_length (tag : string) :
  forall skip,
    (String.length (clean_from skip tag) <= String.length tag)%nat.
Proof.
  induction tag as [|c rest IH]; intros skip; [destruct skip; simpl; lia|].
  cbn [clean_from]. destruct skip as [|k].
  - destruct (Ascii.eqb c "+"); [|destruct (String.prefix "_plus_" _)];
      cbn [String.length]; pose proof (IH 0%nat); pose proof (IH 5%nat); lia.
  - cbn [String.length]. pose proof (IH k). lia.
Qed.

(** The name made from a tag has no ['+'] left and is not longer than the
    tag; a tag with neither a ['+'] nor ["_plus_"] in it is kept as it
    is. *)
Theorem clean_tag_has_no_plus (tag : string) :
  has_char "+" (clean_tag tag) = false /\
  (String.length (clean_tag tag) <= String.length tag)%nat /\
  (has_char "+" tag = false -> occurs "_plus_" tag = false ->
   clean_tag tag = tag).
Proof.
  split; [apply clean_from_no_plus|]. split; [apply clean_from_length|].
  unfold clean_tag. induction tag as [|c rest IH]; intros Hplus Hocc.
  - reflexivity.
  - cbn [has_char] in Hplus. apply orb_false_elim in Hplus.
    destruct Hplus as [Hc Hrest].
    cbn [occurs] in Hocc. apply orb_false_elim in Hocc.
    destruct Hocc as [Hpre Hocc].
    cbn [clean_from]. rewrite Ascii.eqb_sym, Hc, Hpre, (IH Hrest Hocc).
    reflexivity.
Qed.

(** The two spellings of a plus in the sample tags. *)
Lemma clean_tag_samples :
  clean_tag "4.1.0+200225" = "4.1.0b200225" /\
  clean_tag "3.22.0_plus_200130" = "3.22.0b200130" /\
  clean_tag "3.21.6" = "3.21.6".
Proof.
  repeat split.
Qed.

End PagerFacts.

(* ===================================================================== *)
(** ** The further properties on the samples *)
(* ===================================================================== *)

Module MoreWitnesses.

Local Open Scope list_scope.

Ltac in_range := vm_compute; split; [discriminate | reflexivity].

(** *** SelectPrompt *)

Lemma new_returns_iff_witness :
  exists p, Select.new Demo.mono Demo.abc_opts = Normal p.
Proof.
  apply (proj2 (SelectMore.new_returns_iff Demo.mono Demo.abc_opts)).
  split.
  - vm_compute. intros [H|[H|[H|[]]]]; discriminate.
  - exists (VStr "a"). split; reflexivity.
Defined.

Lemma new_state_witness :
  Select.cursor Samples.picked = 2 /\
  List.length (Select.values Samples.picked) = List.length Demo.abc /\
  Keys.on_choice Samples.picked /\
  Select.done Samples.picked = false /\
  Select.aborted Samples.picked = false /\
  Select.closed Samples.picked = false /\
  (forall props,
     index Demo.abc (Select.cursor Samples.picked) = Some (VObj props) ->
     Keys.in_sync Samples.picked /\
     Select.value_ Samples.picked = lookup "value" props).
Proof.
  exact (SelectMore.new_state Demo.mono (Samples.abc_at 2) Samples.picked
           eq_refl).
Defined.

Lemma up_down_move_inside_witness :
  exists p' evs c,
    Select.down Demo.mono (Demo.prompt_at 1) = (Normal tt, p') /\
    Select.cursor p' = Select.cursor (Demo.prompt_at 1) + 1 /\
    Select.selection p' = Some c /\ Select.value_ p' = Select.cvalue c /\
    Select.out p'
    = Select.out (Demo.prompt_at 1)
      ++ Select.EFire (Select.cvalue c) (Select.aborted (Demo.prompt_at 1))
         :: evs /\
    Select.count Select.is_bell evs = 0%nat /\
    Select.count Select.is_fire evs = 0%nat.
Proof.
  apply (proj2 (SelectMore.up_down_move_inside Demo.mono (Demo.prompt_at 1)
                  ltac:(in_range))).
  vm_compute. discriminate.
Defined.

Lemma presses_stay_on_choice_witness :
  exists p',
    Keys.presses Demo.mono
      [Keys.KDown; Keys.KDown; Keys.KDown; Keys.KNext; Keys.KUp; Keys.KLast]
      (Demo.prompt_at 0) = (Normal tt, p') /\
    Keys.on_choice p' /\
    Select.values p' = Select.values (Demo.prompt_at 0) /\
    Select.done p' = Select.done (Demo.prompt_at 0) /\
    Select.aborted p' = Select.aborted (Demo.prompt_at 0) /\
    Select.closed p' = Select.closed (Demo.prompt_at 0) /\
    (Keys.in_sync (Demo.prompt_at 0) -> Keys.in_sync p').
Proof.
  apply (SelectMore.presses_stay_on_choice Demo.mono
           [Keys.KDown; Keys.KDown; Keys.KDown; Keys.KNext; Keys.KUp;
            Keys.KLast] (Demo.prompt_at 0)).
  in_range.
Defined.

Lemma abort_finishes_witness :
  exists p' evs,
    Select.abort Demo.mono (Demo.prompt_at 2) = (Normal tt, p') /\
    Select.done p' = true /\ Select.aborted p' = true /\
    Select.closed p' = true /\
    Select.cursor p' = Select.cursor (Demo.prompt_at 2) /\
    Select.value_ p' = Select.value_ (Demo.prompt_at 2) /\
    Select.out p'
    = Select.out (Demo.prompt_at 2)
      ++ Select.EFire (Select.value_ (Demo.prompt_at 2)) true :: evs /\
    Select.count Select.is_close evs = 1%nat /\
    Select.count Select.is_fire evs = 0%nat /\
    Select.count Select.is_bell evs = 0%nat.
Proof.
  apply (SelectMore.abort_finishes Demo.mono (Demo.prompt_at 2)
           Demo.choice_c).
  reflexivity.
Defined.

(** *** Spinner *)

Import Spinner.

Lemma start_disabled_static_line_witness :
  exists s',
    start (Demo.plain Demo.pipe) (Some "Cloning")
      (Demo.fresh Demo.pipe false "Loading") = (Normal tt, s') /\
    text s' = "Cloning" /\
    issued (Demo.fresh Demo.pipe false "Loading") s'
    = [Write ("- " ++ text s' ++ nl)%string] /\
    id s' = id (Demo.fresh Demo.pipe false "Loading") /\
    linesToClear s' = linesToClear (Demo.fresh Demo.pipe false "Loading") /\
    stop s' = s'.
Proof.
  exact (SpinnerMore.start_disabled_static_line (Demo.plain Demo.pipe)
           (Some "Cloning"%string) (Demo.fresh Demo.pipe false "Loading")
           eq_refl).
Defined.

Lemma start_while_spinning_witness :
  exists s',
    start (Demo.plain (Demo.tty 10)) (Some "Done soon") Samples.spinning
    = (Normal tt, s') /\
    text s' = "Done soon" /\
    issued Samples.spinning s' = [] /\
    id s' = id Samples.spinning /\
    frameIndex s' = frameIndex Samples.spinning /\
    linesToClear s' = linesToClear Samples.spinning.
Proof.
  exact (SpinnerMore.start_while_spinning (Demo.plain (Demo.tty 10))
           (Some "Done soon"%string) Samples.spinning eq_refl eq_refl).
Defined.

Lemma stop_erases_and_resets_witness :
  erasures (issued Samples.spinning (stop Samples.spinning))
  = Z.max 0 (linesToClear Samples.spinning) /\
  Forall (fun ev => Calls.is_write ev = false)
    (issued Samples.spinning (stop Samples.spinning)) /\
  id (stop Samples.spinning) = None /\
  frameIndex (stop Samples.spinning) = Num 0 /\
  linesToClear (stop Samples.spinning) = 0 /\
  text (stop Samples.spinning) = text Samples.spinning /\
  erasures (issued (stop Samples.spinning) (stop (stop Samples.spinning)))
  = 0.
Proof.
  exact (SpinnerMore.stop_erases_and_resets Samples.spinning
           eq_refl eq_refl).
Defined.

Lemma ticks_cycle_frames_witness :
  exists s',
    ticks (Demo.plain (Demo.tty 10)) 6 Samples.spinning = (Normal tt, s') /\
    frameIndex s'
    = Num ((2 + Z.of_nat 6)
             mod Z.of_nat (List.length ["-"; "\"; "|"; "/"]%string)) /\
    text s' = text Samples.spinning /\
    (6%nat <> O ->
     exists g,
       index ["-"; "\"; "|"; "/"]%string
         ((2 + Z.of_nat 6 - 1)
            mod Z.of_nat (List.length ["-"; "\"; "|"; "/"]%string))
       = Some g /\
       last_write (output (stream s'))
       = Some ((fun x : string => x) g ++ " " ++ text Samples.spinning)%string).
Proof.
  apply (SpinnerMore.ticks_cycle_frames (Demo.plain (Demo.tty 10))
           ["-"; "\"; "|"; "/"]%string (fun x => x) 6 Samples.spinning 2);
    try reflexivity.
  in_range.
Defined.

Lemma start_throws_on_unusable_colour_witness :
  exists err s',
    start (Demo.plain (Demo.tty 80)) None Samples.miscoloured
    = (Throw err, s') /\
    isSpinning s' = false /\
    Forall (fun ev => Calls.is_write ev = false)
      (issued Samples.miscoloured s') /\
    (hideCursor Samples.miscoloured = true ->
     exists evs, issued Samples.miscoloured s' = HideCursor :: evs).
Proof.
  apply (SpinnerMore.start_throws_on_unusable_colour
           (Demo.plain (Demo.tty 80)) Samples.miscoloured (VStr "mauve"));
    try reflexivity.
  discriminate.
Defined.

Lemma disabled_only_writes_witness :
  isEnabled
    (Calls.performs (Demo.plain Demo.pipe) Samples.calls
       (Demo.fresh Demo.pipe false "Loading")) = false /\
  id (Calls.performs (Demo.plain Demo.pipe) Samples.calls
        (Demo.fresh Demo.pipe false "Loading"))
  = id (Demo.fresh Demo.pipe false "Loading") /\
  Forall (fun ev => Calls.is_write ev = true)
    (issued (Demo.fresh Demo.pipe false "Loading")
       (Calls.performs (Demo.plain Demo.pipe) Samples.calls
          (Demo.fresh Demo.pipe false "Loading"))).
Proof.
  exact (SpinnerMore.disabled_only_writes (Demo.plain Demo.pipe)
           Samples.calls (Demo.fresh Demo.pipe false "Loading") eq_refl).
Defined.

Lemma plain_run_two_lines_witness :
  issued (Demo.fresh Demo.pipe false "")
    (Calls.performs (Demo.plain Demo.pipe)
       [Calls.Do (OpStart (Some "Cloning git repository"));
        Calls.Succeed (VStr "Git repository cloned!")]
       (Demo.fresh Demo.pipe false ""))
  = [Write ("- " ++ "Cloning git repository" ++ nl)%string;
     Write (persist_line (VStr "[ok]") (fun x => x)
              (VStr "Git repository cloned!"))].
Proof.
  apply (SpinnerMore.plain_run_two_lines (Demo.plain Demo.pipe)
           (Demo.fresh Demo.pipe false "")
           "Cloning git repository" "Git repository cloned!").
  - right. reflexivity.
  - reflexivity.
  - discriminate.
Defined.

Lemma persisted_line_not_erased_witness :
  (exists w,
     output (stream (snd (stopAndPersist (Demo.plain (Demo.tty 10))
                            no_popts Samples.spinning)))
     = output (stream (stop Samples.spinning)) ++ [Write w]) /\
  erasures
    (issued
       (snd (stopAndPersist (Demo.plain (Demo.tty 10)) no_popts
               Samples.spinning))
       (clear
          (snd (stopAndPersist (Demo.plain (Demo.tty 10)) no_popts
                  Samples.spinning)))) = 0 /\
  erasures
    (issued
       (snd (stopAndPersist (Demo.plain (Demo.tty 10)) no_popts
               Samples.spinning))
       (snd (render (Demo.plain (Demo.tty 10))
               (snd (stopAndPersist (Demo.plain (Demo.tty 10)) no_popts
                       Samples.spinning))))) = 0.
Proof.
  apply (SpinnerMore.persisted_line_not_erased (Demo.plain (Demo.tty 10))
           no_popts Samples.spinning).
  reflexivity.
Defined.

Lemma succeed_unknown_colour_throws_witness :
  exists err,
    succeed (Demo.plain (Demo.tty 10))
      (VObj [("text", VStr "done"); ("color", VStr "mauve")])
      Samples.spinning = (Throw err, stop Samples.spinning) /\
    issued (stop Samples.spinning)
      (snd (succeed (Demo.plain (Demo.tty 10))
              (VObj [("text", VStr "done"); ("color", VStr "mauve")])
              Samples.spinning)) = [].
Proof.
  apply (SpinnerMore.succeed_unknown_colour_throws
           (Demo.plain (Demo.tty 10))
           [("text", VStr "done"); ("color", VStr "mauve")]
           Samples.spinning).
  - discriminate.
  - reflexivity.
Defined.


(** *** The wrapper *)


Lemma wrapper_rejects_misconfiguration_witness :
  promise (Demo.plain (Demo.tty 80))
    (APromise {| elapsed := 1; result := Resolves (VStr "done") |})
    (ArgOptions Samples.frameless) VUndef VUndef
  = Normal (Rejected (Error "Spinner must define `frames`") None) /\
  exists err s1,
    promise (Demo.plain (Demo.tty 80))
      (APromise {| elapsed := 1; result := Resolves (VStr "done") |})
      (ArgOptions Samples.mauve) VUndef VUndef
    = Normal (Rejected err (Some s1)) /\
    isSpinning s1 = false /\
    Forall (fun ev => Calls.is_write ev = false)
      (issued Samples.miscoloured s1).
Proof.
  split.
  - apply (proj1 (WrapperMore.wrapper_rejects_misconfiguration
                    (Demo.plain (Demo.tty 80))
                    (APromise {| elapsed := 1;
                                 result := Resolves (VStr "done") |})
                    (ArgOptions Samples.frameless) VUndef VUndef eq_refl)).
    reflexivity.
  - apply (proj2 (WrapperMore.wrapper_rejects_misconfiguration
                    (Demo.plain (Demo.tty 80))
                    (APromise {| elapsed := 1;
                                 result := Resolves (VStr "done") |})
                    (ArgOptions Samples.mauve) VUndef VUndef eq_refl)
             Samples.miscoloured (VStr "mauve")); reflexivity.
Defined.

Lemma tagged_object_reported_as_failure_witness :
  isAsyncFunction (ATagged None) = true /\
  exists s txt,
    promise (Demo.plain (Demo.tty 80)) (ATagged None)
      (ArgOptions Demo.working) VUndef VUndef
    = Normal (Resolved s (Some (Normal tt, s))) /\
    last_write (output (stream s))
    = Some (persist_line (VStr "[error]") (fun x => x) txt) /\
    isSpinning s = false.
Proof.
  exact (WrapperMore.tagged_object_reported_as_failure
           (Demo.plain (Demo.tty 80)) (ArgOptions Demo.working)
           VUndef VUndef
           (Demo.fresh (Demo.tty 80) true "Working")
           (snd (start (Demo.plain (Demo.tty 80)) None
                   (Demo.fresh (Demo.tty 80) true "Working")))
           eq_refl eq_refl).
Defined.

(** *** The tag chooser *)

Lemma page_offers_tags_before_last_witness :
  (In (Pager.entry "3.21.2" 11) (Pager.page Samples.tags 10) <->
   (nth_error Samples.tags (Z.to_nat 11) = Some "3.21.2"%string /\
    10 <= 11 < 10 + Pager.PAGE_SIZE /\
    11 < Z.of_nat (List.length Samples.tags) - 1)) /\
  ~ In (Pager.entry "3.21.2" (Z.of_nat (List.length Samples.tags) - 1))
      (Pager.page Samples.tags 10) /\
  Z.of_nat (List.length (Pager.page Samples.tags 10))
  <= Pager.PAGE_SIZE + 2.
Proof.
  apply (PagerFacts.page_offers_tags_before_last Samples.tags 10
           "3.21.2" 11); vm_compute; discriminate.
Defined.

Lemma loop_ends_on_a_tag_but_the_first_witness :
  Pager.continues (Pager.value_of (Pager.entry "master" 0)) = false <->
  exists title i,
    Pager.entry "master" 0 = Pager.entry title i /\ 1 <= i /\
    nth_error Samples.tags (Z.to_nat i) = Some title.
Proof.
  apply (PagerFacts.loop_ends_on_a_tag_but_the_first Samples.tags 0
           (Pager.entry "master" 0)).
  - vm_compute. discriminate.
  - left. reflexivity.
Defined.

Lemma pages_turn_safely_witness :
  Pager.reachable Samples.tags Pager.start /\
  (forall s c,
     Pager.reachable Samples.tags s ->
     In c (Pager.page Samples.tags (Pager.offset s)) ->
     Pager.reachable Samples.tags
       (Pager.turn Samples.tags s (Pager.value_of c))) /\
  (forall s,
     Pager.reachable Samples.tags s ->
     exists p c,
       Select.new Demo.mono (Pager.select_opts Samples.tags s) = Normal p /\
       Select.cursor p
       = Pager.initial (Pager.selected s)
           (Pager.page Samples.tags (Pager.offset s)) /\
       index (Pager.page Samples.tags (Pager.offset s)) (Select.cursor p)
       = Some c /\
       Select.value_ p = Pager.value_of c).
Proof.
  apply (PagerFacts.pages_turn_safely Demo.mono Samples.tags).
  vm_compute. discriminate.
Defined.

End MoreWitnesses.
